(** * PINA: graph construction and the PINN step, embedded and verified

    A shallow embedding of [pina/graph.py] ([Graph], [RadiusGraph],
    [KNNGraph], [TemporalGraph]), of the step functions, the residual and
    the log of residual losses of [pina/solvers/pinns/basepinn.py]
    ([PINNInterface]), and of the sampling of the domains of
    [pina/problem/abstract_problem.py] ([AbstractProblem]).

    Python objects are values of [pyval]; dictionaries live in a store and
    are passed by reference, because the constructor writes into the
    dictionary it is handed; lists and the tensors of a graph are never
    written to and are plain values; the unknown parameters, which the
    clamping routine writes in place, are part of the solver state.  Every
    function that can raise returns a
    [result]; functions that touch [self] or the store run in the monad [M].

    Tensor entries are rationals: arithmetic is exact, rounding of floats is
    outside the model. *)

From Stdlib Require Import QArith Qminmax Qabs ZArith Lia Lqa.
From Stdlib Require Import Sorting.Permutation Sorting.Sorted.
From Stdlib Require Import Floats.SpecFloat.
From stdpp Require Import base tactics option list strings gmap.

Local Open Scope string_scope.
Local Open Scope list_scope.

(** ** Exceptions and the state-and-exception monad *)

Inductive exn : Type :=
| ValueError (msg : string)
| TypeError (msg : string)
| IndexError (msg : string)
| KeyError (key : string)
| RuntimeError (msg : string).

Inductive result (A : Type) : Type :=
| Ok (a : A)
| Err (e : exn).
Arguments Ok {A} a.
Arguments Err {A} e.

Definition M (S A : Type) : Type := S -> S * result A.

Definition ret {S A} (a : A) : M S A := fun s => (s, Ok a).

Definition raise {S A} (e : exn) : M S A := fun s => (s, Err e).

Definition bind {S A B} (c : M S A) (k : A -> M S B) : M S B :=
  fun s => match c s with
           | (s', Ok a) => k a s'
           | (s', Err e) => (s', Err e)
           end.

Definition lift {S A} (r : result A) : M S A := fun s => (s, r).

Definition gets {S A} (f : S -> A) : M S A := fun s => (s, Ok (f s)).

Definition modify {S} (f : S -> S) : M S unit := fun s => (f s, Ok tt).

Notation "'let*' x := c 'in' k" := (bind c (fun x => k))
  (at level 20, x name, c at level 100, k at level 200).

(** [for a in l: body a], stopping at the first exception. *)
Fixpoint for_each {S A} (l : list A) (body : A -> M S unit) : M S unit :=
  match l with
  | [] => ret tt
  | a :: l' => let* _ := body a in for_each l' body
  end.

(** A list comprehension [[f a for a in l]] whose element expression can
    raise. *)
Fixpoint map_result {A B} (f : A -> result B) (l : list A) : result (list B) :=
  match l with
  | [] => Ok []
  | a :: l' =>
      match f a with
      | Err e => Err e
      | Ok b => match map_result f l' with
                | Err e => Err e
                | Ok bs => Ok (b :: bs)
                end
      end
  end.

(** ** Tensors

    A tensor is its shape and its entries in row-major order.  [labeled]
    tells a [LabelTensor] (a subclass of [torch.Tensor]) from a plain
    tensor; the labels themselves play no part in this file. *)

Record tensor : Type := mkTensor {
  labeled : bool;
  shape : list nat;
  data : list Q
}.

Definition ndim (t : tensor) : nat := length (shape t).

Definition numel (sh : list nat) : nat := foldr Nat.mul 1%nat sh.

(** [t[i]] for [i] below the leading dimension. *)
Definition tslice (t : tensor) (i : nat) : tensor :=
  let m := numel (tail (shape t)) in
  {| labeled := labeled t;
     shape := tail (shape t);
     data := take m (drop (i * m) (data t)) |}.

Definition tensor_getitem (t : tensor) (i : nat) : result tensor :=
  match shape t with
  | [] => Err (IndexError "invalid index of a 0-dim tensor")
  | n :: _ => if (i <? n)%nat then Ok (tslice t i)
              else Err (IndexError "index out of range")
  end.

(** [[t[i] for i in range(t.shape[0])]] *)
Definition tensor_unbind (t : tensor) : list tensor :=
  map (tslice t) (seq 0 (hd 0%nat (shape t))).

(** [x_.tensor]: the plain-tensor view of a [LabelTensor]. *)
Definition plain (t : tensor) : tensor :=
  {| labeled := false; shape := shape t; data := data t |}.

(** ** Python values *)

Abbreviation loc := nat (only parsing).

Inductive pyval : Type :=
| PNone
| PInt (z : Z)
| PStr (s : string)
| PTensor (t : tensor)
| PList (l : list pyval)
| PTuple (l : list pyval)
| PDict (r : loc).

(** A dictionary with string keys keeps its entries in insertion order,
    keys unique. *)
Abbreviation dict V := (list (string * V)).

Abbreviation pydict := (dict pyval).

Fixpoint dict_get {V} (d : dict V) (k : string) : option V :=
  match d with
  | [] => None
  | (k', v) :: d' => if String.eqb k k' then Some v else dict_get d' k
  end.

(** [d[k] = v] for a key already present (the position is kept); a new key
    goes to the end. *)
Fixpoint dict_set {V} (d : dict V) (k : string) (v : V) : dict V :=
  match d with
  | [] => [(k, v)]
  | (k', v') :: d' =>
      if String.eqb k k' then (k', v) :: d' else (k', v') :: dict_set d' k v
  end.

Definition keys {V} (d : dict V) : list string := map fst d.

Definition is_list (v : pyval) : bool :=
  match v with PList _ => true | _ => false end.

Definition is_tensor (v : pyval) : bool :=
  match v with PTensor _ => true | _ => false end.

(** ** The store, [self], and the builtins the constructors use *)

(** What a graph record holds: [Data(x=, pos=, edge_index=, edge_attr=,
    **kwargs)].  [d_edge_attr] is [None] when the keyword was not passed. *)
Record Data : Type := mkData {
  d_x : pyval;
  d_pos : pyval;
  d_edge_index : pyval;
  d_edge_attr : option pyval;
  d_kwargs : pydict
}.

Inductive event : Type :=
| Warn (msg : string)
| Print (n : nat).

(** [heap] holds the dictionaries, [self_data] is [self.data] of the graph
    under construction, [out] collects warnings and printed lines. *)
Record gstate : Type := mkGstate {
  heap : gmap loc pydict;
  self_data : list Data;
  out : list event
}.

Definition dict_at (r : loc) (s : gstate) : pydict := default [] (heap s !! r).

Definition set_heap (h : gmap loc pydict) (s : gstate) : gstate :=
  {| heap := h; self_data := self_data s; out := out s |}.

Definition set_self_data (l : list Data) (s : gstate) : gstate :=
  {| heap := heap s; self_data := l; out := out s |}.

Definition emit (e : event) : M gstate unit :=
  modify (fun s => {| heap := heap s; self_data := self_data s;
                      out := out s ++ [e] |}).

(** [{...}] evaluated to a new dictionary object. *)
Definition new_dict (d : pydict) : M gstate loc :=
  fun s => let r := fresh (dom (heap s)) in
           (set_heap (<[r := d]> (heap s)) s, Ok r).

(** [d[k] = v] on the dictionary object at [r]. *)
Definition dict_store (r : loc) (k : string) (v : pyval) : M gstate unit :=
  modify (fun s => set_heap (<[r := dict_set (dict_at r s) k v]> (heap s)) s).

Definition Rbind {A B} (c : result A) (k : A -> result B) : result B :=
  match c with Ok a => k a | Err e => Err e end.

Notation "'let+' x := c 'in' k" := (Rbind c (fun x => k))
  (at level 20, x name, c at level 100, k at level 200).

Fixpoint chars (s : string) : list pyval :=
  match s with
  | EmptyString => []
  | String c s' => PStr (String c EmptyString) :: chars s'
  end.

(** [len(v)] *)
Definition py_len (h : gmap loc pydict) (v : pyval) : result nat :=
  match v with
  | PList l | PTuple l => Ok (length l)
  | PStr s => Ok (String.length s)
  | PTensor t => match shape t with
                 | [] => Err (TypeError "len() of a 0-d tensor")
                 | n :: _ => Ok n
                 end
  | PDict r => Ok (length (default [] (h !! r)))
  | PNone | PInt _ => Err (TypeError "object has no len()")
  end.

(** The items [iter(v)] yields. *)
Definition py_iter (h : gmap loc pydict) (v : pyval) : result (list pyval) :=
  match v with
  | PList l | PTuple l => Ok l
  | PStr s => Ok (chars s)
  | PTensor t => match shape t with
                 | [] => Err (TypeError "iteration over a 0-d tensor")
                 | _ :: _ => Ok (map PTensor (tensor_unbind t))
                 end
  | PDict r => Ok (map (fun kv => PStr (fst kv)) (default [] (h !! r)))
  | PNone | PInt _ => Err (TypeError "object is not iterable")
  end.

(** [v[i]] for a nonnegative integer [i]; the keys of a dictionary are
    strings, so an integer is never among them. *)
Definition py_getitem (v : pyval) (i : nat) : result pyval :=
  match v with
  | PList l | PTuple l =>
      match l !! i with
      | Some a => Ok a
      | None => Err (IndexError "index out of range")
      end
  | PStr s => match chars s !! i with
              | Some a => Ok a
              | None => Err (IndexError "string index out of range")
              end
  | PTensor t => let+ a := tensor_getitem t i in Ok (PTensor a)
  | PDict _ => Err (KeyError "integer key")
  | PNone | PInt _ => Err (TypeError "object is not subscriptable")
  end.

Definition iterM (v : pyval) : M gstate (list pyval) :=
  fun s => (s, py_iter (heap s) v).

Definition lenM (v : pyval) : M gstate nat :=
  fun s => (s, py_len (heap s) v).

(** ** Tensor arithmetic used by the default edge attribute *)

Definition Q_to_index (n : nat) (q : Q) : option nat :=
  let z := (Qnum q / Zpos (Qden q))%Z in
  if negb (Qnum q mod Zpos (Qden q) =? 0)%Z then None
  else if (0 <=? z)%Z then
         (if (z <? Z.of_nat n)%Z then Some (Z.to_nat z) else None)
  else if (- Z.of_nat n <=? z)%Z then Some (Z.to_nat (z + Z.of_nat n))
  else None.

Fixpoint gather_rows (p : tensor) (n : nat) (idx : list Q) : result (list Q) :=
  match idx with
  | [] => Ok []
  | q :: idx' =>
      match Q_to_index n q with
      | None => Err (IndexError "index out of range")
      | Some i => let+ rest := gather_rows p n idx' in
                  Ok (data (tslice p i) ++ rest)
      end
  end.

(** [pos[idx]] for an index tensor [idx]: the rows of [pos] that [idx]
    names, in the shape of [idx].  Negative entries count from the end.
    Only a tensor indexed by a tensor of whole numbers is followed; every
    other operand pair is reported as a [TypeError]. *)
Definition py_index (pos idx : pyval) : result pyval :=
  match pos, idx with
  | PTensor p, PTensor i =>
      match shape p with
      | [] => Err (IndexError "too many indices for tensor of dimension 0")
      | n :: rest =>
          let+ d := gather_rows p n (data i) in
          Ok (PTensor {| labeled := labeled p; shape := shape i ++ rest;
                         data := d |})
      end
  | _, _ => Err (TypeError "unsupported operands for indexing")
  end.

(** [a - b] for tensors of one shape (the only case [_build_edge_attr]
    meets: both operands are gathered with rows of the same edge index). *)
Definition py_sub (a b : pyval) : result pyval :=
  match a, b with
  | PTensor ta, PTensor tb =>
      if bool_decide (shape ta = shape tb) then
        Ok (PTensor {| labeled := labeled ta; shape := shape ta;
                       data := zip_with Qminus (data ta) (data tb) |})
      else Err (RuntimeError "tensor sizes must match")
  | _, _ => Err (TypeError "unsupported operand type(s) for -")
  end.

(** [torch.abs(a)] *)
Definition py_abs (a : pyval) : result pyval :=
  match a with
  | PTensor t => Ok (PTensor {| labeled := labeled t; shape := shape t;
                                data := map Qabs (data t) |})
  | _ => Err (TypeError "abs(): argument must be Tensor")
  end.

(** ** [class Graph] *)

(** [Data(x=x_, pos=pos_, edge_index=edge_index_, [edge_attr=ea,] **kwargs)]:
    a keyword given twice is a [TypeError]. *)
Definition new_Data (x pos edge_index : pyval) (edge_attr : option pyval)
    (kwargs : pydict) : result Data :=
  let named := ["x"; "pos"; "edge_index"] ++
               match edge_attr with Some _ => ["edge_attr"] | None => [] end in
  if forallb (fun kv => negb (bool_decide (fst kv ∈ named))) kwargs then
    Ok (mkData x pos edge_index edge_attr kwargs)
  else Err (TypeError "got multiple values for keyword argument").

(** [Graph._build_edge_attr] (the default, a static method) *)
Definition _build_edge_attr (x pos edge_index : pyval) : result pyval :=
  let+ e0 := py_getitem edge_index 0 in
  let+ a := py_index pos e0 in
  let+ e1 := py_getitem edge_index 1 in
  let+ b := py_index pos e1 in
  let+ d := py_sub a b in
  py_abs d.

(** [Graph._check_len_consistency] *)
Definition _check_len_consistency (x pos : pyval) : result nat :=
  match x, pos with
  | PList lx, PList lp =>
      if negb (length lx =? length lp)%nat then
        Err (ValueError "x and pos must have the same length.")
      else Ok (Nat.max (length lx) (length lp))
  | PList lx, _ => Ok (length lx)
  | _, PList lp => Ok (length lp)
  | _, _ => Ok 1%nat
  end.

(** A 3-D tensor becomes the list of its 2-D slices. *)
Definition split_3d (v : pyval) : pyval :=
  match v with
  | PTensor t => if (ndim t =? 3)%nat then PList (map PTensor (tensor_unbind t))
                 else v
  | _ => v
  end.

(** [Graph._check_input_consistency] *)
Definition _check_input_consistency (x pos edge_index : pyval)
    : pyval * pyval * pyval :=
  (split_3d x, split_3d pos, split_3d edge_index).

(** One round of the loop of [_check_additional_params] on the dictionary
    object at [r]. *)
Definition expand_param (r : loc) (data_len : nat) (entry : string * pyval)
    : M gstate unit :=
  let '(param, val) := entry in
  match val with
  | PTensor t =>
      let* _ :=
        if (ndim t =? 3)%nat then
          dict_store r param (PList (map PTensor (tensor_unbind t)))
        else if (ndim t =? 2)%nat then
          dict_store r param (PList (replicate data_len val))
        else ret tt in
      if (ndim t =? 1)%nat then
        if (hd 0%nat (shape t) =? data_len)%nat then
          dict_store r param (PList (map PTensor (tensor_unbind t)))
        else dict_store r param (PList (replicate data_len val))
      else ret tt
  | PList _ => ret tt
  | _ => raise (TypeError
           "additional_params values must be tensors or lists of tensors.")
  end.

(** [Graph._check_additional_params].  The loop runs over the entries the
    dictionary has when it starts; it only assigns to keys already there,
    so no later entry is changed before its turn. *)
Definition _check_additional_params (additional_params : pyval)
    (data_len : nat) : M gstate loc :=
  match additional_params with
  | PNone => new_dict []
  | PDict r =>
      let* items := gets (dict_at r) in
      let* _ := for_each items (expand_param r data_len) in
      ret r
  | _ => raise (TypeError "additional_params must be a dictionary.")
  end.

(** [Graph._check_and_build_edge_attr]; [build] is [self._build_edge_attr]. *)
Definition _check_and_build_edge_attr
    (build : pyval -> pyval -> pyval -> result pyval)
    (edge_attr : pyval) (build_edge_attr : bool) (data_len : nat)
    (edge_index pos x : pyval) : M gstate pyval :=
  match edge_attr with
  | PNone =>
      if build_edge_attr then
        let* ps := iterM pos in
        let* es := iterM edge_index in
        let* l := lift (map_result (fun pe => build x (fst pe) (snd pe))
                          (zip ps es)) in
        ret (PList l)
      else ret PNone
  | _ =>
      let* _ :=
        if build_edge_attr then
          emit (Warn
            "edge_attr is not None. build_edge_attr will not be considered.")
        else ret tt in
      let* _ :=
        match edge_attr with
        | PList l =>
            if negb (length l =? data_len)%nat then
              raise (ValueError
                "edge_attr must have the same length as x and pos.")
            else ret tt
        | _ => ret tt
        end in
      ret (PList (replicate data_len edge_attr))
  end.

(** [edge_attr[i]] when [edge_attr is not None], else no such keyword. *)
Definition edge_attr_item (edge_attr : pyval) (i : nat)
    : result (option pyval) :=
  match edge_attr with
  | PNone => Ok None
  | _ => let+ a := py_getitem edge_attr i in Ok (Some a)
  end.

(** [if isinstance(x_, LabelTensor): x_ = x_.tensor] *)
Definition unwrap_label (x_ : pyval) : pyval :=
  match x_ with
  | PTensor t => if labeled t then PTensor (plain t) else x_
  | _ => x_
  end.

(** The body of the loop of [Graph._build_graph_list] at index [i]. *)
Definition build_graph (edge_attr : pyval) (additional_params : loc)
    (i : nat) (item : pyval * pyval * pyval) : M gstate unit :=
  let '(x_, pos_, edge_index_) := item in
  let x_ := unwrap_label x_ in
  let* items := gets (dict_at additional_params) in
  let* add_params_local :=
    lift (map_result (fun kv => let+ vi := py_getitem (snd kv) i in
                                Ok (fst kv, vi)) items) in
  let* ea := lift (edge_attr_item edge_attr i) in
  let* rec := lift (new_Data x_ pos_ edge_index_ ea add_params_local) in
  modify (fun s => set_self_data (self_data s ++ [rec]) s).

Fixpoint for_enumerate {St A} (i : nat) (l : list A)
    (body : nat -> A -> M St unit) : M St unit :=
  match l with
  | [] => ret tt
  | a :: l' => let* _ := body i a in for_enumerate (S i) l' body
  end.

Definition zip3 {A B C} (a : list A) (b : list B) (c : list C)
    : list (A * B * C) := zip (zip a b) c.

(** [Graph._build_graph_list] *)
Definition _build_graph_list (x pos edge_index edge_attr : pyval)
    (additional_params : loc) : M gstate unit :=
  let* xs := iterM x in
  let* ps := iterM pos in
  let* es := iterM edge_index in
  for_enumerate 0 (zip3 xs ps es) (build_graph edge_attr additional_params).

Section Graph.

(** [torch_geometric.utils.to_undirected], an outside collaborator *)
Variable to_undirected : pyval -> result pyval.

(** The [if undirected:] block of [Graph.__init__]. *)
Definition make_undirected (undirected : bool) (edge_index : pyval)
    : result pyval :=
  if undirected then
    match edge_index with
    | PList l => let+ l' := map_result to_undirected l in Ok (PList l')
    | _ => to_undirected edge_index
    end
  else Ok edge_index.

(** The [if/elif] chain of [Graph.__init__] that brings [x], [pos] and
    [edge_index] to lists. *)
Definition prepare_lists (x pos edge_index : pyval) (data_len : nat)
    : result (pyval * pyval * pyval) :=
  if is_list x && is_tensor pos then
    Ok (x, PList (replicate data_len pos),
        PList (replicate data_len edge_index))
  else if is_tensor x && is_tensor pos then
    Ok (PList [x], PList [pos], PList [edge_index])
  else if is_tensor x && is_list pos then
    Ok (PList (replicate data_len x), pos, edge_index)
  else if negb (is_list x) && negb (is_list pos) then
    Err (TypeError "x and pos must be lists or tensors.")
  else Ok (x, pos, edge_index).

(** [Graph.__init__]; [custom_build_edge_attr] is [Some f] when the
    argument is a function. *)
Definition Graph_init (x pos edge_index edge_attr : pyval)
    (build_edge_attr undirected : bool)
    (custom_build_edge_attr : option (pyval -> pyval -> pyval -> result pyval))
    (additional_params : pyval) : M gstate unit :=
  let* _ := modify (set_self_data []) in
  let '(x, pos, edge_index) := _check_input_consistency x pos edge_index in
  let* data_len := lift (_check_len_consistency x pos) in
  let build := match custom_build_edge_attr with
               | Some f => f
               | None => _build_edge_attr
               end in
  let* additional_params :=
    _check_additional_params additional_params data_len in
  let* edge_index := lift (make_undirected undirected edge_index) in
  let* lists := lift (prepare_lists x pos edge_index data_len) in
  let '(x, pos, edge_index) := lists in
  let* edge_attr := _check_and_build_edge_attr build edge_attr
                      build_edge_attr data_len edge_index pos x in
  _build_graph_list x pos edge_index edge_attr additional_params.

End Graph.

(** ** Point sets, distances and the topology builders

    An N×D tensor of points is read as the list of its N rows, and a 2×E
    edge index as its two rows (sources, destinations).

    [torch.cdist(points, points, p=2)] is followed through its square,
    which stays rational: for [0 <= r], [sqrt s <= r] says the same as
    [s <= r * r], no distance is [<=] a negative [r], and [sqrt] keeps the
    order, so the smallest distances are the smallest squares. *)

Definition point : Type := list Q.

Definition sqdist (a b : point) : Q :=
  foldr Qplus 0%Q (zip_with (fun x y => (x - y) * (x - y))%Q a b).

Definition cdist2 (ps qs : list point) : list (list Q) :=
  map (fun a => map (sqdist a) qs) ps.

(** [dist <= r], entry by entry, on a squared distance *)
Definition within (r s : Q) : bool := Qle_bool 0 r && Qle_bool s (r * r).

(** Column numbers of the [true] entries of a row, from column [j] on. *)
Fixpoint true_columns (j : nat) (row : list bool) : list nat :=
  match row with
  | [] => []
  | b :: row' => (if b then [j] else []) ++ true_columns (S j) row'
  end.

(** [torch.nonzero(mask, as_tuple=False)]: the index pairs of the [true]
    entries, row by row. *)
Definition nonzero (mask : list (list bool)) : list (nat * nat) :=
  concat (imap (fun i row => map (fun j => (i, j)) (true_columns 0 row)) mask).

(** [.t()] of an E×2 index tensor *)
Definition transpose_pairs (l : list (nat * nat)) : list nat * list nat :=
  (map fst l, map snd l).

(** [RadiusGraph._radius_graph] *)
Definition _radius_graph (points : list point) (r : Q) : list nat * list nat :=
  let dist := cdist2 points points in
  transpose_pairs (nonzero (map (map (within r)) dist)).

(** Ascending order on the distance, an earlier column first among equals. *)
Fixpoint insert_by_dist (x : Q * nat) (l : list (Q * nat)) : list (Q * nat) :=
  match l with
  | [] => [x]
  | y :: l' => if Qle_bool (fst x) (fst y) then x :: y :: l'
               else y :: insert_by_dist x l'
  end.

Definition sort_by_dist (l : list (Q * nat)) : list (Q * nat) :=
  foldr insert_by_dist [] l.

Definition argsort (row : list Q) : list nat :=
  map snd (sort_by_dist (zip row (seq 0 (length row)))).

(** [torch.topk(dist, k, largest=False).indices] on a matrix with [n]
    columns: per row, the columns of the [k] smallest entries in ascending
    order. *)
Definition topk_indices (dist : list (list Q)) (n k : nat)
    : result (list (list nat)) :=
  if (k <=? n)%nat then Ok (map (fun row => take k (argsort row)) dist)
  else Err (RuntimeError "selected index k out of range").

(** [torch.arange(n).repeat_interleave(k)] *)
Definition repeat_interleave (n k : nat) : list nat :=
  flat_map (fun i => replicate k i) (seq 0 n).

(** [KNNGraph._knn_graph] *)
Definition _knn_graph (points : list point) (k : nat)
    : result (list nat * list nat) :=
  let dist := cdist2 points points in
  let+ idx := topk_indices dist (length points) (k + 1) in
  let knn_indices := map (drop 1) idx in
  let row := repeat_interleave (length points) k in
  let col := concat knn_indices in
  Ok (row, col).

(** The rows of a 2-D tensor. *)
Definition rows_of (p : pyval) : result (list point) :=
  match p with
  | PTensor t =>
      match shape t with
      | [n; _] => Ok (map (fun i => data (tslice t i)) (seq 0 n))
      | _ => Err (RuntimeError "cdist: expected a 2-D tensor")
      end
  | _ => Err (TypeError "cdist(): argument must be Tensor")
  end.

Definition index_entry (i : nat) : Q := inject_Z (Z.of_nat i).

(** A 2×E edge index as a tensor. *)
Definition edge_tensor (rc : list nat * list nat) : pyval :=
  PTensor {| labeled := false;
             shape := [2%nat; length (fst rc)];
             data := map index_entry (fst rc ++ snd rc) |}.

Definition radius_graph_of (r : Q) (p : pyval) : result pyval :=
  let+ pts := rows_of p in Ok (edge_tensor (_radius_graph pts r)).

Definition knn_graph_of (k : nat) (p : pyval) : result pyval :=
  let+ pts := rows_of p in
  let+ rc := _knn_graph pts k in
  Ok (edge_tensor rc).

(** [_radius_graph(p, r)] when [r] may be [None]: the distances are
    computed first, then compared with [r]. *)
Definition radius_graph_opt (r : option Q) (p : pyval) : result pyval :=
  let+ pts := rows_of p in
  match r with
  | Some r => Ok (edge_tensor (_radius_graph pts r))
  | None => Err (TypeError "'<=' not supported between Tensor and NoneType")
  end.

(** The edge index of a subclass: one per entry when [pos] is not a single
    tensor. *)
Definition edges_for (one : pyval -> result pyval) (pos : pyval)
    : M gstate pyval :=
  if is_tensor pos then lift (one pos)
  else
    let* ps := iterM pos in
    let* l := lift (map_result one ps) in
    ret (PList l).

(** [TemporalGraph._check_time_consistency] *)
Definition _check_time_consistency (pos times : pyval) : M gstate unit :=
  let* lp := lenM pos in
  let* lt := lenM times in
  if negb (lp =? lt)%nat then
    raise (ValueError "pos and times must have the same length.")
  else ret tt.

Section Subclasses.

Variable to_undirected : pyval -> result pyval.

(** [RadiusGraph.__init__]; the keyword arguments are those of [Graph]. *)
Definition RadiusGraph_init (x pos : pyval) (r : Q) (edge_attr : pyval)
    (build_edge_attr undirected : bool)
    (custom_build_edge_attr : option (pyval -> pyval -> pyval -> result pyval))
    (additional_params : pyval) : M gstate unit :=
  let '(x, pos, _) := _check_input_consistency x pos PNone in
  let* edge_index := edges_for (radius_graph_of r) pos in
  Graph_init to_undirected x pos edge_index edge_attr build_edge_attr
    undirected custom_build_edge_attr additional_params.

(** [KNNGraph.__init__] *)
Definition KNNGraph_init (x pos : pyval) (k : nat) (edge_attr : pyval)
    (build_edge_attr undirected : bool)
    (custom_build_edge_attr : option (pyval -> pyval -> pyval -> result pyval))
    (additional_params : pyval) : M gstate unit :=
  let '(x, pos, _) := _check_input_consistency x pos PNone in
  let* edge_index := edges_for (knn_graph_of k) pos in
  Graph_init to_undirected x pos edge_index edge_attr build_edge_attr
    undirected custom_build_edge_attr additional_params.

(** [TemporalGraph.__init__] *)
Definition TemporalGraph_init (x pos t edge_index edge_attr : pyval)
    (build_edge_attr undirected : bool) (r : option Q) : M gstate unit :=
  let '(x, pos, edge_index) := _check_input_consistency x pos edge_index in
  let* n := lenM pos in
  let* _ := emit (Print n) in
  let* edge_index :=
    match edge_index with
    | PNone =>
        let* ps := iterM pos in
        let* l := lift (map_result (radius_graph_opt r) ps) in
        ret (PList l)
    | _ => ret edge_index
    end in
  let* additional_params := new_dict [("t", t)] in
  let* _ := _check_time_consistency pos t in
  Graph_init to_undirected x pos edge_index edge_attr build_edge_attr
    undirected None (PDict additional_params).

End Subclasses.

(** ** [class PINNInterface]: the training and validation steps

    The tensor engine, the network and the loss are outside collaborators:
    [Pts] are point tensors, [forward] the network, [_loss] the configured
    loss, [loss_phys] the physics loss a concrete solver supplies.  A loss
    value is a rational scalar.  An unknown parameter is the list of its
    entries. *)

Inductive pinn_event : Type :=
| ClampCall                        (* self._clamp_params() *)
| Log (key : string) (value : Q).  (* self.log(key, value, ...) *)

Record solver : Type := mkSolver {
  _params : option (dict (list Q));
  trace : list pinn_event
}.

(** [torch.clamp]: [min(max(x, low), high)] *)
Definition clamp (low high x : Q) : Q := Qmin (Qmax x low) high.

Definition set_params (ps : option (dict (list Q))) (s : solver) : solver :=
  {| _params := ps; trace := trace s |}.

Definition record (e : pinn_event) : M solver unit :=
  modify (fun s => {| _params := _params s; trace := trace s ++ [e] |}).

(** [self._params[v].data.clamp_(low, high)] *)
Definition clamp_param (v : string) (low high : Q) : M solver unit :=
  fun s => match _params s with
           | None => (s, Err (TypeError "'NoneType' object is not subscriptable"))
           | Some ps =>
               match dict_get ps v with
               | None => (s, Err (KeyError v))
               | Some x =>
                   (set_params (Some (dict_set ps v (map (clamp low high) x))) s,
                    Ok tt)
               end
           end.

(** [PINNInterface._clamp_inverse_problem_params]; [range_] is
    [self.problem.unknown_parameter_domain.range_]. *)
Definition _clamp_inverse_problem_params (range_ : dict (Q * Q))
    : M solver unit :=
  let* ps := gets _params in
  match ps with
  | None => raise (TypeError "'NoneType' object is not iterable")
  | Some ps =>
      for_each (keys ps) (fun v =>
        match dict_get range_ v with
        | None => raise (KeyError v)
        | Some (low, high) => clamp_param v low high
        end)
  end.

(** [sum(condition_loss)] *)
Definition py_sum (l : list Q) : Q := foldl Qplus 0%Q l.

Section PINNInterface.

Variables Pts Equation : Type.
Variable forward : Pts -> Pts.
Variable _loss : Pts -> Pts -> Q.
Variable loss_phys : Pts -> Equation -> Q.
Variable requires_grad_ : Pts -> Pts.

(** [self.problem]: its conditions (each with its equation) and, for an
    [InverseProblem], the ranges of the unknown parameters. *)
Record problem : Type := mkProblem {
  conditions : dict Equation;
  inverse_range : option (dict (Q * Q))
}.

Variable pb : problem.

(** [self._clamp_params], as [__init__] binds it: the clamping routine
    for an inverse problem, [lambda: None] otherwise. *)
Definition _clamp_params : M solver unit :=
  let* _ := record ClampCall in
  match inverse_range pb with
  | Some range_ => _clamp_inverse_problem_params range_
  | None => ret tt
  end.

(** [PINNInterface.loss_data] *)
Definition loss_data (input_pts output_pts : Pts) : Q :=
  _loss (forward input_pts) output_pts.

Definition lookup_key {V} (d : dict V) (k : string) : result V :=
  match dict_get d k with
  | Some v => Ok v
  | None => Err (KeyError k)
  end.

(** The [for condition_name, points in batch:] loop, which the two step
    functions share word for word (the validation step only wraps the
    physics loss in [torch.set_grad_enabled(True)]); [condition_loss] is
    the list built so far. *)
Fixpoint condition_losses (batch : list (string * dict Pts))
    (condition_loss : list Q) : result (list Q) :=
  match batch with
  | [] => Ok condition_loss
  | (condition_name, points) :: batch' =>
      let+ branch :=
        match dict_get points "output_points" with
        | Some _ =>
            let+ input_pts := lookup_key points "input_points" in
            let+ output_pts := lookup_key points "output_points" in
            let loss_ := loss_data input_pts output_pts in
            Ok (loss_, condition_loss ++ [loss_])
        | None =>
            let+ input_pts := lookup_key points "input_points" in
            let+ condition := lookup_key (conditions pb) condition_name in
            let loss_ := loss_phys (requires_grad_ input_pts) condition in
            Ok (loss_, condition_loss ++ [loss_])
        end in
      let '(loss_, condition_loss) := branch in
      (* the statement after the [if]/[else]: [loss_] is appended again *)
      let condition_loss := condition_loss ++ [loss_] in
      condition_losses batch' condition_loss
  end.

(** The loss the loop computes for one pair of the batch (the value of
    [loss_] in that round). *)
Definition condition_loss_of (entry : string * dict Pts) : result Q :=
  let '(condition_name, points) := entry in
  match dict_get points "output_points" with
  | Some _ =>
      let+ input_pts := lookup_key points "input_points" in
      let+ output_pts := lookup_key points "output_points" in
      Ok (loss_data input_pts output_pts)
  | None =>
      let+ input_pts := lookup_key points "input_points" in
      let+ condition := lookup_key (conditions pb) condition_name in
      Ok (loss_phys (requires_grad_ input_pts) condition)
  end.

(** [PINNInterface.training_step] *)
Definition training_step (batch : list (string * dict Pts)) : M solver Q :=
  let* condition_loss := lift (condition_losses batch []) in
  let* _ := _clamp_params in
  let loss := py_sum condition_loss in
  let* _ := record (Log "train_loss" loss) in
  ret loss.

(** [PINNInterface.validation_step] *)
Definition validation_step (batch : list (string * dict Pts)) : M solver unit :=
  let* condition_loss := lift (condition_losses batch []) in
  let loss := py_sum condition_loss in
  let* _ := record (Log "val_loss" loss) in
  ret tt.

End PINNInterface.

(** ** Reference functions for the statements *)

(** What one round of the clamping loop does to the parameters when [v]
    has a range and a value. *)
Definition clamp_round (range_ : dict (Q * Q)) (ps : dict (list Q))
    (v : string) : dict (list Q) :=
  match dict_get range_ v, dict_get ps v with
  | Some (low, high), Some x => dict_set ps v (map (clamp low high) x)
  | _, _ => ps
  end.

(** The entry [a'] is the entry [a] pulled into [[low, high]]. *)
Definition pulled_into (low high a a' : Q) : Prop :=
  (low <= a' <= high)%Q /\
  ((a < low)%Q -> a' = low) /\
  ((high < a)%Q -> a' = high) /\
  ((low <= a <= high)%Q -> a' = a).

(** The value of parameter [v] after clamping by the range of [v]. *)
Definition clamp_value (range_ : dict (Q * Q)) (v : string) (x : list Q)
    : list Q :=
  match dict_get range_ v with
  | Some (low, high) => map (clamp low high) x
  | None => x
  end.

(** A solver whose losses are known in closed form: a data condition
    costs the number stored as its output points, a physics condition
    nothing. *)
Definition toy_training_step (pb : problem unit)
    : list (string * dict Q) -> M solver Q :=
  training_step Q unit (fun p => p) (fun _ out => out) (fun _ _ => 0%Q)
    (fun p => p) pb.

Definition toy_validation_step (pb : problem unit)
    : list (string * dict Q) -> M solver unit :=
  validation_step Q unit (fun p => p) (fun _ out => out) (fun _ _ => 0%Q)
    (fun p => p) pb.

Definition toy_condition_loss_of (pb : problem unit)
    : string * dict Q -> result Q :=
  condition_loss_of Q unit (fun p => p) (fun _ out => out) (fun _ _ => 0%Q)
    (fun p => p) pb.

Definition forward_problem : problem unit :=
  {| conditions := []; inverse_range := None |}.

Definition inverse_problem : problem unit :=
  {| conditions := []; inverse_range := Some [("mu", (0%Q, 1%Q))] |}.

(** Two data conditions with the constant losses 1 and 2. *)
Definition batch_1_2 : list (string * dict Q) :=
  [("first", [("input_points", 0%Q); ("output_points", 1%Q)]);
   ("second", [("input_points", 0%Q); ("output_points", 2%Q)])].

(** Small inputs for the constructors: a graph of one node with one
    feature [q], and an edge index with the single edge 0 -> 0. *)
Definition one_node (q : Q) : pyval :=
  PTensor {| labeled := false; shape := [1%nat; 1%nat]; data := [q] |}.

Definition self_edge : pyval :=
  PTensor {| labeled := false; shape := [2%nat; 1%nat]; data := [0%Q; 0%Q] |}.

Definition empty_state : gstate :=
  {| heap := ∅; self_data := []; out := [] |}.

(** What the expander leaves under a key whose value was [v], for
    [data_len] graphs. *)
Definition expand_value (data_len : nat) (v : pyval) : pyval :=
  match v with
  | PTensor t =>
      if (ndim t =? 3)%nat then PList (map PTensor (tensor_unbind t))
      else if (ndim t =? 2)%nat then PList (replicate data_len v)
      else if (ndim t =? 1)%nat then
        if (hd 0%nat (shape t) =? data_len)%nat
        then PList (map PTensor (tensor_unbind t))
        else PList (replicate data_len v)
      else v
  | _ => v
  end.

Definition expand_entry (data_len : nat) (kv : string * pyval)
    : string * pyval :=
  (fst kv, expand_value data_len (snd kv)).

Definition is_ok {A} (r : result A) : Prop :=
  match r with Ok _ => True | Err _ => False end.

(** The values the expander accepts. *)
Definition tensor_or_list (v : pyval) : bool := is_tensor v || is_list v.

(** The reading of C10 as it is worded: whatever dictionary is passed to
    the constructor, every tensor among its values ends up replaced by a
    list in the caller's own object. *)
Definition every_tensor_value_overwritten : Prop :=
  forall (to_undirected : pyval -> result pyval)
         (x pos edge_index edge_attr : pyval) (build_edge_attr undirected : bool)
         (custom : option (pyval -> pyval -> pyval -> result pyval))
         (r : loc) (d : pydict) (s : gstate),
    heap s !! r = Some d ->
    let s' := fst (Graph_init to_undirected x pos edge_index edge_attr
                     build_edge_attr undirected custom (PDict r) s) in
    forall k t, dict_get d k = Some (PTensor t) ->
                exists l, dict_get (dict_at r s') k = Some (PList l).

(** A tensor of four dimensions, 1×1×1×1. *)
Definition four_dim : tensor :=
  {| labeled := false; shape := [1%nat; 1%nat; 1%nat; 1%nat]; data := [7%Q] |}.

(** The store in which the caller holds one dictionary, at reference 0. *)
Definition caller_state (d : pydict) : gstate :=
  {| heap := {[ 0%nat := d ]}; self_data := []; out := [] |}.

(** A dictionary with a time per graph (1-D, two entries) and a 2-D weight
    shared by the graphs. *)
Definition two_times : tensor :=
  {| labeled := false; shape := [2%nat]; data := [0%Q; 1%Q] |}.

Definition shared_weight : tensor :=
  {| labeled := false; shape := [1%nat; 1%nat]; data := [5%Q] |}.

Definition sample_params : pydict :=
  [("t", PTensor two_times); ("w", PTensor shared_weight)].

(** What [edge_attr] and [build_edge_attr] must be for the constructor not
    to stop in the edge-attribute step, with [L] graphs and nothing to
    build. *)
Definition edge_attr_fits (edge_attr : pyval) (build_edge_attr : bool)
    (L : nat) : Prop :=
  match edge_attr with
  | PNone => build_edge_attr = false
  | PList l => length l = L
  | _ => True
  end.

(** The reading of C8 as it is worded: unequal lengths of the positions
    list and the times list always end in the length-mismatch error. *)
Definition unequal_lengths_always_length_error : Prop :=
  forall (to_undirected : pyval -> result pyval) (x : pyval)
         (lp lt : list pyval) (edge_index edge_attr : pyval)
         (build_edge_attr undirected : bool) (r : option Q) (s : gstate),
    length lp <> length lt ->
    snd (TemporalGraph_init to_undirected x (PList lp) (PList lt) edge_index
           edge_attr build_edge_attr undirected r s)
    = Err (ValueError "pos and times must have the same length.").

(** The state in which [TemporalGraph.__init__] reaches its length check:
    [len(pos)] printed and the dictionary [{'t': t}] created. *)
Definition before_time_check (n : nat) (t : pyval) (s : gstate) : gstate :=
  {| heap := <[fresh (dom (heap s)) := [("t", t)]]> (heap s);
     self_data := self_data s;
     out := out s ++ [Print n] |}.

(** Two rows are the same point when their coordinates are equal as
    rationals. *)
Definition same_point (p q : point) : Prop := Forall2 Qeq p q.

(** The positions are pairwise distinct. *)
Definition pairwise_distinct (points : list point) : Prop :=
  forall i j p q, points !! i = Some p -> points !! j = Some q ->
                  i <> j -> ~ same_point p q.

(** The edges of a 2×E edge index, as (source, destination) pairs. *)
Definition edges_of (rc : list nat * list nat) : list (nat * nat) :=
  zip (fst rc) (snd rc).

(** Three points on a line. *)
Definition line_points : list point := [[0%Q]; [1%Q]; [3%Q]].



(** Two points of the plane, (0, 0) and (3, 4), and the two edges between
    them. *)
Definition two_points : pyval :=
  PTensor {| labeled := false; shape := [2%nat; 2%nat];
             data := [0%Q; 0%Q; 3%Q; 4%Q] |}.

Definition both_ways : pyval :=
  PTensor {| labeled := false; shape := [2%nat; 2%nat];
             data := [0%Q; 1%Q; 1%Q; 0%Q] |}.

(** ** [PINNInterface]: the residual, and the log of residual losses *)

(** An equation's [residual], a callable of two arguments (samples,
    output) or of three (samples, output, unknown parameters).  Called with
    the wrong number of arguments it raises a [TypeError], as every Python
    callable does. *)
Inductive residual_fn (Pts Par Out : Type) : Type :=
| Residual2 (f : Pts -> Pts -> result Out)
| Residual3 (f : Pts -> Pts -> Par -> result Out).
Arguments Residual2 {Pts Par Out} f.
Arguments Residual3 {Pts Par Out} f.

Definition call2 {Pts Par Out} (r : residual_fn Pts Par Out) (a b : Pts)
    : result Out :=
  match r with
  | Residual2 f => f a b
  | Residual3 _ =>
      Err (TypeError "residual() missing 1 required positional argument")
  end.

Definition call3 {Pts Par Out} (r : residual_fn Pts Par Out) (a b : Pts)
    (c : Par) : result Out :=
  match r with
  | Residual2 _ =>
      Err (TypeError "residual() takes 2 positional arguments but 3 were given")
  | Residual3 f => f a b c
  end.

(** [PINNInterface.compute_residual]; [params] is [self._params]. *)
Definition compute_residual {Pts Par Out} (forward : Pts -> Pts) (params : Par)
    (samples : Pts) (equation : residual_fn Pts Par Out) : result Out :=
  match call2 equation samples (forward samples) with
  | Err (TypeError _) => call3 equation samples (forward samples) params
  | residual => residual
  end.

(** The two private attributes the logging methods share, and the calls of
    [self.log(name, value, ..., batch_size=...)] they make. *)
Record logger : Type := mkLogger {
  logged_metric : option string;        (* self.__logged_metric *)
  logged_res_losses : list Q;           (* self.__logged_res_losses *)
  logged : list (string * Q * nat)
}.

(** As [__init__] leaves them. *)
Definition new_logger : logger :=
  {| logged_metric := None; logged_res_losses := []; logged := [] |}.

(** [PINNInterface.store_log]; [batch_size] is
    [self.trainer.data_module.batch_size]. *)
Definition store_log (batch_size : option nat) (loss_value : Q)
    : M logger unit :=
  let batch_size := match batch_size with Some b => b | None => 999%nat end in
  let* metric := gets logged_metric in
  match metric with
  | None =>
      raise (TypeError "unsupported operand type(s) for +: 'NoneType' and 'str'")
  | Some m =>
      modify (fun s =>
        {| logged_metric := logged_metric s;
           logged_res_losses := logged_res_losses s ++ [loss_value];
           logged := logged s ++ [(String.append m "_loss", loss_value,
                                   batch_size)] |})
  end.

(** [sum(l) / len(l)] *)
Definition py_mean (l : list Q) : Q :=
  (py_sum l / inject_Z (Z.of_nat (length l)))%Q.

(** [PINNInterface.save_logs_and_release] *)
Definition save_logs_and_release (batch_size : option nat) : M logger unit :=
  let* losses := gets logged_res_losses in
  match losses with
  | [] => ret tt
  | _ :: _ =>
      let* _ := modify (fun s =>
        {| logged_metric := Some "mean";
           logged_res_losses := logged_res_losses s;
           logged := logged s |}) in
      let* _ := store_log batch_size (py_mean losses) in
      modify (fun s =>
        {| logged_metric := logged_metric s;
           logged_res_losses := [];
           logged := logged s |})
  end.

(** [PINNInterface.current_condition_name] *)
Definition current_condition_name (s : logger) : option string :=
  logged_metric s.

(** A call of one of the two logging methods. *)
Inductive log_call : Type :=
| StoreLog (loss_value : Q)
| SaveLogsAndRelease.

Definition run_log_call (batch_size : option nat) (c : log_call)
    : M logger unit :=
  match c with
  | StoreLog v => store_log batch_size v
  | SaveLogsAndRelease => save_logs_and_release batch_size
  end.

(** The state after a sequence of calls, each made whether or not the one
    before raised. *)
Definition after_log_calls (batch_size : option nat) (cs : list log_call)
    (s : logger) : logger :=
  foldl (fun s c => fst (run_log_call batch_size c s)) s cs.

(** ** [class AbstractProblem]

    A condition of the problem is a [DomainEquationCondition] (a domain and
    an equation) or some other condition.  [sample] is the [sample] method
    of a domain, an outside collaborator; what it draws is not modelled,
    only that it returns points or raises. *)

Inductive vars_arg : Type :=
| VStr (s : string)
| VList (l : list string).

Inductive domains_arg : Type :=
| DStr (s : string)
| DList (l : list string).

Inductive problem_event : Type :=
| PrintNames (l : list string)      (* print(domains) *)
| PrintDomains (l : list string).   (* print(self.domains) *)

Section AbstractProblem.

Variables Domain Equation Other Points : Type.
Variable sample : Domain -> nat -> string -> vars_arg -> result Points.

(** The four [check_consistency] calls on the arguments of
    [discretise_domain] ([pina.utils], an outside collaborator); [n] and
    [mode] have their types here, so the checks bear on [variables] and
    [domains]. *)
Variable check_consistency : vars_arg -> domains_arg -> result unit.

Inductive condition : Type :=
| DomainEquationCondition (domain : Domain) (equation : Equation)
| OtherCondition (c : Other).

(** The attributes a problem instance carries.  The three lists of
    variables are class attributes a subclass may or may not declare. *)
Record abstract_problem : Type := mkAbstractProblem {
  p_conditions : dict condition;
  domains : dict Domain;
  discretised_domains : gmap string Points;
  _batching_dimension : nat;
  spatial_variables : option (list string);
  temporal_variable : option (list string);
  parameters : option (list string);
  printed : list problem_event
}.

(** [{k: v.domain for k, v in conditions.items()
      if isinstance(v, DomainEquationCondition)}] *)
Fixpoint domains_of (conditions : dict condition) : dict Domain :=
  match conditions with
  | [] => []
  | (k, DomainEquationCondition d _) :: cs => (k, d) :: domains_of cs
  | (k, OtherCondition _) :: cs => domains_of cs
  end.

(** [AbstractProblem.__init__]; [domains_attr] is the class attribute
    [domains] when the subclass declares one.  A domain-equation condition
    is rebuilt from its own domain and equation, which leaves it the same
    value. *)
Definition AbstractProblem_init (conditions : dict condition)
    (domains_attr : option (dict Domain))
    (spatial temporal params : option (list string)) : abstract_problem :=
  {| p_conditions := conditions;
     domains := match domains_attr with
                | Some d => d
                | None => domains_of conditions
                end;
     discretised_domains := ∅;
     _batching_dimension := 0;
     spatial_variables := spatial;
     temporal_variable := temporal;
     parameters := params;
     printed := [] |}.

(** [AbstractProblem.input_variables] *)
Definition input_variables (pb : abstract_problem) : list string :=
  default [] (spatial_variables pb) ++ default [] (temporal_variable pb)
  ++ default [] (parameters pb).

(** [AbstractProblem.are_all_domains_discretised] *)
Definition are_all_domains_discretised (pb : abstract_problem) : bool :=
  forallb (fun domain => bool_decide (is_Some (discretised_domains pb !! domain)))
    (keys (domains pb)).

Definition set_discretised (m : gmap string Points) (pb : abstract_problem)
    : abstract_problem :=
  {| p_conditions := p_conditions pb; domains := domains pb;
     discretised_domains := m;
     _batching_dimension := _batching_dimension pb;
     spatial_variables := spatial_variables pb;
     temporal_variable := temporal_variable pb;
     parameters := parameters pb; printed := printed pb |}.

Definition print_problem (e : problem_event) : M abstract_problem unit :=
  modify (fun pb =>
    {| p_conditions := p_conditions pb; domains := domains pb;
       discretised_domains := discretised_domains pb;
       _batching_dimension := _batching_dimension pb;
       spatial_variables := spatial_variables pb;
       temporal_variable := temporal_variable pb;
       parameters := parameters pb; printed := printed pb ++ [e] |}).

(** One round of the sampling loop:
    [self.discretised_domains[domain] = self.domains[domain].sample(...)]. *)
Definition discretise_one (n : nat) (mode : string) (variables : vars_arg)
    (domain : string) : M abstract_problem unit :=
  let* ds := gets domains in
  match dict_get ds domain with
  | None => raise (KeyError domain)
  | Some d =>
      let* pts := lift (sample d n mode variables) in
      modify (fun pb =>
        set_discretised (<[domain := pts]> (discretised_domains pb)) pb)
  end.

(** [if variables == "all": variables = self.input_variables] *)
Definition resolve_variables (pb : abstract_problem) (variables : vars_arg)
    : vars_arg :=
  match variables with
  | VStr s => if String.eqb s "all" then VList (input_variables pb)
              else variables
  | VList _ => variables
  end.

(** [if domains == "all": domains = self.domains.keys()
     elif not isinstance(domains, (list)): domains = [domains]] *)
Definition resolve_domains (pb : abstract_problem) (domains_ : domains_arg)
    : list string :=
  match domains_ with
  | DStr s => if String.eqb s "all" then keys (domains pb) else [s]
  | DList l => l
  end.

(** [AbstractProblem.discretise_domain].  The loop over [variables] builds
    a [TypeError] for a name that is no input variable but never raises
    it, so it has no effect and leaves nothing here. *)
Definition discretise_domain (n : nat) (mode : string) (variables : vars_arg)
    (domains_ : domains_arg) : M abstract_problem unit :=
  let* _ := lift (check_consistency variables domains_) in
  let* variables := gets (fun pb => resolve_variables pb variables) in
  let* names := gets (fun pb => resolve_domains pb domains_) in
  let* _ := print_problem (PrintNames names) in
  let* ds := gets domains in
  let* _ := print_problem (PrintDomains (keys ds)) in
  for_each names (discretise_one n mode variables).

(** The domain named [k] is known to the problem and its sampling
    returns. *)
Definition can_sample (pb : abstract_problem) (n : nat) (mode : string)
    (variables : vars_arg) (k : string) : Prop :=
  exists d pts, dict_get (domains pb) k = Some d /\
                sample d n mode variables = Ok pts.

End AbstractProblem.

Arguments can_sample {Domain Equation Other Points} _ _ _ _ _ _.
Arguments domains {Domain Equation Other Points} _.
Arguments discretised_domains {Domain Equation Other Points} _.
Arguments printed {Domain Equation Other Points} _.
Arguments p_conditions {Domain Equation Other Points} _.
Arguments domains_of {Domain Equation Other} _.
Arguments AbstractProblem_init {Domain Equation Other} Points _ _ _ _ _.
Arguments input_variables {Domain Equation Other Points} _.
Arguments are_all_domains_discretised {Domain Equation Other Points} _.
Arguments set_discretised {Domain Equation Other Points} _ _.
Arguments resolve_variables {Domain Equation Other Points} _ _.
Arguments resolve_domains {Domain Equation Other Points} _ _.
Arguments discretise_one {Domain Equation Other Points} _ _ _ _ _.
Arguments discretise_domain {Domain Equation Other Points} _ _ _ _ _ _.

(** ** Reference functions for the further properties *)

(** [{k: v[i] for k, v in additional_params.items()}] *)
Definition params_at (d : pydict) (i : nat) : result pydict :=
  map_result (fun kv => let+ vi := py_getitem (snd kv) i in Ok (fst kv, vi)) d.

(** The record the assembling loop builds at index [i], from the
    additional parameters [d] and the resolved edge attribute. *)
Definition record_at (d : pydict) (edge_attr : pyval) (i : nat)
    (item : pyval * pyval * pyval) : result Data :=
  let+ add_params_local := params_at d i in
  let+ ea := edge_attr_item edge_attr i in
  new_Data (unwrap_label item.1.1) item.1.2 item.2 ea add_params_local.

(** The records the loop appends from index [i] on, and how it ends. *)
Fixpoint graph_records (d : pydict) (edge_attr : pyval) (i : nat)
    (l : list (pyval * pyval * pyval)) : list Data * result unit :=
  match l with
  | [] => ([], Ok tt)
  | item :: l' =>
      match record_at d edge_attr i item with
      | Err e => ([], Err e)
      | Ok rec => let '(recs, r) := graph_records d edge_attr (S i) l' in
                  (rec :: recs, r)
      end
  end.

(** The [edge_attr] keyword of the records when [edge_attr] is given. *)
Definition given_edge_attr (edge_attr : pyval) : option pyval :=
  match edge_attr with PNone => None | _ => Some edge_attr end.

(** The record of a graph built without additional parameters. *)
Definition plain_record (ea : option pyval) (item : pyval * pyval * pyval)
    : Data :=
  mkData (unwrap_label item.1.1) item.1.2 item.2 ea [].

(** A tensor holds as many entries as its shape says. *)
Definition well_formed (t : tensor) : Prop := length (data t) = numel (shape t).

(** A stack of two graphs of one node each: features, positions and edge
    indices as 3-D tensors. *)
Definition stacked_nodes (a b : Q) : tensor :=
  {| labeled := false; shape := [2%nat; 1%nat; 1%nat]; data := [a; b] |}.

Definition stacked_edges : tensor :=
  {| labeled := false; shape := [2%nat; 2%nat; 1%nat];
     data := [0%Q; 0%Q; 0%Q; 0%Q] |}.

(** A dictionary of additional parameters whose second value is not a
    tensor or a list. *)
Definition half_good_params : pydict :=
  [("a", PTensor {| labeled := false; shape := [1%nat; 1%nat];
                    data := [1%Q] |});
   ("b", PInt 0);
   ("c", PTensor {| labeled := false; shape := [1%nat; 1%nat];
                    data := [2%Q] |})].

Definition state_with (r : loc) (d : pydict) : gstate :=
  {| heap := {[ r := d ]}; self_data := []; out := [] |}.

(** The record of graph [i] built with the one additional parameter [k]:
    [it] is the triple of the graph with the value of [k] at [i]. *)
Definition keyed_record (k : string) (it : pyval * pyval * pyval * pyval)
    : Data :=
  mkData (unwrap_label it.1.1.1) it.1.1.2 it.1.2 None [(k, it.2)].

(** How the assembling loop ends on [n] graphs when a list parameter has
    [m] items. *)
Definition ends_after (n m : nat) : result unit :=
  if (n <=? m)%nat then Ok tt else Err (IndexError "index out of range").

(** The coordinate-wise distance between the two ends of an edge, read in
    the point tensor [p]. *)
Definition edge_difference (p : tensor) (e : nat * nat) : list Q :=
  zip_with (fun a b => Qabs (a - b)) (data (tslice p e.1)) (data (tslice p e.2)).

(** A problem with one domain, sampled as [n] copies of its number, and
    one condition of another kind; every argument passes the checks. *)
Definition toy_sample (d n : nat) (mode : string) (variables : vars_arg)
    : result (list nat) := Ok (replicate n d).

Definition toy_check (variables : vars_arg) (domains_ : domains_arg)
    : result unit := Ok tt.

Definition toy_problem : abstract_problem nat unit unit (list nat) :=
  AbstractProblem_init (list nat)
    [("D", DomainEquationCondition nat unit unit 1%nat tt);
     ("data", OtherCondition nat unit unit tt)]
    None None None None.

(** The record of a graph with its own edge attribute: [it] is the triple
    of the graph with the attribute built for it. *)
Definition attr_record (it : pyval * pyval * pyval * pyval) : Data :=
  mkData (unwrap_label it.1.1.1) it.1.1.2 it.1.2 (Some it.2) [].

(** ** Single precision

    The tensors of the solver and of the graph builders hold IEEE 754
    binary32 numbers, and [torch] computes on them with rounding.  Where a
    claim depends on the numbers computed, the functions are embedded
    again in this module over [spec_float], the Standard Library's
    specification of IEEE arithmetic, at precision 24 and exponent bound
    128; a Python [float] is a binary64 number, cast to binary32 when it
    meets a tensor.  [SFcompare] is the order of the numbers on the
    canonical representations the operations return. *)

Module F32.

Definition f32 : Type := spec_float.

Definition add : f32 -> f32 -> f32 := SFadd 24 128.
Definition sub : f32 -> f32 -> f32 := SFsub 24 128.
Definition mul : f32 -> f32 -> f32 := SFmul 24 128.
Definition sqrt : f32 -> f32 := SFsqrt 24 128.
Definition lt : f32 -> f32 -> bool := SFltb.
Definition le : f32 -> f32 -> bool := SFleb.

Definition zero : f32 := S754_zero false.

Definition is_nan (a : f32) : bool :=
  match a with S754_nan => true | _ => false end.

(** A Python [float] cast to the type of a single-precision tensor. *)
Definition of_float (x : spec_float) : f32 :=
  match x with
  | S754_finite s m e => binary_round 24 128 s m e
  | _ => x
  end.

(** The number a finite float stands for. *)
Definition value (x : spec_float) : option Q :=
  match x with
  | S754_zero _ => Some 0%Q
  | S754_finite s m e =>
      Some ((if s then -1 else 1) * inject_Z (Zpos m) * 2 ^ e)%Q
  | _ => None
  end.

(** [std::max(a, b)] and [std::min(a, b)], as the element-wise kernels
    take them: a NaN in the first place stays. *)
Definition max (a b : f32) : f32 := if lt a b then b else a.
Definition min (a b : f32) : f32 := if lt b a then b else a.

(** [x.clamp_(low, high)] on the entries of a single-precision tensor,
    with Python floats [low] and [high]. *)
Definition clamp (low high : spec_float) (a : f32) : f32 :=
  min (max a (of_float low)) (of_float high).

(** [self._params[v].data.clamp_(low, high)]; the state is the dictionary
    [self._params] of an inverse problem. *)
Definition clamp_param (v : string) (low high : spec_float)
    : M (dict (list f32)) unit :=
  fun ps => match dict_get ps v with
            | None => (ps, Err (KeyError v))
            | Some x => (dict_set ps v (map (clamp low high) x), Ok tt)
            end.

(** [PINNInterface._clamp_inverse_problem_params] *)
Definition _clamp_inverse_problem_params
    (range_ : dict (spec_float * spec_float)) : M (dict (list f32)) unit :=
  let* ps := gets id in
  for_each (keys ps) (fun v =>
    match dict_get range_ v with
    | None => raise (KeyError v)
    | Some (low, high) => clamp_param v low high
    end).

(** What one round of the clamping loop does to the parameters. *)
Definition clamp_round (range_ : dict (spec_float * spec_float))
    (ps : dict (list f32)) (v : string) : dict (list f32) :=
  match dict_get range_ v, dict_get ps v with
  | Some (low, high), Some x => dict_set ps v (map (clamp low high) x)
  | _, _ => ps
  end.

(** The value of parameter [v] after clamping by the range of [v]. *)
Definition clamp_value (range_ : dict (spec_float * spec_float)) (v : string)
    (x : list f32) : list f32 :=
  match dict_get range_ v with
  | Some (low, high) => map (clamp low high) x
  | None => x
  end.

(** The entry [a'] is the entry [a] pulled between [lo] and [hi]; a NaN
    is left as it is. *)
Definition pulled_into (lo hi a a' : f32) : Prop :=
  (is_nan a = true -> a' = a) /\
  (is_nan a = false ->
     le lo a' = true /\ le a' hi = true /\
     (lt a lo = true -> a' = lo) /\
     (lt hi a = true -> a' = hi) /\
     (le lo a = true -> le a hi = true -> a' = a)).

(** The number [a] lies in the closed range a Python program declares
    with the floats [low] and [high]. *)
Definition in_declared_range (low high : spec_float) (a : f32) : Prop :=
  exists q ql qh,
    value a = Some q /\ value low = Some ql /\ value high = Some qh /\
    (ql <= q <= qh)%Q.

(** The reading of C9 as it is worded: after one call every entry of
    every parameter lies in its declared range [low <= high]. *)
Definition clamped_into_declared_range : Prop :=
  forall (range_ : dict (spec_float * spec_float)) (ps : dict (list f32))
         (v : string) (low high : spec_float) (x' : list f32),
    dict_get range_ v = Some (low, high) ->
    in_declared_range low high low ->
    dict_get (fst (_clamp_inverse_problem_params range_ ps)) v = Some x' ->
    Forall (in_declared_range low high) x'.

(** The Python floats [0.0], [0.1] and [1.0], and the single-precision
    numbers [0.5] and [5.0]. *)
Definition float_0 : spec_float := S754_zero false.
Definition float_0_1 : spec_float :=
  S754_finite false 7205759403792794 (-56).
Definition float_1 : spec_float := S754_finite false 4503599627370496 (-52).
Definition half : f32 := S754_finite false 8388608 (-24).
Definition five : f32 := S754_finite false 10485760 (-21).

(** *** Distances

    [torch.cdist(x1, x2, p=2)] on single-precision points.  With at most
    25 rows on either side the kernel takes, pair by pair, the square root
    of the sum of the squared differences, added coordinate by
    coordinate.  With more rows it goes through a matrix product,
    [|x|^2 + |y|^2 - 2 x.y], clamped at zero before the square root; the
    sums are taken here from left to right. *)

Definition fpoint : Type := list f32.

Definition of_Z (z : Z) : f32 := binary_normalize 24 128 z 0 false.

Definition one : f32 := of_Z 1.
Definition minus_two : f32 := of_Z (-2).

Definition dist_direct (p q : fpoint) : f32 :=
  sqrt (foldl add zero
          (zip_with (fun a b => let d := SFabs (sub a b) in mul d d) p q)).

(** [x.pow(2).sum(-1)] *)
Definition norm2 (p : fpoint) : f32 :=
  foldl add zero (map (fun a => mul a a) p).

(** One entry of a matrix product. *)
Definition dot (u v : list f32) : f32 := foldl add zero (zip_with mul u v).

Definition dist_mm (p q : fpoint) : f32 :=
  sqrt (max (dot (map (mul minus_two) p ++ [norm2 p; one])
                 (q ++ [one; norm2 q])) zero).

Definition dist_at (n1 n2 : nat) : fpoint -> fpoint -> f32 :=
  if (25 <? n1)%nat || (25 <? n2)%nat then dist_mm else dist_direct.

Definition cdist (x1 x2 : list fpoint) : list (list f32) :=
  map (fun p => map (dist_at (length x1) (length x2) p) x2) x1.

(** [RadiusGraph._radius_graph]; [r] is a Python float, cast to single
    precision by [dist <= r]. *)
Definition _radius_graph (points : list fpoint) (r : spec_float)
    : list nat * list nat :=
  let dist := cdist points points in
  transpose_pairs (nonzero (map (map (fun d => le d (of_float r))) dist)).

(** Zeros and finite numbers, as opposed to infinities and NaN. *)
Definition is_finite (a : f32) : bool :=
  match a with
  | S754_zero _ | S754_finite _ _ _ => true
  | _ => false
  end.

(** Two rows hold the same numbers. *)
Definition same_position (p q : fpoint) : Prop :=
  Forall2 (fun a b => exists x y, value a = Some x /\ value b = Some y /\
                                  (x == y)%Q) p q.

Definition pairwise_distinct (points : list fpoint) : Prop :=
  forall i j p q, points !! i = Some p -> points !! j = Some q ->
                  i <> j -> ~ same_position p q.

(** The reading of C7 as it is worded, for radius 0: on pairwise
    distinct points the edge index is exactly the self-loops. *)
Definition radius_zero_gives_self_loops_only : Prop :=
  forall points : list fpoint,
    pairwise_distinct points ->
    _radius_graph points float_0
    = (seq 0 (length points), seq 0 (length points)).

(** The number [2^-100], and two points of a line: 0 and [2^-100]. *)
Definition tiny : f32 := S754_finite false 8388608 (-123).

Definition near_points : list fpoint := [[zero]; [tiny]].

(** Twenty-six points of a line: 0, 1, ..., 23, 4096 and 4097. *)
Definition far_points : list fpoint :=
  map (fun z => [of_Z z]) (map Z.of_nat (seq 0 24) ++ [4096; 4097]%Z).

End F32.

(** * Properties *)

(** ** Running a bind *)

Lemma bind_Ok {S A B} (c : M S A) (k : A -> M S B) s s' a :
  c s = (s', Ok a) -> bind c k s = k a s'.
Proof. unfold bind. by intros ->. Qed.

Lemma bind_Err {S A B} (c : M S A) (k : A -> M S B) s s' e :
  c s = (s', Err e) -> bind c k s = (s', Err e).
Proof. unfold bind. by intros ->. Qed.

(** ** Dictionaries *)

Section DictFacts.

Context {V : Type}.
Implicit Types (d : dict V) (k : string) (v : V).

Lemma dict_get_set_eq d k v : dict_get (dict_set d k v) k = Some v.
Proof.
  induction d as [|[k' v'] d IH]; simpl.
  - by rewrite String.eqb_refl.
  - destruct (String.eqb k k') eqn:E; simpl; rewrite E; [done | exact IH].
Qed.

Lemma dict_get_set_ne d k k' v :
  k ≠ k' -> dict_get (dict_set d k v) k' = dict_get d k'.
Proof.
  intros Hne. induction d as [|[k0 v0] d IH]; simpl.
  - destruct (String.eqb k' k) eqn:E; [|done].
    apply String.eqb_eq in E. congruence.
  - destruct (String.eqb k k0) eqn:E; simpl.
    + apply String.eqb_eq in E. subst k0.
      destruct (String.eqb k' k) eqn:E'; [|done].
      apply String.eqb_eq in E'. congruence.
    + by rewrite IH.
Qed.

Lemma dict_set_same d k v : dict_get d k = Some v -> dict_set d k v = d.
Proof.
  induction d as [|[k' v'] d IH]; simpl; [done|].
  destruct (String.eqb k k') eqn:E.
  - by intros [= ->].
  - intros H. by rewrite IH.
Qed.

Lemma keys_dict_set d k v :
  is_Some (dict_get d k) -> keys (dict_set d k v) = keys d.
Proof.
  induction d as [|[k' v'] d IH]; simpl.
  - by intros [? ?].
  - destruct (String.eqb k k') eqn:E; [done|].
    intros H. unfold keys in *. simpl. f_equal. by apply IH.
Qed.

Lemma dict_get_Some_keys d k v : dict_get d k = Some v -> k ∈ keys d.
Proof.
  induction d as [|[k' v'] d IH]; simpl; [done|].
  destruct (String.eqb k k') eqn:E.
  - apply String.eqb_eq in E. subst. intros _. left.
  - intros H. right. by apply IH.
Qed.

Lemma dict_get_keys d k : k ∈ keys d -> is_Some (dict_get d k).
Proof.
  induction d as [|[k' v'] d IH]; simpl.
  - by intros ?%elem_of_nil.
  - intros H. destruct (String.eqb k k') eqn:E; [by eexists|].
    apply elem_of_cons in H as [->|H]; [|by apply IH].
    by rewrite String.eqb_refl in E.
Qed.

(** Overwriting the value of every key in turn is a map over the
    entries. *)
Lemma dict_get_map (f : string -> V -> V) d k :
  dict_get (map (fun kv => (fst kv, f (fst kv) (snd kv))) d) k
  = f k <$> dict_get d k.
Proof.
  induction d as [|[k' v'] d IH]; simpl; [done|].
  destruct (String.eqb k k') eqn:E; [|exact IH].
  apply String.eqb_eq in E. by subst.
Qed.

End DictFacts.

(** ** Clamping *)

(** Case analysis on every comparison of rationals in the goal, innermost
    first. *)
Ltac compare_cases :=
  repeat match goal with
         | |- context [Qcompare ?a ?b] =>
             lazymatch a with context [Qcompare _ _] => fail | _ => idtac end;
             lazymatch b with context [Qcompare _ _] => fail | _ => idtac end;
             destruct (Qcompare_spec a b)
         end.


Lemma clamp_idem low high a :
  clamp low high (clamp low high a) = clamp low high a.
Proof.
  unfold clamp, Qmin, Qmax, GenericMinMax.gmin, GenericMinMax.gmax.
  compare_cases; try reflexivity; lra.
Qed.

Section ClampLoop.

Variable range_ : dict (Q * Q).

Let body (v : string) : M solver unit :=
  match dict_get range_ v with
  | None => raise (KeyError v)
  | Some (low, high) => clamp_param v low high
  end.

Lemma clamp_round_keys ps v : keys (clamp_round range_ ps v) = keys ps.
Proof.
  unfold clamp_round.
  destruct (dict_get range_ v) as [[low high]|]; [|done].
  destruct (dict_get ps v) eqn:E; [|done].
  apply keys_dict_set. by rewrite E.
Qed.

Lemma clamp_rounds_keys todo ps :
  keys (foldl (clamp_round range_) ps todo) = keys ps.
Proof.
  revert ps. induction todo as [|v todo IH]; intros ps; simpl; [done|].
  by rewrite IH, clamp_round_keys.
Qed.

(** The loop succeeds when every key it meets has a range and a value,
    and then it has run [clamp_round] key by key. *)
Lemma clamp_loop_runs todo ps tr :
  (forall v, v ∈ todo -> is_Some (dict_get range_ v) /\ v ∈ keys ps) ->
  for_each todo body (mkSolver (Some ps) tr)
  = (mkSolver (Some (foldl (clamp_round range_) ps todo)) tr, Ok tt).
Proof.
  revert ps. induction todo as [|v todo IH]; intros ps Hall; simpl; [done|].
  destruct (Hall v) as [[[low high] Hr] Hk]; [left|].
  apply dict_get_keys in Hk as [x Hx].
  unfold bind, body at 1. rewrite Hr. unfold clamp_param; simpl.
  rewrite Hx. unfold set_params; simpl.
  replace (dict_set ps v (map (clamp low high) x))
    with (clamp_round range_ ps v)
    by (unfold clamp_round; by rewrite Hr, Hx).
  apply IH. intros w Hw. destruct (Hall w) as [? ?]; [by right|].
  split; [done|]. by rewrite clamp_round_keys.
Qed.

Lemma dict_get_clamp_round ps v w :
  dict_get (clamp_round range_ ps v) w
  = (if bool_decide (v = w) then clamp_value range_ w else id)
      <$> dict_get ps w.
Proof.
  unfold clamp_round, clamp_value. case_bool_decide as E.
  - subst w. destruct (dict_get range_ v) as [[low high]|];
      [|by destruct (dict_get ps v)].
    destruct (dict_get ps v) eqn:Hx; simpl; [|by rewrite Hx].
    by rewrite dict_get_set_eq.
  - rewrite option_fmap_id.
    destruct (dict_get range_ v) as [[low high]|]; [|done].
    destruct (dict_get ps v); [|done].
    by apply dict_get_set_ne.
Qed.

Lemma clamp_value_idem v (x : list Q) :
  clamp_value range_ v (clamp_value range_ v x) = clamp_value range_ v x.
Proof.
  unfold clamp_value. destruct (dict_get range_ v) as [[low high]|]; [|done].
  induction x as [|a x IH]; simpl; [done|]. by rewrite clamp_idem, IH.
Qed.

(** After the loop, a key the loop met holds its value clamped, every
    other key its old value. *)
Lemma dict_get_clamp_rounds todo ps w :
  dict_get (foldl (clamp_round range_) ps todo) w
  = (if bool_decide (w ∈ todo) then clamp_value range_ w else id)
      <$> dict_get ps w.
Proof.
  revert ps. induction todo as [|v todo IH]; intros ps.
  - rewrite bool_decide_eq_false_2 by apply not_elem_of_nil.
    simpl. by rewrite option_fmap_id.
  - simpl foldl. rewrite IH, dict_get_clamp_round.
    destruct (dict_get ps w) as [x|]; simpl; [|done]. f_equal.
    destruct (decide (v = w)) as [->|Hne].
    + rewrite (bool_decide_eq_true_2 (w = w)) by done.
      rewrite (bool_decide_eq_true_2 (w ∈ w :: todo)) by left.
      destruct (bool_decide (w ∈ todo)); simpl;
        [apply clamp_value_idem | done].
    + rewrite (bool_decide_eq_false_2 (v = w)) by done. simpl.
      rewrite (bool_decide_ext (w ∈ v :: todo) (w ∈ todo)); [done|].
      rewrite elem_of_cons.
      split; [intros [?|?]; [congruence|done] | by right].
Qed.


End ClampLoop.



(** ** The step functions *)

Section StepFacts.

Variables Pts Equation : Type.
Variable forward : Pts -> Pts.
Variable _loss : Pts -> Pts -> Q.
Variable loss_phys : Pts -> Equation -> Q.
Variable requires_grad_ : Pts -> Pts.
Variable pb : problem Equation.

Let losses := condition_losses Pts Equation forward _loss loss_phys
                requires_grad_ pb.
Let loss_of := condition_loss_of Pts Equation forward _loss loss_phys
                 requires_grad_ pb.

(** The list the loop builds holds every computed loss twice in a row. *)
Lemma condition_losses_twice batch acc :
  losses batch acc
  = let+ ls := map_result loss_of batch in
    Ok (acc ++ flat_map (fun l => [l; l]) ls).
Proof.
  revert acc. induction batch as [|[name points] batch IH]; intros acc.
  - simpl. by rewrite app_nil_r.
  - unfold losses, loss_of in *. cbn [condition_losses map_result].
    unfold condition_loss_of at 1.
    destruct (dict_get points "output_points") as [o|].
    + destruct (lookup_key points "input_points") as [i|]; [|done].
      destruct (lookup_key points "output_points") as [o'|]; [|done].
      cbn [Rbind]. rewrite IH.
      destruct (map_result _ batch); [|done].
      cbn [Rbind flat_map]. by rewrite <- !app_assoc.
    + destruct (lookup_key points "input_points") as [i|]; [|done].
      destruct (lookup_key (conditions Equation pb) name) as [c|]; [|done].
      cbn [Rbind]. rewrite IH.
      destruct (map_result _ batch); [|done].
      cbn [Rbind flat_map]. by rewrite <- !app_assoc.
Qed.

Lemma py_sum_from (a : Q) (l : list Q) :
  (foldl Qplus a l == a + py_sum l)%Q.
Proof.
  unfold py_sum. revert a. induction l as [|x l IH]; intros a; simpl.
  - lra.
  - rewrite (IH (a + x)%Q), (IH (0 + x)%Q). lra.
Qed.

Lemma py_sum_twice (ls : list Q) :
  (py_sum (flat_map (fun l => [l; l]) ls) == 2 * py_sum ls)%Q.
Proof.
  induction ls as [|x ls IH]; [reflexivity|].
  unfold py_sum in *. simpl.
  rewrite (py_sum_from (0 + x + x)%Q), (py_sum_from (0 + x)%Q).
  unfold py_sum. rewrite IH. lra.
Qed.

(** The total a training step returns is twice the sum of the losses of
    its conditions. *)
Lemma training_step_total batch s s' loss :
  training_step Pts Equation forward _loss loss_phys requires_grad_ pb
    batch s = (s', Ok loss) ->
  exists ls, map_result loss_of batch = Ok ls /\
             (loss == 2 * py_sum ls)%Q.
Proof.
  unfold training_step, bind, lift.
  fold losses. rewrite condition_losses_twice.
  destruct (map_result loss_of batch) as [ls|]; [|done]. cbn [Rbind].
  destruct (_clamp_params Equation pb s) as [s1 [[]|]]; [|done].
  unfold record, modify, ret. intros [= _ <-].
  exists ls. split; [done|]. simpl. apply py_sum_twice.
Qed.

(** A training step that succeeds calls the clamping routine once, then
    logs its loss. *)
Lemma training_step_clamps_then_logs batch s s' loss :
  training_step Pts Equation forward _loss loss_phys requires_grad_ pb
    batch s = (s', Ok loss) ->
  trace s' = trace s ++ [ClampCall; Log "train_loss" loss].
Proof.
  unfold training_step, bind, lift.
  destruct (condition_losses _ _ _ _ _ _ _ batch []) as [ls|]; [|done].
  unfold _clamp_params, bind, record, modify.
  destruct (inverse_range Equation pb) as [range_|].
  - unfold _clamp_inverse_problem_params, bind, gets. cbn [_params].
    destruct (_params s) as [ps|]; [|done].
    set (s1 := {| _params := Some ps; trace := trace s ++ [ClampCall] |}).
    assert (Hloop : forall todo (s1 s2 : solver) r,
      for_each todo (fun v => match dict_get range_ v with
                              | Some (low, high) => clamp_param v low high
                              | None => raise (KeyError v)
                              end) s1 = (s2, r) -> trace s2 = trace s1).
    { clear. induction todo as [|v todo IH]; intros s1 s2 r; simpl.
      - by intros [= <- _].
      - unfold bind.
        destruct (dict_get range_ v) as [[low high]|];
          [|by intros [= <- _]].
        unfold clamp_param.
        destruct (_params s1) as [ps|]; [|by intros [= <- _]].
        destruct (dict_get ps v); [|by intros [= <- _]].
        intros H. by apply IH in H. }
    destruct (for_each _ _ s1) as [s2 [[]|]] eqn:E; [|done].
    apply Hloop in E. unfold ret. intros [= <- <-]. simpl.
    rewrite E. simpl. by rewrite <- app_assoc.
  - unfold ret. intros [= <- <-]. simpl. by rewrite <- app_assoc.
Qed.

(** A validation step never calls the clamping routine: the parameters
    are what they were, and the only thing it can add to the trace is
    its log entry. *)
Lemma validation_step_never_clamps batch s :
  let s' := fst (validation_step Pts Equation forward _loss loss_phys
                   requires_grad_ pb batch s) in
  _params s' = _params s /\
  (trace s' = trace s \/ exists loss, trace s' = trace s ++ [Log "val_loss" loss]).
Proof.
  unfold validation_step, bind, lift.
  destruct (condition_losses _ _ _ _ _ _ _ batch []) as [ls|]; simpl.
  - split; [done|]. right. by eexists.
  - split; [done|]. by left.
Qed.

End StepFacts.

(** C1.  On the batch of two conditions with the constant losses 1 and 2
    the training step returns 6, not their sum 3: the loop appends the loss
    of a condition inside the branch and once more after it. *)
Theorem training_step_counts_each_loss_twice :
  toy_training_step forward_problem batch_1_2 (mkSolver None [])
    = (mkSolver None [ClampCall; Log "train_loss" 6%Q], Ok 6%Q)
  /\ map_result (toy_condition_loss_of forward_problem) batch_1_2
     = Ok [1%Q; 2%Q]
  /\ ~ (6 == 1 + 2)%Q.
Proof. split; [reflexivity|]. split; [reflexivity|]. discriminate. Qed.

(** C2.  On an inverse problem whose parameter [mu] = 5 lies outside its
    range [[0, 1]], the validation step logs its loss without calling the
    clamping routine and leaves [mu] at 5; the training step on the same
    input calls it before logging and leaves [mu] at 1. *)
Theorem validation_step_skips_clamping :
  toy_validation_step inverse_problem batch_1_2
    (mkSolver (Some [("mu", [5%Q])]) [])
    = (mkSolver (Some [("mu", [5%Q])]) [Log "val_loss" 6%Q], Ok tt)
  /\ toy_training_step inverse_problem batch_1_2
       (mkSolver (Some [("mu", [5%Q])]) [])
     = (mkSolver (Some [("mu", [1%Q])]) [ClampCall; Log "train_loss" 6%Q],
        Ok 6%Q).
Proof. split; reflexivity. Qed.

(** ** The constructor of [Graph] *)

(** Whatever [edge_attr] is given, the resolved value is that object
    [data_len] times over, a list as much as a single tensor. *)
Lemma edge_attr_given_is_replicated build edge_attr bea data_len ei pos x s s' v :
  edge_attr <> PNone ->
  _check_and_build_edge_attr build edge_attr bea data_len ei pos x s
    = (s', Ok v) ->
  v = PList (replicate data_len edge_attr).
Proof.
  intros Hne. unfold _check_and_build_edge_attr, bind.
  destruct edge_attr as [| | | |l| |]; try done;
    destruct bea; simpl; try (by intros [= _ <-]);
    destruct (negb (length l =? data_len)%nat); simpl; try done;
    by intros [= _ <-].
Qed.

(** A list [edge_attr] of the wrong length is refused. *)
Lemma edge_attr_list_length_checked build l bea data_len ei pos x s :
  length l <> data_len ->
  snd (_check_and_build_edge_attr build (PList l) bea data_len ei pos x s)
  = Err (ValueError "edge_attr must have the same length as x and pos.").
Proof.
  intros Hne. unfold _check_and_build_edge_attr, bind.
  apply Nat.eqb_neq in Hne. destruct bea; simpl; by rewrite Hne.
Qed.

(** C3.  Two graphs built with the list [edge_attr = [a0, a1]]: the list has
    the right length and is accepted, but each record receives the whole
    list, not its own tensor. *)
Theorem edge_attr_list_is_replicated_whole (to_undirected : pyval -> result pyval) :
  let a0 := one_node 10 in
  let a1 := one_node 20 in
  let '(s', r) :=
    Graph_init to_undirected
      (PList [one_node 1; one_node 2]) (PList [one_node 3; one_node 4])
      (PList [self_edge; self_edge]) (PList [a0; a1])
      false false None PNone empty_state in
  r = Ok tt /\
  map d_edge_attr (self_data s')
  = [Some (PList [a0; a1]); Some (PList [a0; a1])] /\
  map d_edge_attr (self_data s') <> [Some a0; Some a1].
Proof. vm_compute. split; [done|]. split; [done|]. discriminate. Qed.

(** The [if]/[elif] chain raises exactly when neither [x] nor [pos] is a
    list and they are not both tensors. *)
Lemma prepare_lists_type_error x pos ei data_len :
  prepare_lists x pos ei data_len
    = Err (TypeError "x and pos must be lists or tensors.")
  <-> is_list x = false /\ is_list pos = false /\
      (is_tensor x && is_tensor pos = false).
Proof.
  unfold prepare_lists.
  destruct x, pos; simpl; split; try done; try (by intros (? & ? & ?)).
Qed.

(** C4.  [x] a list and [pos] a tuple is none of the four supported pairs,
    yet construction goes through and builds a graph record: the last
    [elif] only fires when neither argument is a list. *)
Theorem list_with_tuple_is_not_refused (to_undirected : pyval -> result pyval) :
  let '(s', r) :=
    Graph_init to_undirected
      (PList [one_node 1]) (PTuple [one_node 3]) (PList [self_edge]) PNone
      false false None PNone empty_state in
  r = Ok tt /\
  self_data s' = [mkData (one_node 1) (one_node 3) self_edge None []].
Proof. vm_compute. done. Qed.

(** *** What each part of the constructor does to the state *)

Lemma set_heap_same s : set_heap (heap s) s = s.
Proof. by destruct s. Qed.

Lemma check_and_build_edge_attr_state build ea bea n ei pos x s s' r :
  _check_and_build_edge_attr build ea bea n ei pos x s = (s', r) ->
  heap s' = heap s /\ self_data s' = self_data s.
Proof.
  unfold _check_and_build_edge_attr, bind, iterM, lift, ret, emit, modify,
    raise.
  destruct ea as [| | | |l| |]; destruct bea; simpl;
    repeat match goal with
    | |- (_, _) = (_, _) -> _ => intros [= <- _]; done
    | |- context [py_iter ?h ?v] => destruct (py_iter h v); simpl
    | |- context [map_result ?f ?l] => destruct (map_result f l); simpl
    | |- context [(length ?l =? ?n)%nat] => destruct (length l =? n)%nat; simpl
    end.
Qed.

Lemma build_graph_step ea r i x_ pos_ ei_ s s' res :
  build_graph ea r i (x_, pos_, ei_) s = (s', res) ->
  heap s' = heap s /\ out s' = out s /\
  match res with
  | Ok _ => exists rec, self_data s' = self_data s ++ [rec] /\
              d_x rec = unwrap_label x_ /\ d_pos rec = pos_ /\
              d_edge_index rec = ei_
  | Err _ => self_data s' = self_data s
  end.
Proof.
  unfold build_graph, bind, gets, lift, ret, modify.
  destruct (map_result _ (dict_at r s)) as [local|]; [|by intros [= <- <-]].
  assert (Hnew : forall o,
    match new_Data (unwrap_label x_) pos_ ei_ o local with
    | Ok rec => d_x rec = unwrap_label x_ /\ d_pos rec = pos_ /\
                d_edge_index rec = ei_
    | Err _ => True
    end).
  { intros o. unfold new_Data. by destruct (forallb _ local). }
  destruct (edge_attr_item ea i) as [o|]; [|by intros [= <- <-]].
  specialize (Hnew o).
  destruct (new_Data (unwrap_label x_) pos_ ei_ o local) as [rec|];
    intros [= <- <-]; simpl; eauto.
Qed.

Lemma build_loop_state ea r l : forall i s s' res,
  for_enumerate i l (build_graph ea r) s = (s', res) ->
  heap s' = heap s /\ out s' = out s /\
  exists recs, self_data s' = self_data s ++ recs /\
    match res with
    | Ok _ => Forall2 (fun item rec =>
                d_x rec = unwrap_label (item.1.1) /\ d_pos rec = item.1.2 /\
                d_edge_index rec = item.2) l recs
    | Err _ => (length recs < length l)%nat
    end.
Proof.
  induction l as [|[[x_ pos_] ei_] l IH]; intros i s s' res;
    cbn [for_enumerate].
  - intros [= <- <-]. repeat split. exists []. by rewrite app_nil_r.
  - unfold bind.
    destruct (build_graph ea r i (x_, pos_, ei_) s) as [s1 [[]|e]] eqn:E;
      apply build_graph_step in E as (Hh & Ho & Hd).
    + destruct Hd as (rec & Hd & Hx & Hp & He).
      intros H. apply IH in H as (Hh' & Ho' & recs & Hd' & Hres).
      split; [congruence|]. split; [congruence|].
      exists (rec :: recs). split.
      * rewrite Hd', Hd. by rewrite <- app_assoc.
      * destruct res; [by constructor | simpl; lia].
    + intros [= <- <-]. repeat split; try done.
      exists []. rewrite app_nil_r. split; [done|]. simpl. lia.
Qed.

(** *** The additional-parameter expander *)

Lemma dict_get_app_fresh {V} (pre suf : dict V) k :
  k ∉ keys pre -> dict_get (pre ++ suf) k = dict_get suf k.
Proof.
  induction pre as [|[k' v'] pre IH]; [done|]. unfold keys; simpl.
  intros Hk. apply not_elem_of_cons in Hk as [Hne Hk].
  destruct (String.eqb k k') eqn:E; [|by apply IH].
  apply String.eqb_eq in E. congruence.
Qed.

Lemma dict_set_app_fresh {V} (pre suf : dict V) k v :
  k ∉ keys pre -> dict_set (pre ++ suf) k v = pre ++ dict_set suf k v.
Proof.
  induction pre as [|[k' v'] pre IH]; [done|]. unfold keys; simpl.
  intros Hk. apply not_elem_of_cons in Hk as [Hne Hk].
  destruct (String.eqb k k') eqn:E; [|by rewrite IH].
  apply String.eqb_eq in E. congruence.
Qed.

Lemma dict_store_spec r k v s :
  dict_store r k v s
  = (set_heap (<[r := dict_set (dict_at r s) k v]> (heap s)) s, Ok tt).
Proof. reflexivity. Qed.

(** One round on an entry still holding its old value [v] leaves
    [expand_value v] under its key, in the same dictionary object. *)
Lemma expand_param_spec r L k v s d :
  heap s !! r = Some d -> dict_get d k = Some v -> tensor_or_list v = true ->
  expand_param r L (k, v) s
  = (set_heap (<[r := dict_set d k (expand_value L v)]> (heap s)) s, Ok tt).
Proof.
  intros Hr Hk Hv.
  assert (Hat : dict_at r s = d) by (unfold dict_at; by rewrite Hr).
  assert (Hsame : s = set_heap (<[r := dict_set d k v]> (heap s)) s).
  { rewrite (dict_set_same d k v Hk), (insert_id _ _ _ Hr).
    by rewrite set_heap_same. }
  destruct v as [| | |t|l| |]; try done; [|exact (f_equal (., Ok tt) Hsame)].
  unfold expand_param, expand_value, bind.
  destruct (ndim t =? 3)%nat eqn:E3.
  { apply Nat.eqb_eq in E3. rewrite dict_store_spec, Hat, E3. done. }
  destruct (ndim t =? 2)%nat eqn:E2.
  { apply Nat.eqb_eq in E2. rewrite dict_store_spec, Hat, E2. done. }
  unfold ret. destruct (ndim t =? 1)%nat.
  - destruct (hd 0%nat (shape t) =? L)%nat; by rewrite dict_store_spec, Hat.
  - exact (f_equal (., Ok tt) Hsame).
Qed.

Lemma expand_loop r L suf : forall pre s,
  heap s !! r = Some (pre ++ suf) -> NoDup (keys (pre ++ suf)) ->
  Forall (fun kv => tensor_or_list (snd kv) = true) suf ->
  for_each suf (expand_param r L) s
  = (set_heap (<[r := pre ++ map (expand_entry L) suf]> (heap s)) s, Ok tt).
Proof.
  induction suf as [|[k v] suf IH]; intros pre s Hr Hnd Hok;
    cbn [for_each map].
  - unfold ret. by rewrite (insert_id _ _ _ Hr), set_heap_same.
  - apply Forall_cons in Hok as [Hv Hok]. simpl in Hv.
    assert (Hfresh : k ∉ keys pre).
    { unfold keys in *. rewrite map_app in Hnd.
      apply NoDup_app in Hnd as (_ & Hdis & _). intros Hin.
      apply (Hdis k Hin). simpl. left. }
    assert (Hget : dict_get (pre ++ (k, v) :: suf) k = Some v).
    { rewrite dict_get_app_fresh by done. simpl. by rewrite String.eqb_refl. }
    unfold bind. rewrite (expand_param_spec r L k v s _ Hr Hget Hv).
    rewrite dict_set_app_fresh by done. cbn [dict_set].
    rewrite String.eqb_refl.
    rewrite (IH (pre ++ [(k, expand_value L v)])).
    + cbn [heap set_heap]. rewrite insert_insert_eq.
      by rewrite <- app_assoc.
    + cbn [heap set_heap]. rewrite lookup_insert_eq. by rewrite <- app_assoc.
    + unfold keys in *. rewrite <- app_assoc. cbn [app].
      by rewrite map_app in Hnd |- *.
    + done.
Qed.

(** Handed a dictionary of tensors and lists, the expander returns the
    very same object, with every value replaced by its expansion; the rest
    of the state is as before. *)
Lemma check_additional_params_dict r L d s :
  heap s !! r = Some d -> NoDup (keys d) ->
  Forall (fun kv => tensor_or_list (snd kv) = true) d ->
  _check_additional_params (PDict r) L s
  = (set_heap (<[r := map (expand_entry L) d]> (heap s)) s, Ok r).
Proof.
  intros Hr Hnd Hok. unfold _check_additional_params, bind, gets, dict_at.
  rewrite Hr. cbn [from_option id].
  by rewrite (expand_loop r L d [] s Hr Hnd Hok).
Qed.

(** *** The constructor, step by step *)

Section GraphInitFacts.

Variable to_undirected : pyval -> result pyval.

Lemma build_graph_list_state x pos ei ea r s s' res :
  _build_graph_list x pos ei ea r s = (s', res) ->
  heap s' = heap s /\ out s' = out s /\
  exists recs, self_data s' = self_data s ++ recs /\
    (res = Ok tt -> forall xs ps es,
       py_iter (heap s) x = Ok xs -> py_iter (heap s) pos = Ok ps ->
       py_iter (heap s) ei = Ok es ->
       Forall2 (fun item rec =>
                  d_x rec = unwrap_label (item.1.1) /\ d_pos rec = item.1.2 /\
                  d_edge_index rec = item.2) (zip3 xs ps es) recs).
Proof.
  unfold _build_graph_list, bind, iterM.
  assert (Hstop : forall e, (s, @Err unit e) = (s', res) ->
    heap s' = heap s /\ out s' = out s /\
    exists recs, self_data s' = self_data s ++ recs /\
      (res = Ok tt -> forall xs ps es,
         py_iter (heap s) x = Ok xs -> py_iter (heap s) pos = Ok ps ->
         py_iter (heap s) ei = Ok es ->
         Forall2 (fun item rec =>
                    d_x rec = unwrap_label (item.1.1) /\
                    d_pos rec = item.1.2 /\
                    d_edge_index rec = item.2) (zip3 xs ps es) recs)).
  { intros e [= <- <-]. repeat split. exists []. by rewrite app_nil_r. }
  destruct (py_iter (heap s) x) as [xs|]; [|by apply Hstop].
  destruct (py_iter (heap s) pos) as [ps|]; [|by apply Hstop].
  destruct (py_iter (heap s) ei) as [es|]; [|by apply Hstop].
  intros H. apply build_loop_state in H as (Hh & Ho & recs & Hd & Hres).
  repeat split; try done. exists recs. split; [done|].
  intros -> xs' ps' es' [= <-] [= <-] [= <-]. exact Hres.
Qed.

(** The constructor as the chain of its steps. *)
Lemma Graph_init_steps x pos ei ea bea und custom ap s :
  Graph_init to_undirected x pos ei ea bea und custom ap s
  = let s0 := set_self_data [] s in
    match _check_len_consistency (split_3d x) (split_3d pos) with
    | Err e => (s0, Err e)
    | Ok L =>
        match _check_additional_params ap L s0 with
        | (s1, Err e) => (s1, Err e)
        | (s1, Ok r) =>
            match make_undirected to_undirected und (split_3d ei) with
            | Err e => (s1, Err e)
            | Ok ei1 =>
                match prepare_lists (split_3d x) (split_3d pos) ei1 L with
                | Err e => (s1, Err e)
                | Ok (x2, pos2, ei2) =>
                    match _check_and_build_edge_attr
                            (match custom with
                             | Some f => f
                             | None => _build_edge_attr
                             end) ea bea L ei2 pos2 x2 s1 with
                    | (s2, Err e) => (s2, Err e)
                    | (s2, Ok ea2) => _build_graph_list x2 pos2 ei2 ea2 r s2
                    end
                end
            end
        end
    end.
Proof.
  unfold Graph_init, bind, lift, modify, _check_input_consistency.
  cbv zeta.
  destruct (_check_len_consistency _ _) as [L|]; [|done].
  destruct (_check_additional_params ap L _) as [s1 [r|]]; [|done].
  destruct (make_undirected _ _ _) as [ei1|]; [|done].
  destruct (prepare_lists _ _ _ _) as [[[x2 pos2] ei2]|]; [|done].
  done.
Qed.

(** Once the expander has run, nothing in the constructor touches the
    store again. *)
Lemma Graph_init_heap_after_expander x pos ei ea bea und custom ap s L s1 r :
  _check_len_consistency (split_3d x) (split_3d pos) = Ok L ->
  _check_additional_params ap L (set_self_data [] s) = (s1, Ok r) ->
  heap (fst (Graph_init to_undirected x pos ei ea bea und custom ap s))
  = heap s1.
Proof.
  intros HL Hap. rewrite Graph_init_steps. cbv zeta. rewrite HL, Hap.
  destruct (make_undirected _ _ _) as [ei1|]; [|done].
  destruct (prepare_lists _ _ _ _) as [[[x2 pos2] ei2]|]; [|done].
  destruct (_check_and_build_edge_attr _ _ _ _ _ _ _ s1) as [s2 [ea2|]] eqn:E;
    apply check_and_build_edge_attr_state in E as [Hh _]; [|done].
  destruct (_build_graph_list x2 pos2 ei2 ea2 r s2) as [s3 res] eqn:E.
  apply build_graph_list_state in E as (Hh' & _). simpl. congruence.
Qed.

End GraphInitFacts.

(** C10 (as worded it fails).  A dictionary holding a tensor of four
    dimensions goes through a successful construction with that value
    still a tensor: the expander rewrites only tensors of one, two or
    three dimensions. *)
Lemma four_dim_tensor_is_left_alone : ~ every_tensor_value_overwritten.
Proof.
  intros H.
  specialize (H (fun v => Ok v) (one_node 1) (one_node 3) self_edge PNone
                false false None 0%nat [("a", PTensor four_dim)]
                (caller_state [("a", PTensor four_dim)]) eq_refl
                "a" four_dim eq_refl).
  destruct H as [l Hl]. vm_compute in Hl. discriminate.
Qed.

(** C10 (amended).  For a dictionary of tensors and lists, passed to a
    construction that gets past the length check on [x] and [pos] with
    [L] graphs: the caller's own dictionary object, and nothing else in
    the store, is rewritten, each value replaced by [expand_value L] of it
    (a tensor of three dimensions by its slices, one of two dimensions by
    [L] copies, one of one dimension by its entries when it has [L] of
    them and by [L] copies otherwise; lists and tensors of any other
    dimension stay), whether or not construction then succeeds. *)
Theorem expander_rewrites_callers_dict
    (to_undirected : pyval -> result pyval)
    (x pos edge_index edge_attr : pyval) (build_edge_attr undirected : bool)
    (custom : option (pyval -> pyval -> pyval -> result pyval))
    (r : loc) (d : pydict) (s : gstate) (L : nat) :
  heap s !! r = Some d ->
  NoDup (keys d) ->
  Forall (fun kv => tensor_or_list (snd kv) = true) d ->
  _check_len_consistency (split_3d x) (split_3d pos) = Ok L ->
  let s' := fst (Graph_init to_undirected x pos edge_index edge_attr
                   build_edge_attr undirected custom (PDict r) s) in
  heap s' = <[r := map (expand_entry L) d]> (heap s) /\
  (forall k t, dict_get d k = Some (PTensor t) ->
     (ndim t = 3%nat ->
        dict_get (dict_at r s') k
        = Some (PList (map PTensor (tensor_unbind t)))) /\
     (ndim t = 2%nat ->
        dict_get (dict_at r s') k = Some (PList (replicate L (PTensor t)))) /\
     (ndim t = 1%nat -> hd 0%nat (shape t) = L ->
        dict_get (dict_at r s') k
        = Some (PList (map PTensor (tensor_unbind t)))) /\
     (ndim t = 1%nat -> hd 0%nat (shape t) <> L ->
        dict_get (dict_at r s') k = Some (PList (replicate L (PTensor t)))) /\
     (ndim t <> 1%nat -> ndim t <> 2%nat -> ndim t <> 3%nat ->
        dict_get (dict_at r s') k = Some (PTensor t))) /\
  (forall k l, dict_get d k = Some (PList l) ->
               dict_get (dict_at r s') k = Some (PList l)).
Proof.
  intros Hr Hnd Hok HL s'.
  assert (Hheap : heap s' = <[r := map (expand_entry L) d]> (heap s)).
  { unfold s'. erewrite Graph_init_heap_after_expander; [|exact HL|].
    2:{ apply check_additional_params_dict; done. }
    done. }
  assert (Hget : forall k v, dict_get d k = Some v ->
            dict_get (dict_at r s') k = Some (expand_value L v)).
  { intros k v Hk. unfold dict_at. rewrite Hheap, lookup_insert_eq.
    cbn [from_option id].
    change (map (expand_entry L) d)
      with (map (fun kv => (fst kv, (fun _ => expand_value L) (fst kv) (snd kv))) d).
    by rewrite dict_get_map, Hk. }
  split; [done|]. split.
  - intros k t Hk. rewrite (Hget k _ Hk). unfold expand_value. repeat split.
    + by intros ->.
    + by intros ->.
    + intros -> ->. simpl. by rewrite Nat.eqb_refl.
    + intros -> Hne. apply Nat.eqb_neq in Hne. simpl. by rewrite Hne.
    + intros H1 H2 H3. apply Nat.eqb_neq in H1, H2, H3.
      by rewrite H1, H2, H3.
  - intros k l Hk. by rewrite (Hget k _ Hk).
Qed.

(** The expander theorem at work: two graphs, a 1-D time tensor with two
    entries and a shared 2-D weight. *)
Lemma expander_rewrites_callers_dict_witness :
  let s' := fst (Graph_init (fun v => Ok v)
                   (PList [one_node 1; one_node 2])
                   (PList [one_node 3; one_node 4])
                   (PList [self_edge; self_edge]) PNone false false None
                   (PDict 0) (caller_state sample_params)) in
  heap s' = <[0%nat := map (expand_entry 2) sample_params]>
              (heap (caller_state sample_params)) /\
  (forall k t, dict_get sample_params k = Some (PTensor t) ->
     (ndim t = 3%nat ->
        dict_get (dict_at 0 s') k
        = Some (PList (map PTensor (tensor_unbind t)))) /\
     (ndim t = 2%nat ->
        dict_get (dict_at 0 s') k = Some (PList (replicate 2 (PTensor t)))) /\
     (ndim t = 1%nat -> hd 0%nat (shape t) = 2%nat ->
        dict_get (dict_at 0 s') k
        = Some (PList (map PTensor (tensor_unbind t)))) /\
     (ndim t = 1%nat -> hd 0%nat (shape t) <> 2%nat ->
        dict_get (dict_at 0 s') k = Some (PList (replicate 2 (PTensor t)))) /\
     (ndim t <> 1%nat -> ndim t <> 2%nat -> ndim t <> 3%nat ->
        dict_get (dict_at 0 s') k = Some (PTensor t))) /\
  (forall k l, dict_get sample_params k = Some (PList l) ->
               dict_get (dict_at 0 s') k = Some (PList l)).
Proof.
  apply (expander_rewrites_callers_dict (fun v => Ok v)
           (PList [one_node 1; one_node 2]) (PList [one_node 3; one_node 4])
           (PList [self_edge; self_edge]) PNone false false None
           0%nat sample_params (caller_state sample_params) 2%nat).
  - reflexivity.
  - apply (bool_decide_unpack (NoDup (keys sample_params))).
    vm_compute. exact I.
  - repeat constructor.
  - reflexivity.
Defined.

(** *** Two lists *)

Lemma map_result_length {A B} (f : A -> result B) l l' :
  map_result f l = Ok l' -> length l' = length l.
Proof.
  revert l'. induction l as [|a l IH]; intros l'; simpl.
  - by intros [= <-].
  - destruct (f a); [|done]. destruct (map_result f l); [|done].
    intros [= <-]. simpl. f_equal. by apply IH.
Qed.

Lemma expand_param_frame r L entry s s' res :
  expand_param r L entry s = (s', res) ->
  self_data s' = self_data s /\ out s' = out s.
Proof.
  destruct entry as [k v].
  unfold expand_param, bind, ret, raise, dict_store, modify.
  destruct v as [| | |t|l| |]; try (by intros [= <- _]).
  destruct (ndim t =? 3)%nat; [|destruct (ndim t =? 2)%nat];
    destruct (ndim t =? 1)%nat; try destruct (hd 0%nat (shape t) =? L)%nat;
    by intros [= <- _].
Qed.

Lemma check_additional_params_frame ap L s s' res :
  _check_additional_params ap L s = (s', res) ->
  self_data s' = self_data s /\ out s' = out s.
Proof.
  unfold _check_additional_params.
  destruct ap as [| | | | | |r]; try (by intros [= <- _]).
  unfold bind, gets. generalize (dict_at r s) as items. intros items.
  destruct (for_each items (expand_param r L) s) as [s1 [[]|e]] eqn:E;
    unfold ret; intros [= <- _];
    revert s s1 E;
    (induction items as [|a items IH]; intros s s1; cbn [for_each];
     [by intros [= <-]|]);
    unfold bind;
    destruct (expand_param r L a s) as [s2 [[]|e2]] eqn:E2;
    apply expand_param_frame in E2 as [Hd Ho];
    try (intros [= <-]; done);
    intros H; apply IH in H as [? ?]; split; congruence.
Qed.

(** With no additional parameter and the edge attribute resolved to
    [None] or to a list of copies, every round of the assembling loop goes
    through. *)
Lemma build_loop_succeeds ea r l : forall i s,
  dict_at r s = [] ->
  (ea = PNone \/ exists a n, ea = PList (replicate n a) /\ (i + length l <= n)%nat) ->
  exists s', for_enumerate i l (build_graph ea r) s = (s', Ok tt).
Proof.
  induction l as [|[[x_ pos_] ei_] l IH]; intros i s Hd Hea;
    cbn [for_enumerate].
  - by eexists.
  - unfold bind.
    assert (Hitem : exists o, edge_attr_item ea i = Ok o).
    { destruct Hea as [->|(a & n & -> & Hn)]; [by eexists|].
      exists (Some a). unfold edge_attr_item, py_getitem.
      rewrite lookup_replicate_2; [done|]. simpl in Hn. lia. }
    destruct Hitem as [o Ho].
    assert (Hstep : build_graph ea r i (x_, pos_, ei_) s
      = (set_self_data (self_data s ++
           [mkData (unwrap_label x_) pos_ ei_ o []]) s, Ok tt)).
    { unfold build_graph, bind, gets, lift, modify. rewrite Hd. cbn [map_result].
      rewrite Ho. unfold new_Data. by destruct o. }
    rewrite Hstep. apply IH; [done|].
    destruct Hea as [->|(a & n & -> & Hn)]; [by left|].
    right. exists a, n. split; [done|]. simpl in Hn. lia.
Qed.

Lemma zip3_projections {A B C} (a : list A) (b : list B) (c : list C) :
  length b = length a -> length c = length a ->
  length (zip3 a b c) = length a /\
  map (fun item => item.1.1) (zip3 a b c) = a /\
  map (fun item => item.1.2) (zip3 a b c) = b.
Proof.
  revert b c. induction a as [|x a IH]; intros [|y b] [|z c]; simpl;
    try done.
  intros [= Hb] [= Hc]. destruct (IH b c Hb Hc) as (Hl & H1 & H2).
  unfold zip3 in *. by rewrite Hl, H1, H2.
Qed.

(** C5.  [x] and [pos] two lists.  If their lengths differ the constructor
    raises the length-mismatch error with [self.data] still empty,
    whatever the other arguments.  If both have length [L] and
    [edge_index] is a list of length [L]: every construction that returns
    holds exactly [L] records, record [i] made of [x[i]] and [pos[i]]; and
    the construction does return when no additional parameter is passed,
    [to_undirected] (if asked for) accepts every edge index, and
    [edge_attr] is absent (with nothing to build), a single value, or a
    list of length [L]. *)
Theorem graph_of_two_lists
    (to_undirected : pyval -> result pyval) (lx lp : list pyval)
    (edge_index edge_attr : pyval) (build_edge_attr undirected : bool)
    (custom : option (pyval -> pyval -> pyval -> result pyval))
    (additional_params : pyval) (s : gstate) :
  let construct :=
    Graph_init to_undirected (PList lx) (PList lp) edge_index edge_attr
      build_edge_attr undirected custom additional_params s in
  (length lx <> length lp ->
     snd construct = Err (ValueError "x and pos must have the same length.")
     /\ self_data (fst construct) = [] /\ heap (fst construct) = heap s) /\
  (length lx = length lp ->
   forall le, edge_index = PList le -> length le = length lx ->
     (snd construct = Ok tt ->
        length (self_data (fst construct)) = length lx /\
        map d_x (self_data (fst construct)) = map unwrap_label lx /\
        map d_pos (self_data (fst construct)) = lp) /\
     (additional_params = PNone ->
      is_ok (make_undirected to_undirected undirected (PList le)) ->
      edge_attr_fits edge_attr build_edge_attr (length lx) ->
      snd construct = Ok tt)).
Proof.
  intros construct. unfold construct. rewrite Graph_init_steps.
  cbn [split_3d _check_len_consistency]. split.
  - intros Hne. apply Nat.eqb_neq in Hne. rewrite Hne. by cbn.
  - intros Heq le -> Hle. rewrite Heq, Nat.eqb_refl, Nat.max_id.
    cbn [negb split_3d].
    set (L := length lp) in *.
    destruct (_check_additional_params additional_params L
                (set_self_data [] s)) as [s1 [r|e]] eqn:Eap.
    2:{ split; [done|]. intros -> _ _. by cbv in Eap. }
    pose proof (check_additional_params_frame _ _ _ _ _ Eap) as [Hd1 _].
    cbn [self_data set_self_data] in Hd1.
    assert (Hund : forall le1,
      make_undirected to_undirected undirected (PList le) = Ok le1 ->
      exists l1, le1 = PList l1 /\ length l1 = L).
    { intros le1. unfold make_undirected. destruct undirected.
      - destruct (map_result to_undirected le) as [l1|] eqn:E; [|done].
        intros [= <-]. exists l1. split; [done|].
        apply map_result_length in E. lia.
      - intros [= <-]. exists le. split; [done|]. lia. }
    destruct (make_undirected to_undirected undirected (PList le))
      as [le1|e] eqn:Eund.
    2:{ split; [done|]. intros _ Hok _. destruct Hok. }
    destruct (Hund le1 eq_refl) as (l1 & -> & Hl1).
    cbn [prepare_lists is_list is_tensor andb negb].
    destruct (_check_and_build_edge_attr _ edge_attr build_edge_attr L
                (PList l1) (PList lp) (PList lx) s1) as [s2 [ea2|e]] eqn:Eea.
    2:{ split; [done|]. intros _ _ Hfit. exfalso.
        unfold _check_and_build_edge_attr, edge_attr_fits, bind in *.
        destruct edge_attr as [| | | |l| |];
          destruct build_edge_attr; try done; cbn in Eea;
          try (apply Nat.eqb_eq in Hfit; rewrite Hfit in Eea; done). }
    pose proof (check_and_build_edge_attr_state _ _ _ _ _ _ _ _ _ _ Eea)
      as [Hh2 Hd2].
    destruct (_build_graph_list (PList lx) (PList lp) (PList l1) ea2 r s2)
      as [s3 res] eqn:Ebuild. cbn [fst snd]. split.
    + intros ->.
      apply build_graph_list_state in Ebuild as (_ & _ & recs & Hd3 & Hall).
      specialize (Hall eq_refl lx lp l1 eq_refl eq_refl eq_refl).
      rewrite Hd3, Hd2, Hd1. cbn [app].
      destruct (zip3_projections lx lp l1) as (Hlen & Hx & Hp); [lia..|].
      pose proof (Forall2_length _ _ _ Hall) as Hrecs.
      split; [lia|].
      rewrite <- Hx at 1. rewrite <- Hp at 2. rewrite !List.map_map.
      clear -Hall. induction Hall as [|item rec items recs (Hx & Hp & _) _ IH];
        [done|].
      destruct IH as [IHx IHp]. simpl. by rewrite Hx, Hp, IHx, IHp.
    + intros -> _ Hfit.
      assert (Hdict : dict_at r s2 = []).
      { cbv [_check_additional_params new_dict] in Eap.
        injection Eap as <- <-. unfold dict_at. rewrite Hh2.
        cbn [heap set_heap set_self_data]. by rewrite lookup_insert_eq. }
      assert (Hea2 : ea2 = PNone \/
                exists a n, ea2 = PList (replicate n a) /\
                            (0 + length (zip3 lx lp l1) <= n)%nat).
      { destruct (zip3_projections lx lp l1) as (Hlen & _); [lia..|].
        assert (edge_attr = PNone \/ edge_attr <> PNone) as [->|Hne]
          by (destruct edge_attr; (by left) || (by right)).
        - left. unfold edge_attr_fits in Hfit. subst build_edge_attr.
          by injection Eea as _ <-.
        - right. exists edge_attr, L. split; [|lia].
          by eapply edge_attr_given_is_replicated. }
      destruct (build_loop_succeeds ea2 r (zip3 lx lp l1) 0 s2 Hdict Hea2)
        as [s4 Hrun].
      unfold _build_graph_list, bind, iterM in Ebuild. cbn [py_iter] in Ebuild.
      rewrite Hrun in Ebuild. by injection Ebuild as _ <-.
Qed.

(** The two-lists theorem at work: lengths 2 and 1, then 2 and 2. *)
Lemma graph_of_two_lists_witness :
  (let construct :=
     Graph_init (fun v => Ok v) (PList [one_node 1; one_node 2])
       (PList [one_node 3]) (PList [self_edge; self_edge]) PNone
       false false None PNone empty_state in
   snd construct = Err (ValueError "x and pos must have the same length.")
   /\ self_data (fst construct) = []) /\
  (let construct :=
     Graph_init (fun v => Ok v) (PList [one_node 1; one_node 2])
       (PList [one_node 3; one_node 4]) (PList [self_edge; self_edge]) PNone
       false false None PNone empty_state in
   snd construct = Ok tt /\ length (self_data (fst construct)) = 2%nat).
Proof.
  split.
  - destruct (graph_of_two_lists (fun v => Ok v) [one_node 1; one_node 2]
                [one_node 3] (PList [self_edge; self_edge]) PNone
                false false None PNone empty_state) as [Hdiff _].
    destruct Hdiff as (Herr & Hdata & _); [simpl; lia|]. by split.
  - destruct (graph_of_two_lists (fun v => Ok v) [one_node 1; one_node 2]
                [one_node 3; one_node 4] (PList [self_edge; self_edge]) PNone
                false false None PNone empty_state) as [_ Hsame].
    destruct (Hsame eq_refl [self_edge; self_edge] eq_refl eq_refl)
      as [Hrecs Hret].
    assert (Hok := Hret eq_refl I eq_refl).
    split; [exact Hok|]. by destruct (Hrecs Hok) as [Hlen _].
Defined.

(** ** [TemporalGraph] *)

(** C8 (as worded it fails).  With the defaults [edge_index=None] and
    [r=None], a positions list of one tensor and an empty times list: the
    radius edge index is asked for first and [dist <= None] raises a
    [TypeError], so the length check is never reached. *)
Lemma default_radius_fails_before_length_check :
  ~ unequal_lengths_always_length_error.
Proof.
  intros H.
  specialize (H (fun v => Ok v) (one_node 1) [one_node 3] [] PNone PNone
                false false None empty_state).
  vm_compute in H. specialize (H ltac:(discriminate)). discriminate.
Qed.

(** C8 (amended).  When the edge index is given, or every radius edge
    index can be built (a radius is given and every entry of the positions
    list is a 2-D tensor): unequal lengths of the positions list and the
    times list raise the length-mismatch error (a [ValueError]) in the
    state where only [{'t': t}] has been created, untouched, and
    [self.data] is as before, so the base constructor has not run; with
    equal lengths the constructor is the base constructor called in that
    state with [additional_params] that very dictionary. *)
Theorem temporal_graph_checks_lengths
    (to_undirected : pyval -> result pyval) (x : pyval) (lp lt : list pyval)
    (edge_index edge_attr : pyval) (build_edge_attr undirected : bool)
    (r : option Q) (s : gstate) :
  (edge_index = PNone -> is_ok (map_result (radius_graph_opt r) lp)) ->
  let construct :=
    TemporalGraph_init to_undirected x (PList lp) (PList lt) edge_index
      edge_attr build_edge_attr undirected r s in
  let s1 := before_time_check (length lp) (PList lt) s in
  let r0 := fresh (dom (heap s)) in
  dict_at r0 s1 = [("t", PList lt)] /\
  (length lp <> length lt ->
     construct
     = (s1, Err (ValueError "pos and times must have the same length."))) /\
  (length lp = length lt ->
     exists edge_index1,
       (edge_index <> PNone -> edge_index1 = split_3d edge_index) /\
       (edge_index = PNone ->
          exists l, map_result (radius_graph_opt r) lp = Ok l /\
                    edge_index1 = PList l) /\
       construct
       = Graph_init to_undirected (split_3d x) (PList lp) edge_index1
           edge_attr build_edge_attr undirected None (PDict r0) s1).
Proof.
  intros Hedges construct s1 r0. split.
  { unfold dict_at, s1, before_time_check, r0. cbn [heap].
    by rewrite lookup_insert_eq. }
  assert (Hrun : exists edge_index1,
    (edge_index <> PNone -> edge_index1 = split_3d edge_index) /\
    (edge_index = PNone ->
       exists l, map_result (radius_graph_opt r) lp = Ok l /\
                 edge_index1 = PList l) /\
    construct
    = (if negb (length lp =? length lt)%nat then
         (s1, Err (ValueError "pos and times must have the same length."))
       else Graph_init to_undirected (split_3d x) (PList lp) edge_index1
              edge_attr build_edge_attr undirected None (PDict r0) s1)).
  { unfold construct, TemporalGraph_init, _check_input_consistency.
    cbn [split_3d]. unfold bind at 1. cbn [lenM py_len].
    unfold bind at 1. cbn [emit modify].
    assert (Hrest : forall ei1 s0,
      (let* additional_params := new_dict [("t", PList lt)] in
       let* _ := _check_time_consistency (PList lp) (PList lt) in
       Graph_init to_undirected (split_3d x) (PList lp) ei1 edge_attr
         build_edge_attr undirected None (PDict additional_params)) s0
      = (if negb (length lp =? length lt)%nat then
           (set_heap (<[fresh (dom (heap s0)) := [("t", PList lt)]]> (heap s0)) s0,
            Err (ValueError "pos and times must have the same length."))
         else Graph_init to_undirected (split_3d x) (PList lp) ei1 edge_attr
                build_edge_attr undirected None
                (PDict (fresh (dom (heap s0))))
                (set_heap (<[fresh (dom (heap s0)) := [("t", PList lt)]]>
                             (heap s0)) s0))).
    { intros ei1 s0. unfold bind, new_dict, _check_time_consistency, bind,
        lenM. cbn [py_len].
      by destruct (negb (length lp =? length lt)%nat). }
    assert (edge_index = PNone \/ edge_index <> PNone) as [->|Hne]
      by (destruct edge_index; (by left) || (by right)).
    - specialize (Hedges eq_refl).
      destruct (map_result (radius_graph_opt r) lp) as [l|] eqn:El; [|done].
      exists (PList l). split; [done|]. split; [by exists l|].
      cbn [split_3d].
      erewrite bind_Ok; cycle 1.
      { unfold bind, iterM, lift, ret. cbn [py_iter]. by rewrite El. }
      exact (Hrest (PList l) _).
    - exists (split_3d edge_index). split; [done|]. split; [done|].
      assert (Hsplit : split_3d edge_index <> PNone).
      { destruct edge_index as [| | |t| | |]; try done. simpl.
        by destruct (ndim t =? 3)%nat. }
      erewrite (bind_Ok _ _ _ _ (split_3d edge_index)); cycle 1.
      { by destruct (split_3d edge_index). }
      exact (Hrest (split_3d edge_index) _). }
  destruct Hrun as (ei1 & H1 & H2 & Hc). split.
  - intros Hne. apply Nat.eqb_neq in Hne. by rewrite Hc, Hne.
  - intros Heq. exists ei1. split; [done|]. split; [done|].
    by rewrite Hc, Heq, Nat.eqb_refl.
Qed.

(** The length check at work: two positions, one time, radius 0. *)
Lemma temporal_graph_checks_lengths_witness :
  snd (TemporalGraph_init (fun v => Ok v) (one_node 1)
         (PList [one_node 3; one_node 4]) (PList [one_node 0]) PNone PNone
         false false (Some 0%Q) empty_state)
  = Err (ValueError "pos and times must have the same length.").
Proof.
  destruct (temporal_graph_checks_lengths (fun v => Ok v) (one_node 1)
              [one_node 3; one_node 4] [one_node 0] PNone PNone
              false false (Some 0%Q) empty_state) as (_ & Hdiff & _).
  - intros _. vm_compute. exact I.
  - rewrite Hdiff; [reflexivity | simpl; lia].
Defined.

(** ** Distances *)






Section PointSet.

Variable points : list point.
Variable D : nat.
Hypothesis points_shape : Forall (fun p => length p = D) points.
Hypothesis points_distinct : pairwise_distinct points.


End PointSet.

(** ** The radius edge builder *)

Lemma map_fmap {A B} (f : A -> B) (l : list A) : map f l = f <$> l.
Proof. induction l as [|a l IH]; simpl; [done|]. by rewrite IH. Qed.

Lemma lookup_map {A B} (f : A -> B) (l : list A) i :
  map f l !! i = f <$> l !! i.
Proof. rewrite map_fmap. apply list_lookup_fmap. Qed.

Lemma zip_map_fst_snd {A B} (l : list (A * B)) :
  zip (map fst l) (map snd l) = l.
Proof. induction l as [|[a b] l IH]; simpl; [done|]. by rewrite IH. Qed.

Lemma true_columns_elem row : forall j0 j,
  j ∈ true_columns j0 row <-> exists k, j = (j0 + k)%nat /\ row !! k = Some true.
Proof.
  induction row as [|b row IH]; intros j0 j; simpl.
  - split; [by intros ?%elem_of_nil | by intros (k & _ & ?)].
  - rewrite elem_of_app, IH. split.
    + intros [Hj|(k & -> & Hk)].
      * destruct b; [|by apply elem_of_nil in Hj].
        apply list_elem_of_singleton in Hj as ->. exists 0%nat. split; [lia|done].
      * exists (S k). split; [lia|done].
    + intros ([|k] & -> & Hk).
      * injection Hk as ->. left. rewrite Nat.add_0_r.
        by apply list_elem_of_singleton.
      * right. exists k. split; [lia|done].
Qed.

Lemma true_columns_none row j0 :
  (forall k, row !! k <> Some true) -> true_columns j0 row = [].
Proof.
  revert j0. induction row as [|b row IH]; intros j0 Hno; simpl; [done|].
  destruct b; [by destruct (Hno 0%nat)|].
  apply IH. intros k. apply (Hno (S k)).
Qed.

Lemma true_columns_single row : forall j0 i,
  row !! i = Some true -> (forall k, k <> i -> row !! k <> Some true) ->
  true_columns j0 row = [(j0 + i)%nat].
Proof.
  induction row as [|b row IH]; intros j0 i Hi Hother; [done|]. simpl.
  destruct i as [|i].
  - injection Hi as ->. rewrite Nat.add_0_r. simpl. f_equal.
    apply true_columns_none. intros k. by apply (Hother (S k)).
  - destruct b; [by destruct (Hother 0%nat)|]. simpl.
    rewrite (IH (S j0) i Hi); [f_equal; lia|].
    intros k Hk. apply (Hother (S k)). lia.
Qed.

Lemma nonzero_elem mask i j :
  (i, j) ∈ nonzero mask
  <-> exists row, mask !! i = Some row /\ row !! j = Some true.
Proof.
  unfold nonzero. rewrite list_elem_of_In, in_concat. split.
  - intros (l & Hl & Hin). apply list_elem_of_In in Hl.
    apply elem_of_lookup_imap in Hl as (i' & row & -> & Hrow).
    apply in_map_iff in Hin as (j' & [= <- <-] & Hj).
    apply list_elem_of_In in Hj.
    apply true_columns_elem in Hj as (k & -> & Hk). by exists row.
  - intros (row & Hrow & Hj).
    exists (map (fun j => (i, j)) (true_columns 0 row)). split.
    + apply list_elem_of_In, elem_of_lookup_imap. by exists i, row.
    + apply in_map, list_elem_of_In, true_columns_elem. by exists j.
Qed.

Lemma nonzero_diagonal mask : forall off,
  (forall i row, mask !! i = Some row ->
                 true_columns 0 row = [(off + i)%nat]) ->
  concat (imap (fun i row => map (fun j => ((off + i)%nat, j))
                               (true_columns 0 row)) mask)
  = map (fun i => (i, i)) (seq off (length mask)).
Proof.
  induction mask as [|row mask IH]; intros off Hdiag; [done|].
  rewrite imap_cons. cbn [concat length seq map].
  rewrite (Hdiag 0%nat row eq_refl). cbn [map app]. rewrite Nat.add_0_r.
  f_equal. rewrite <- (IH (S off)).
  - f_equal. apply imap_ext. intros i r _. simpl.
    by replace (off + S i)%nat with (S (off + i)) by lia.
  - intros i r Hr. rewrite (Hdiag (S i) r Hr). f_equal. lia.
Qed.







(** ** Sorting a row of distances *)






(** ** The nearest-neighbour edge builder *)

Section Row.

Variable points : list point.
Variable D : nat.
Hypothesis points_shape : Forall (fun p => length p = D) points.
Hypothesis points_distinct : pairwise_distinct points.

Variable i : nat.
Variable p : point.
Hypothesis Hp : points !! i = Some p.

Let N := length points.








Variable k : nat.
Hypothesis Hk : (k < N)%nat.






End Row.




Section Interleave.

Context {A : Type}.
Variable f : A -> list nat.
Variable k : nat.






End Interleave.




(** On the three points 0, 1, 3 of a line with [k = 1]: 0 and 1 are each
    other's nearest point, and the nearest point of 3 is 1. *)
Example knn_graph_line :
  _knn_graph line_points 1 = Ok ([0; 1; 2]%nat, [1; 0; 1]%nat).
Proof. reflexivity. Qed.

(** With [k >= N] there are not [k + 1] columns to take. *)
Example knn_graph_too_many :
  _knn_graph line_points 3
  = Err (RuntimeError "selected index k out of range").
Proof. reflexivity. Qed.

(** ** The model at work on small inputs *)

(** The default edge attribute of the edge between (0, 0) and (3, 4) is
    (3, 4), in both directions. *)
Example build_edge_attr_two_points :
  _build_edge_attr PNone two_points both_ways
  = Ok (PTensor {| labeled := false; shape := [2%nat; 2%nat];
                   data := [3%Q; 4%Q; 3%Q; 4%Q] |}).
Proof. reflexivity. Qed.

(** Within radius 5 the two points are joined both ways, self-loops
    included; their nearest neighbour is each other. *)
Example radius_and_knn_two_points :
  radius_graph_of 5 two_points
  = Ok (PTensor {| labeled := false; shape := [2%nat; 4%nat];
                   data := [0%Q; 0%Q; 1%Q; 1%Q; 0%Q; 1%Q; 0%Q; 1%Q] |})
  /\ knn_graph_of 1 two_points = Ok both_ways.
Proof. split; reflexivity. Qed.

(** One tensor [x] with a list [pos] of length 2: two records sharing the
    node features; [edge_attr] given together with [build_edge_attr=True]
    is kept, with a warning. *)
Example single_x_list_pos :
  let '(s', r) :=
    Graph_init (fun v => Ok v) (one_node 1) (PList [one_node 3; one_node 4])
      (PList [self_edge; self_edge]) (one_node 9) true false None PNone
      empty_state in
  r = Ok tt /\
  map d_x (self_data s') = [one_node 1; one_node 1] /\
  map d_pos (self_data s') = [one_node 3; one_node 4] /\
  map d_edge_attr (self_data s') = [Some (one_node 9); Some (one_node 9)] /\
  out s'
  = [Warn "edge_attr is not None. build_edge_attr will not be considered."].
Proof. vm_compute. done. Qed.

(** A temporal graph over two positions with a time each: record [i]
    carries the time [t[i]]. *)
Example temporal_graph_two_times :
  let '(s', r) :=
    TemporalGraph_init (fun v => Ok v) (one_node 1)
      (PList [one_node 3; one_node 4]) (PTensor two_times) PNone PNone
      false false (Some 0%Q) empty_state in
  r = Ok tt /\
  map d_kwargs (self_data s')
  = [[("t", PTensor {| labeled := false; shape := []; data := [0%Q] |})];
     [("t", PTensor {| labeled := false; shape := []; data := [1%Q] |})]] /\
  out s' = [Print 2].
Proof. vm_compute. done. Qed.

(** * Further properties of the code *)

(** ** Loops *)

Lemma for_each_app {S A} (body : A -> M S unit) (l1 l2 : list A) s :
  for_each (l1 ++ l2) body s
  = match for_each l1 body s with
    | (s', Ok _) => for_each l2 body s'
    | (s', Err e) => (s', Err e)
    end.
Proof.
  revert s. induction l1 as [|a l1 IH]; intros s; [done|].
  cbn [app for_each]. unfold bind. destruct (body a s) as [s1 [[]|e]]; [|done].
  apply IH.
Qed.

(** ** Clamping, when a range is missing *)

(** X1.  A parameter without a declared range stops the clamping routine with
    [KeyError]: the parameters that come before it in the dictionary are
    already clamped, it and the later ones are as they were. *)
Theorem clamp_stops_at_missing_range
    (range_ : dict (Q * Q)) (pre suf : dict (list Q)) (v : string)
    (x : list Q) (tr : list pinn_event) :
  (forall w, w ∈ keys pre -> is_Some (dict_get range_ w)) ->
  dict_get range_ v = None ->
  let ps := pre ++ (v, x) :: suf in
  exists ps',
    _clamp_inverse_problem_params range_ (mkSolver (Some ps) tr)
      = (mkSolver (Some ps') tr, Err (KeyError v)) /\
    keys ps' = keys ps /\
    (forall w, w ∈ keys pre ->
       dict_get ps' w = clamp_value range_ w <$> dict_get ps w) /\
    (forall w, w ∉ keys pre -> dict_get ps' w = dict_get ps w).
Proof.
  intros Hpre Hv ps.
  exists (foldl (clamp_round range_) ps (keys pre)).
  split; [|split; [apply clamp_rounds_keys|split]].
  - unfold _clamp_inverse_problem_params, bind, gets. cbn [_params].
    replace (keys ps) with (keys pre ++ v :: keys suf)
      by (unfold ps, keys; by rewrite map_app).
    rewrite for_each_app, clamp_loop_runs.
    + cbn [for_each]. unfold bind. by rewrite Hv.
    + intros w Hw. split; [by apply Hpre|].
      unfold ps, keys. rewrite map_app. apply elem_of_app. by left.
  - intros w Hw. rewrite dict_get_clamp_rounds.
    by rewrite bool_decide_eq_true_2.
  - intros w Hw. rewrite dict_get_clamp_rounds.
    rewrite bool_decide_eq_false_2 by done. by rewrite option_fmap_id.
Qed.

(** The routine at work: [a] has the range [[0, 1]], [b] has none. *)
Lemma clamp_stops_at_missing_range_witness :
  exists ps',
    _clamp_inverse_problem_params [("a", (0%Q, 1%Q))]
      (mkSolver (Some [("a", [5%Q]); ("b", [7%Q]); ("c", [9%Q])]) [])
      = (mkSolver (Some ps') [], Err (KeyError "b")) /\
    dict_get ps' "a" = Some [1%Q] /\ dict_get ps' "c" = Some [9%Q].
Proof.
  destruct (clamp_stops_at_missing_range [("a", (0%Q, 1%Q))]
              [("a", [5%Q])] [("c", [9%Q])] "b" [7%Q] [])
    as (ps' & Hrun & _ & Hin & Hout).
  - intros w Hw. apply list_elem_of_singleton in Hw. subst w. by eexists.
  - reflexivity.
  - exists ps'. split; [exact Hrun|]. split.
    + rewrite Hin; [reflexivity|]. by apply list_elem_of_singleton.
    + rewrite Hout; [reflexivity|].
      intros Hw. apply list_elem_of_singleton in Hw. discriminate.
Defined.

(** ** The steps as a whole *)

Lemma map_result_perm {A B} (f : A -> result B) (l l' : list A) ls :
  l ≡ₚ l' -> map_result f l = Ok ls ->
  exists ls', map_result f l' = Ok ls' /\ ls ≡ₚ ls'.
Proof.
  intros Hperm. revert ls.
  induction Hperm as [|a l l' _ IH|a b l|l1 l2 l3 _ IH1 _ IH2]; intros ls.
  - intros [= <-]. by exists [].
  - simpl. destruct (f a) as [y|]; [|done].
    destruct (map_result f l) as [ys|]; [|done]. intros [= <-].
    destruct (IH ys eq_refl) as (ys' & -> & Hp). exists (y :: ys').
    split; [done|]. by constructor.
  - simpl. destruct (f a) as [y|]; destruct (f b) as [z|]; try done;
      destruct (map_result f l) as [ys|]; try done.
    intros [= <-]. exists (y :: z :: ys). split; [done|]. apply Permutation_swap.
  - intros H1. destruct (IH1 ls H1) as (ls2 & H2 & Hp12).
    destruct (IH2 ls2 H2) as (ls3 & H3 & Hp23). exists ls3.
    split; [done|]. by etrans.
Qed.

Section Steps.

Variables Pts Equation : Type.
Variable forward : Pts -> Pts.
Variable _loss : Pts -> Pts -> Q.
Variable loss_phys : Pts -> Equation -> Q.
Variable requires_grad_ : Pts -> Pts.
Variable pb : problem Equation.

Let train := training_step Pts Equation forward _loss loss_phys
               requires_grad_ pb.
Let validate := validation_step Pts Equation forward _loss loss_phys
                  requires_grad_ pb.
Let loss_of := condition_loss_of Pts Equation forward _loss loss_phys
                 requires_grad_ pb.

(** The training step, in terms of the losses of its conditions. *)
Lemma training_step_unfold batch s :
  train batch s
  = match map_result loss_of batch with
    | Err e => (s, Err e)
    | Ok ls =>
        let loss := py_sum (flat_map (fun l => [l; l]) ls) in
        match _clamp_params Equation pb s with
        | (s1, Ok _) =>
            ({| _params := _params s1;
                trace := trace s1 ++ [Log "train_loss" loss] |}, Ok loss)
        | (s1, Err e) => (s1, Err e)
        end
    end.
Proof.
  unfold train, training_step, bind, lift. rewrite condition_losses_twice.
  fold loss_of. destruct (map_result loss_of batch) as [ls|]; [|done].
  cbn [Rbind app]. by destruct (_clamp_params Equation pb s) as [s1 [[]|e]].
Qed.

Lemma validation_step_unfold batch s :
  validate batch s
  = match map_result loss_of batch with
    | Err e => (s, Err e)
    | Ok ls =>
        ({| _params := _params s;
            trace := trace s
                     ++ [Log "val_loss" (py_sum (flat_map (fun l => [l; l]) ls))] |},
         Ok tt)
    end.
Proof.
  unfold validate, validation_step, bind, lift.
  rewrite condition_losses_twice.
  fold loss_of. by destruct (map_result loss_of batch) as [ls|].
Qed.

(** X3.  A batch entry whose loss cannot be computed, after entries whose
    losses can, stops both steps with a [KeyError] before anything is
    clamped or logged: [KeyError('input_points')] when the point mapping
    has no input points, the condition's name when it is a physics
    condition the problem does not know. *)
Theorem step_fails_before_any_effect
    (pre suf : list (string * dict Pts)) (name : string) (points : dict Pts)
    (s : solver) :
  Forall (fun entry => is_ok (loss_of entry)) pre ->
  let batch := pre ++ (name, points) :: suf in
  (dict_get points "input_points" = None ->
     train batch s = (s, Err (KeyError "input_points")) /\
     validate batch s = (s, Err (KeyError "input_points"))) /\
  (is_Some (dict_get points "input_points") ->
   dict_get points "output_points" = None ->
   dict_get (conditions Equation pb) name = None ->
     train batch s = (s, Err (KeyError name)) /\
     validate batch s = (s, Err (KeyError name))).
Proof.
  intros Hpre batch.
  assert (Hfail : forall e, loss_of (name, points) = Err e ->
            map_result loss_of batch = Err e).
  { intros e He. unfold batch. clear -Hpre He.
    induction Hpre as [|a pre Ha _ IH]; cbn [app map_result].
    - by rewrite He.
    - destruct (loss_of a); [|done]. by rewrite IH. }
  split.
  - intros Hin.
    assert (He : loss_of (name, points) = Err (KeyError "input_points")).
    { unfold loss_of, condition_loss_of, lookup_key. rewrite Hin.
      by destruct (dict_get points "output_points"). }
    by rewrite training_step_unfold, validation_step_unfold, (Hfail _ He).
  - intros [i Hin] Hout Hcond.
    assert (He : loss_of (name, points) = Err (KeyError name)).
    { unfold loss_of, condition_loss_of, lookup_key.
      by rewrite Hout, Hin, Hcond. }
    by rewrite training_step_unfold, validation_step_unfold, (Hfail _ He).
Qed.

(** X4.  Whether a training step returns, and the parameters it leaves,
    do not depend on the order of the batch: if it returns on a batch it
    returns on every permutation of it, with the same parameters.  (The
    loss is the sum in the order of the batch.) *)
Theorem training_step_batch_order (batch batch' : list (string * dict Pts))
    (s s1 : solver) (loss : Q) :
  batch ≡ₚ batch' ->
  train batch s = (s1, Ok loss) ->
  exists s1' loss',
    train batch' s = (s1', Ok loss') /\ _params s1' = _params s1.
Proof.
  intros Hperm. rewrite !training_step_unfold.
  destruct (map_result loss_of batch) as [ls|] eqn:Els; [|done].
  destruct (map_result_perm loss_of batch batch' ls Hperm Els)
    as (ls' & -> & Hp).
  cbv zeta. destruct (_clamp_params Equation pb s) as [s2 [[]|]]; [|done].
  intros [= <- <-]. eexists _, _. split; done.
Qed.

End Steps.

Lemma step_fails_before_any_effect_witness :
  toy_training_step forward_problem
    [("first", [("input_points", 0%Q); ("output_points", 1%Q)]);
     ("second", [("output_points", 2%Q)])] (mkSolver None [])
  = (mkSolver None [], Err (KeyError "input_points")).
Proof.
  destruct (step_fails_before_any_effect Q unit (fun p => p)
              (fun _ out => out) (fun _ _ => 0%Q) (fun p => p) forward_problem
              [("first", [("input_points", 0%Q); ("output_points", 1%Q)])] []
              "second" [("output_points", 2%Q)] (mkSolver None []))
    as [Hmissing _].
  - constructor; [exact I | constructor].
  - destruct Hmissing as [Htrain _]; [reflexivity | exact Htrain].
Defined.

Lemma training_step_batch_order_witness :
  exists s1' loss',
    toy_training_step forward_problem (rev batch_1_2) (mkSolver None [])
    = (s1', Ok loss') /\ _params s1' = None.
Proof.
  apply (training_step_batch_order Q unit (fun p => p) (fun _ out => out)
           (fun _ _ => 0%Q) (fun p => p) forward_problem batch_1_2
           (rev batch_1_2) (mkSolver None [])
           (mkSolver None [ClampCall; Log "train_loss" 6%Q]) 6%Q).
  - apply Permutation_swap.
  - reflexivity.
Defined.

(** ** The residual *)

(** X5.  [compute_residual] hands the unknown parameters to a residual of three
    arguments and never to one of two.  A residual of two arguments that
    returns, or raises anything but a [TypeError], gives that outcome; a
    [TypeError] raised inside it is lost: what comes out is the
    [TypeError] of the second call, made with one argument too many. *)
Theorem compute_residual_dispatch {Pts Par Out : Type} (forward : Pts -> Pts)
    (params : Par) (samples : Pts) :
  (forall f : Pts -> Pts -> Par -> result Out,
     compute_residual forward params samples (Residual3 f)
     = f samples (forward samples) params) /\
  (forall (f : Pts -> Pts -> result Out),
     match f samples (forward samples) with
     | Err (TypeError _) =>
         compute_residual forward params samples (Residual2 f)
         = Err (TypeError
                  "residual() takes 2 positional arguments but 3 were given")
     | outcome =>
         compute_residual forward params samples (Residual2 f) = outcome
     end).
Proof.
  split; [done|]. intros f. unfold compute_residual, call2, call3.
  by destruct (f samples (forward samples)) as [v|[]].
Qed.

(** ** The log of residual losses *)

(** X6.  At the end of an epoch [save_logs_and_release] never raises and
    leaves the list of stored losses empty.  With nothing stored it
    changes nothing; otherwise it logs the mean of the stored losses once,
    under the name [mean_loss], and the metric name stays [mean].  A
    second call right after changes nothing more. *)
Theorem save_logs_and_release_spec (batch_size : option nat) (s : logger) :
  exists s',
    save_logs_and_release batch_size s = (s', Ok tt) /\
    logged_res_losses s' = [] /\
    (logged_res_losses s = [] -> s' = s) /\
    (logged_res_losses s <> [] ->
       logged_metric s' = Some "mean" /\
       logged s'
       = logged s ++ [("mean_loss", py_mean (logged_res_losses s),
                       default 999%nat batch_size)]) /\
    save_logs_and_release batch_size s' = (s', Ok tt).
Proof.
  destruct s as [metric losses calls].
  unfold save_logs_and_release, bind, gets, modify, store_log, ret.
  destruct losses as [|v losses]; cbn.
  - eexists. split; [done|]. by repeat split.
  - eexists. split; [done|]. by repeat split.
Qed.

(** X8.  In the state [__init__] leaves, [store_log] raises a [TypeError] (the
    metric name is [None], and nothing but [save_logs_and_release] ever
    sets it) and stores nothing; so no sequence of calls of the two
    methods ever logs or stores anything, or gives
    [current_condition_name] a value. *)
Theorem logging_never_starts (batch_size : option nat) (cs : list log_call) :
  after_log_calls batch_size cs new_logger = new_logger /\
  (forall v,
     store_log batch_size v new_logger
     = (new_logger,
        Err (TypeError
               "unsupported operand type(s) for +: 'NoneType' and 'str'"))) /\
  current_condition_name (after_log_calls batch_size cs new_logger) = None.
Proof.
  assert (Hstay : after_log_calls batch_size cs new_logger = new_logger).
  { unfold after_log_calls. induction cs as [|c cs IH]; [done|].
    cbn [foldl]. by destruct c. }
  split; [done|]. split; [done|]. by rewrite Hstay.
Qed.

(** ** The assembling loop *)

Lemma build_graph_is_record_at ea r i item s :
  build_graph ea r i item s
  = match record_at (dict_at r s) ea i item with
    | Ok rec => (set_self_data (self_data s ++ [rec]) s, Ok tt)
    | Err e => (s, Err e)
    end.
Proof.
  destruct item as [[x_ pos_] ei_].
  unfold build_graph, record_at, params_at, bind, gets, lift, modify.
  cbn [fst snd]. destruct (map_result _ (dict_at r s)) as [local|]; [|done].
  cbn [Rbind]. destruct (edge_attr_item ea i) as [o|]; [|done].
  cbn [Rbind]. by destruct (new_Data _ _ _ o local).
Qed.

(** The loop appends to [self.data] the records [graph_records] lists, in
    order, and ends as it says: the records built before a failure stay. *)
Lemma build_loop_is_graph_records ea r l : forall i s,
  for_enumerate i l (build_graph ea r) s
  = (set_self_data
       (self_data s ++ fst (graph_records (dict_at r s) ea i l)) s,
     snd (graph_records (dict_at r s) ea i l)).
Proof.
  induction l as [|item l IH]; intros i s; cbn [for_enumerate graph_records].
  - cbn. rewrite app_nil_r. by destruct s.
  - unfold bind. rewrite build_graph_is_record_at.
    destruct (record_at (dict_at r s) ea i item) as [rec|e].
    + rewrite IH. cbn [self_data set_self_data].
      change (dict_at r (set_self_data (self_data s ++ [rec]) s))
        with (dict_at r s).
      destruct (graph_records (dict_at r s) ea (S i) l) as [recs res].
      cbn [fst snd]. by rewrite <- app_assoc.
    + cbn. rewrite app_nil_r. by destruct s.
Qed.

(** Without additional parameters, and the edge attribute absent or a list
    of copies long enough, every record is a plain record. *)
Lemma graph_records_plain ea l : forall i,
  (ea = PNone \/ exists a n, ea = PList (replicate n a)
                             /\ (i + length l <= n)%nat) ->
  graph_records [] ea i l
  = (map (plain_record (match ea with
                        | PList (a :: _) => Some a
                        | _ => None
                        end)) l, Ok tt).
Proof.
  induction l as [|item l IH]; intros i Hea; [done|].
  cbn [graph_records map length] in *.
  assert (Hitem : record_at [] ea i item
                  = Ok (plain_record (match ea with
                                      | PList (a :: _) => Some a
                                      | _ => None
                                      end) item)).
  { unfold record_at, params_at. cbn [map_result Rbind].
    destruct Hea as [->|(a & n & -> & Hn)]; [done|].
    unfold edge_attr_item, py_getitem.
    rewrite lookup_replicate_2 by lia. cbn [Rbind].
    destruct n; [lia|]. done. }
  rewrite Hitem, IH; [done|].
  destruct Hea as [->|(a & n & -> & Hn)]; [by left|].
  right. exists a, n. split; [done|]. lia.
Qed.

Lemma check_and_build_edge_attr_given build ea bea L ei pos x s :
  ea <> PNone ->
  match ea with PList l => length l = L | _ => True end ->
  exists s2,
    _check_and_build_edge_attr build ea bea L ei pos x s
      = (s2, Ok (PList (replicate L ea))) /\
    heap s2 = heap s /\ self_data s2 = self_data s.
Proof.
  intros Hne Hfit.
  unfold _check_and_build_edge_attr, bind, emit, modify, ret, raise.
  destruct ea as [| | | |l| |]; try done;
    try (destruct bea; (eexists; split; [reflexivity | done])).
  cbn in Hfit. subst L. rewrite Nat.eqb_refl.
  destruct bea; (eexists; split; [reflexivity | done]).
Qed.

Section GraphPlain.

Variable to_undirected : pyval -> result pyval.

(** A construction without additional parameters whose inputs are brought
    to lists [xs], [ps], [es] by the constructor: it returns, and
    [self.data] is one plain record per index, as far as the shortest
    list goes. *)
Lemma Graph_init_plain x pos ei ea bea und custom s L ei1 xs ps es :
  _check_len_consistency (split_3d x) (split_3d pos) = Ok L ->
  make_undirected to_undirected und (split_3d ei) = Ok ei1 ->
  prepare_lists (split_3d x) (split_3d pos) ei1 L
    = Ok (PList xs, PList ps, PList es) ->
  edge_attr_fits ea bea L ->
  (length (zip3 xs ps es) <= L)%nat ->
  let construct :=
    Graph_init to_undirected x pos ei ea bea und custom PNone s in
  snd construct = Ok tt /\
  self_data (fst construct)
  = map (plain_record (given_edge_attr ea)) (zip3 xs ps es) /\
  heap (fst construct) = <[fresh (dom (heap s)) := []]> (heap s).
Proof.
  intros HL Hund Hprep Hfit Hlen construct. unfold construct.
  rewrite Graph_init_steps. cbv zeta. rewrite HL.
  cbn [_check_additional_params]. unfold new_dict.
  cbn [heap set_self_data set_heap self_data out]. rewrite Hund, Hprep.
  set (s1 := set_heap (<[fresh (dom (heap s)):=[]]> (heap s))
               (set_self_data [] s)).
  set (build := match custom with Some f => f | None => _build_edge_attr end).
  assert (Hea : exists s2 ea2,
    _check_and_build_edge_attr build ea bea L (PList es) (PList ps)
      (PList xs) s1 = (s2, Ok ea2) /\
    heap s2 = heap s1 /\ self_data s2 = [] /\
    graph_records [] ea2 0 (zip3 xs ps es)
    = (map (plain_record (given_edge_attr ea)) (zip3 xs ps es), Ok tt)).
  { assert (ea = PNone \/ ea <> PNone) as [->|Hne]
      by (destruct ea; (by left) || (by right)).
    - cbn in Hfit. subst bea. exists s1, PNone. split; [done|].
      split; [done|]. split; [done|].
      rewrite graph_records_plain by (by left). done.
    - destruct (check_and_build_edge_attr_given build ea bea L (PList es)
                  (PList ps) (PList xs) s1 Hne) as (s2 & Hrun & Hh & Hd).
      { unfold edge_attr_fits in Hfit. by destruct ea. }
      exists s2, (PList (replicate L ea)). split; [done|].
      split; [done|]. split; [done|].
      rewrite graph_records_plain
        by (right; exists ea, L; split; [done|lia]).
      destruct L as [|L].
      + destruct (zip3 xs ps es); [done | simpl in Hlen; lia].
      + cbn [replicate]. by destruct ea. }
  destruct Hea as (s2 & ea2 & -> & Hh2 & Hd2 & Hrecs).
  unfold _build_graph_list, bind, iterM. cbn [py_iter].
  rewrite build_loop_is_graph_records.
  assert (Hdict : dict_at (fresh (dom (heap s))) s2 = []).
  { unfold dict_at. rewrite Hh2. unfold s1. cbn [heap set_heap].
    by rewrite lookup_insert_eq. }
  rewrite Hdict, Hd2, Hrecs. cbn [fst snd app self_data heap set_self_data].
  by rewrite Hh2.
Qed.

End GraphPlain.

(** ** The broadcasting rules of the constructor *)

Lemma zip3_replicate_l {A B C} (x : A) (lb : list B) (lc : list C) :
  length lc = length lb ->
  zip3 (replicate (length lb) x) lb lc
  = zip_with (fun b c => (x, b, c)) lb lc.
Proof.
  revert lc. induction lb as [|b lb IH]; intros [|c lc]; try done.
  intros [= Hlen]. unfold zip3 in *. cbn. by rewrite IH.
Qed.

Lemma zip3_replicate_r {A B C} (la : list A) (y : B) (z : C) :
  zip3 la (replicate (length la) y) (replicate (length la) z)
  = map (fun a => (a, y, z)) la.
Proof.
  induction la as [|a la IH]; [done|]. unfold zip3 in *. cbn. by rewrite IH.
Qed.

Lemma zip3_map_seq {A B C} (f : nat -> A) (g : nat -> B) (h : nat -> C) l :
  zip3 (map f l) (map g l) (map h l) = map (fun i => (f i, g i, h i)) l.
Proof.
  induction l as [|i l IH]; [done|]. unfold zip3 in *. cbn. by rewrite IH.
Qed.

Section Broadcast.

Variable to_undirected : pyval -> result pyval.

(** X9.  One tensor [x] (not 3-D) with a list [pos] and a list [edge_index] of
    the same length [L]: [L] records, all with the node features of [x],
    record [i] with [pos[i]] and [edge_index[i]]. *)
Theorem single_x_is_shared_by_all_graphs
    (tx : tensor) (lp le : list pyval) (edge_attr : pyval)
    (build_edge_attr : bool)
    (custom : option (pyval -> pyval -> pyval -> result pyval)) (s : gstate) :
  ndim tx <> 3%nat ->
  length le = length lp ->
  edge_attr_fits edge_attr build_edge_attr (length lp) ->
  let construct :=
    Graph_init to_undirected (PTensor tx) (PList lp) (PList le) edge_attr
      build_edge_attr false custom PNone s in
  snd construct = Ok tt /\
  self_data (fst construct)
  = zip_with (fun p e => mkData (unwrap_label (PTensor tx)) p e
                           (given_edge_attr edge_attr) []) lp le.
Proof.
  intros Hdim Hlen Hfit construct.
  assert (Hx : split_3d (PTensor tx) = PTensor tx).
  { cbn. apply Nat.eqb_neq in Hdim. by rewrite Hdim. }
  destruct (Graph_init_plain to_undirected (PTensor tx) (PList lp) (PList le)
              edge_attr build_edge_attr false custom s (length lp) (PList le)
              (replicate (length lp) (PTensor tx)) lp le) as (Hok & Hdata & _).
  - by rewrite Hx.
  - done.
  - by rewrite Hx.
  - done.
  - rewrite zip3_replicate_l by done. rewrite length_zip_with. lia.
  - split; [exact Hok|]. unfold construct. rewrite Hdata.
    rewrite zip3_replicate_l by done. clear.
    revert le. induction lp as [|p lp IH]; intros [|e le]; try done.
    cbn. by rewrite IH.
Qed.

(** X10.  A list [x] of length [L] with one tensor [pos] (not 3-D): [L] records,
    record [i] with [x[i]], all with the same positions and the same edge
    index (a 3-D [edge_index] as the list of its slices). *)
Theorem single_pos_is_shared_by_all_graphs
    (lx : list pyval) (tp : tensor) (edge_index edge_attr : pyval)
    (build_edge_attr : bool)
    (custom : option (pyval -> pyval -> pyval -> result pyval)) (s : gstate) :
  ndim tp <> 3%nat ->
  edge_attr_fits edge_attr build_edge_attr (length lx) ->
  let construct :=
    Graph_init to_undirected (PList lx) (PTensor tp) edge_index edge_attr
      build_edge_attr false custom PNone s in
  snd construct = Ok tt /\
  self_data (fst construct)
  = map (fun x_ => mkData (unwrap_label x_) (PTensor tp) (split_3d edge_index)
                     (given_edge_attr edge_attr) []) lx.
Proof.
  intros Hdim Hfit construct.
  assert (Hp : split_3d (PTensor tp) = PTensor tp).
  { cbn. apply Nat.eqb_neq in Hdim. by rewrite Hdim. }
  destruct (Graph_init_plain to_undirected (PList lx) (PTensor tp) edge_index
              edge_attr build_edge_attr false custom s (length lx)
              (split_3d edge_index) lx (replicate (length lx) (PTensor tp))
              (replicate (length lx) (split_3d edge_index)))
    as (Hok & Hdata & _).
  - by rewrite Hp.
  - done.
  - by rewrite Hp.
  - done.
  - rewrite zip3_replicate_r, length_map. lia.
  - split; [exact Hok|]. unfold construct. rewrite Hdata.
    by rewrite zip3_replicate_r, List.map_map.
Qed.

(** X11.  One tensor [x] and one tensor [pos] (neither 3-D): exactly one
    record. *)
Theorem single_x_single_pos_is_one_graph
    (tx tp : tensor) (edge_index edge_attr : pyval) (build_edge_attr : bool)
    (custom : option (pyval -> pyval -> pyval -> result pyval)) (s : gstate) :
  ndim tx <> 3%nat -> ndim tp <> 3%nat ->
  edge_attr_fits edge_attr build_edge_attr 1 ->
  let construct :=
    Graph_init to_undirected (PTensor tx) (PTensor tp) edge_index edge_attr
      build_edge_attr false custom PNone s in
  snd construct = Ok tt /\
  self_data (fst construct)
  = [mkData (unwrap_label (PTensor tx)) (PTensor tp) (split_3d edge_index)
       (given_edge_attr edge_attr) []].
Proof.
  intros Hx Hp Hfit construct.
  assert (Hsx : split_3d (PTensor tx) = PTensor tx).
  { cbn. apply Nat.eqb_neq in Hx. by rewrite Hx. }
  assert (Hsp : split_3d (PTensor tp) = PTensor tp).
  { cbn. apply Nat.eqb_neq in Hp. by rewrite Hp. }
  destruct (Graph_init_plain to_undirected (PTensor tx) (PTensor tp)
              edge_index edge_attr build_edge_attr false custom s 1%nat
              (split_3d edge_index) [PTensor tx] [PTensor tp]
              [split_3d edge_index]) as (Hok & Hdata & _);
    rewrite ?Hsx, ?Hsp; try done.
Qed.

(** X12.  Stacked graphs: 3-D [x], [pos] and [edge_index] with the same leading
    dimension [B] give [B] records, record [i] made of the [i]-th slices;
    leading dimensions of [x] and [pos] that differ raise the
    length-mismatch error. *)
Theorem stacked_tensors_are_split
    (tx tp te : tensor) (edge_attr : pyval) (build_edge_attr : bool)
    (custom : option (pyval -> pyval -> pyval -> result pyval)) (s : gstate) :
  ndim tx = 3%nat -> ndim tp = 3%nat -> ndim te = 3%nat ->
  let construct :=
    Graph_init to_undirected (PTensor tx) (PTensor tp) (PTensor te) edge_attr
      build_edge_attr false custom PNone s in
  let B := hd 0%nat (shape tx) in
  (hd 0%nat (shape tp) <> B ->
     snd construct = Err (ValueError "x and pos must have the same length.")
     /\ self_data (fst construct) = []) /\
  (hd 0%nat (shape tp) = B -> hd 0%nat (shape te) = B ->
   edge_attr_fits edge_attr build_edge_attr B ->
     snd construct = Ok tt /\
     self_data (fst construct)
     = map (fun i => mkData (unwrap_label (PTensor (tslice tx i)))
                       (PTensor (tslice tp i)) (PTensor (tslice te i))
                       (given_edge_attr edge_attr) []) (seq 0 B)).
Proof.
  intros Hx Hp He construct B.
  assert (Hsplit : forall t, ndim t = 3%nat ->
    split_3d (PTensor t) = PList (map PTensor (tensor_unbind t))).
  { intros t Ht. cbn. by rewrite Ht. }
  assert (Hlen : forall t, length (map PTensor (tensor_unbind t))
                           = hd 0%nat (shape t)).
  { intros t. unfold tensor_unbind. by rewrite !length_map, length_seq. }
  split.
  - intros Hne. unfold construct. rewrite Graph_init_steps. cbv zeta.
    rewrite (Hsplit tx Hx), (Hsplit tp Hp). cbn [_check_len_consistency].
    rewrite !Hlen. fold B. apply not_eq_sym, Nat.eqb_neq in Hne.
    by rewrite Hne.
  - intros HBp HBe Hfit.
    destruct (Graph_init_plain to_undirected (PTensor tx) (PTensor tp)
                (PTensor te) edge_attr build_edge_attr false custom s B
                (PList (map PTensor (tensor_unbind te)))
                (map PTensor (tensor_unbind tx))
                (map PTensor (tensor_unbind tp))
                (map PTensor (tensor_unbind te))) as (Hok & Hdata & _).
    + rewrite (Hsplit tx Hx), (Hsplit tp Hp). cbn [_check_len_consistency].
      rewrite !Hlen, HBp. fold B. by rewrite Nat.eqb_refl, Nat.max_id.
    + by rewrite (Hsplit te He).
    + by rewrite (Hsplit tx Hx), (Hsplit tp Hp).
    + done.
    + unfold zip3. rewrite !length_zip_with, !Hlen. fold B. lia.
    + split; [exact Hok|]. unfold construct. rewrite Hdata.
      unfold tensor_unbind. rewrite HBp, HBe. fold B.
      rewrite !List.map_map, zip3_map_seq, List.map_map. done.
Qed.

End Broadcast.

(** The four rules at work on graphs of one node. *)
Lemma single_x_is_shared_by_all_graphs_witness :
  self_data (fst (Graph_init (fun v => Ok v) (one_node 1)
                    (PList [one_node 3; one_node 4])
                    (PList [self_edge; self_edge]) PNone false false None
                    PNone empty_state))
  = [mkData (one_node 1) (one_node 3) self_edge None [];
     mkData (one_node 1) (one_node 4) self_edge None []].
Proof.
  destruct (single_x_is_shared_by_all_graphs (fun v => Ok v)
              {| labeled := false; shape := [1%nat; 1%nat]; data := [1%Q] |}
              [one_node 3; one_node 4] [self_edge; self_edge] PNone false
              None empty_state) as [_ Hdata].
  - vm_compute. lia.
  - reflexivity.
  - reflexivity.
  - exact Hdata.
Defined.

Lemma single_pos_is_shared_by_all_graphs_witness :
  self_data (fst (Graph_init (fun v => Ok v)
                    (PList [one_node 1; one_node 2]) (one_node 3) self_edge
                    PNone false false None PNone empty_state))
  = [mkData (one_node 1) (one_node 3) self_edge None [];
     mkData (one_node 2) (one_node 3) self_edge None []].
Proof.
  destruct (single_pos_is_shared_by_all_graphs (fun v => Ok v)
              [one_node 1; one_node 2]
              {| labeled := false; shape := [1%nat; 1%nat]; data := [3%Q] |}
              self_edge PNone false None empty_state) as [_ Hdata].
  - vm_compute. lia.
  - reflexivity.
  - exact Hdata.
Defined.

Lemma single_x_single_pos_is_one_graph_witness :
  self_data (fst (Graph_init (fun v => Ok v) (one_node 1) (one_node 3)
                    self_edge PNone false false None PNone empty_state))
  = [mkData (one_node 1) (one_node 3) self_edge None []].
Proof.
  destruct (single_x_single_pos_is_one_graph (fun v => Ok v)
              {| labeled := false; shape := [1%nat; 1%nat]; data := [1%Q] |}
              {| labeled := false; shape := [1%nat; 1%nat]; data := [3%Q] |}
              self_edge PNone false None empty_state) as [_ Hdata].
  - vm_compute. lia.
  - vm_compute. lia.
  - reflexivity.
  - exact Hdata.
Defined.

Lemma stacked_tensors_are_split_witness :
  self_data (fst (Graph_init (fun v => Ok v) (PTensor (stacked_nodes 1 2))
                    (PTensor (stacked_nodes 3 4)) (PTensor stacked_edges)
                    PNone false false None PNone empty_state))
  = [mkData (one_node 1) (one_node 3) self_edge None [];
     mkData (one_node 2) (one_node 4) self_edge None []].
Proof.
  destruct (stacked_tensors_are_split (fun v => Ok v) (stacked_nodes 1 2)
              (stacked_nodes 3 4) stacked_edges PNone false None empty_state)
    as [_ Hsame]; [reflexivity..|].
  destruct Hsame as [_ Hdata]; [reflexivity..|]. exact Hdata.
Defined.

(** ** Splitting a stacked tensor *)

Lemma chunks_concat (m n : nat) : forall l : list Q,
  length l = (n * m)%nat ->
  concat (map (fun i => take m (drop (i * m) l)) (seq 0 n)) = l.
Proof.
  induction n as [|n IH]; intros l Hl.
  - by destruct l.
  - rewrite <- cons_seq, <- seq_shift. cbn [map concat].
    rewrite List.map_map, Nat.mul_0_l, drop_0.
    rewrite (map_ext _ (fun i => take m (drop (i * m) (drop m l)))).
    + rewrite IH; [apply take_drop|]. rewrite length_drop. lia.
    + intros i. by rewrite drop_drop.
Qed.

(** X13.  [[t[i] for i in range(t.shape[0])]] loses nothing: a tensor whose
    data fits its shape [n :: rest] is split into [n] slices of shape
    [rest], each with data that fits, and the slices laid end to end are
    the data of the tensor. *)
Theorem unbind_keeps_all_entries (t : tensor) (n : nat) (rest : list nat) :
  well_formed t ->
  shape t = n :: rest ->
  length (tensor_unbind t) = n /\
  Forall (fun a => shape a = rest /\ well_formed a /\ labeled a = labeled t)
    (tensor_unbind t) /\
  concat (map data (tensor_unbind t)) = data t.
Proof.
  unfold well_formed, tensor_unbind. intros Hwf Hsh. rewrite Hsh in *.
  cbn [hd numel foldr] in *. fold (numel rest) in Hwf.
  split; [by rewrite length_map, length_seq|]. split.
  - apply Forall_forall. intros a Ha. apply list_elem_of_In, in_map_iff in Ha.
    destruct Ha as (i & <- & Hi). apply in_seq in Hi.
    unfold tslice. rewrite Hsh. cbn [tail shape data labeled].
    split; [done|]. split; [|done].
    rewrite length_take, length_drop, Hwf. nia.
  - rewrite List.map_map. unfold tslice. rewrite Hsh. cbn [tail data].
    apply chunks_concat. lia.
Qed.

Lemma unbind_keeps_all_entries_witness :
  concat (map data (tensor_unbind (stacked_nodes 1 2)))
  = data (stacked_nodes 1 2).
Proof.
  destruct (unbind_keeps_all_entries (stacked_nodes 1 2) 2 [1%nat; 1%nat])
    as (_ & _ & Hcat).
  - reflexivity.
  - reflexivity.
  - exact Hcat.
Defined.

(** ** The expander of additional parameters, on failure and on reuse *)

Lemma expand_loop_rest r L suf : forall pre rest s,
  heap s !! r = Some (pre ++ suf ++ rest) ->
  NoDup (keys (pre ++ suf ++ rest)) ->
  Forall (fun kv => tensor_or_list (snd kv) = true) suf ->
  for_each suf (expand_param r L) s
  = (set_heap (<[r := pre ++ map (expand_entry L) suf ++ rest]> (heap s)) s,
     Ok tt).
Proof.
  induction suf as [|[k v] suf IH]; intros pre rest s Hr Hnd Hok;
    cbn [for_each map app].
  - unfold ret. cbn [app] in Hr. by rewrite (insert_id _ _ _ Hr), set_heap_same.
  - apply Forall_cons in Hok as [Hv Hok]. simpl in Hv.
    assert (Hfresh : k ∉ keys pre).
    { unfold keys in *. rewrite map_app in Hnd.
      apply NoDup_app in Hnd as (_ & Hdis & _). intros Hin.
      apply (Hdis k Hin). simpl. left. }
    assert (Hget : dict_get (pre ++ ((k, v) :: suf) ++ rest) k = Some v).
    { rewrite dict_get_app_fresh by done. simpl. by rewrite String.eqb_refl. }
    unfold bind. rewrite (expand_param_spec r L k v s _ Hr Hget Hv).
    rewrite dict_set_app_fresh by done. cbn [dict_set app].
    rewrite String.eqb_refl.
    rewrite (IH (pre ++ [(k, expand_value L v)]) rest).
    + cbn [heap set_heap]. rewrite insert_insert_eq.
      by rewrite <- app_assoc.
    + cbn [heap set_heap]. rewrite lookup_insert_eq. by rewrite <- app_assoc.
    + unfold keys in *. rewrite <- app_assoc. cbn [app] in *.
      by rewrite map_app in Hnd |- *.
    + done.
Qed.

Lemma expand_value_twice L L' v :
  tensor_or_list v = true ->
  expand_value L' (expand_value L v) = expand_value L v /\
  tensor_or_list (expand_value L v) = true.
Proof.
  destruct v as [| | |t|l| |]; try done. intros _. unfold expand_value.
  destruct (ndim t =? 3)%nat eqn:E3; [done|].
  destruct (ndim t =? 2)%nat eqn:E2; [done|].
  destruct (ndim t =? 1)%nat eqn:E1.
  - by destruct (hd 0%nat (shape t) =? L)%nat.
  - by rewrite E3, E2, E1.
Qed.

Section ExpanderFailure.

Variable to_undirected : pyval -> result pyval.

(** X14.  A value that is neither a tensor nor a list stops the construction
    with a [TypeError] before any record is built; the entries that come
    before it in the caller's dictionary are already rewritten, the later
    ones are not, and no other dictionary is touched. *)
Theorem bad_parameter_leaves_dict_half_rewritten
    (x pos edge_index edge_attr : pyval) (build_edge_attr undirected : bool)
    (custom : option (pyval -> pyval -> pyval -> result pyval))
    (r : loc) (good rest : pydict) (k : string) (v : pyval)
    (s : gstate) (L : nat) :
  heap s !! r = Some (good ++ (k, v) :: rest) ->
  NoDup (keys (good ++ (k, v) :: rest)) ->
  Forall (fun kv => tensor_or_list (snd kv) = true) good ->
  tensor_or_list v = false ->
  _check_len_consistency (split_3d x) (split_3d pos) = Ok L ->
  Graph_init to_undirected x pos edge_index edge_attr build_edge_attr
    undirected custom (PDict r) s
  = (set_self_data []
       (set_heap (<[r := map (expand_entry L) good ++ (k, v) :: rest]>
                    (heap s)) s),
     Err (TypeError
            "additional_params values must be tensors or lists of tensors.")).
Proof.
  intros Hr Hnd Hgood Hbad HL.
  rewrite Graph_init_steps. cbv zeta. rewrite HL.
  unfold _check_additional_params, bind, gets, dict_at.
  cbn [heap set_self_data]. rewrite Hr. cbn [from_option id].
  rewrite for_each_app.
  rewrite (expand_loop_rest r L good [] ((k, v) :: rest)); [| done..].
  cbn [app for_each]. unfold bind.
  destruct v as [| | |t|l| |]; try done.
Qed.

End ExpanderFailure.

Lemma bad_parameter_leaves_dict_half_rewritten_witness :
  Graph_init (fun v => Ok v) (one_node 1)
    (PList [one_node 3; one_node 4]) (PList [self_edge; self_edge])
    PNone false false None (PDict 0%nat) (state_with 0%nat half_good_params)
  = (state_with 0%nat
       [("a", PList [one_node 1; one_node 1]); ("b", PInt 0);
        ("c", one_node 2)],
     Err (TypeError
            "additional_params values must be tensors or lists of tensors.")).
Proof.
  rewrite (bad_parameter_leaves_dict_half_rewritten (fun v => Ok v)
             (one_node 1) (PList [one_node 3; one_node 4])
             (PList [self_edge; self_edge]) PNone false false None 0%nat
             [("a", one_node 1)] [("c", one_node 2)] "b" (PInt 0)
             (state_with 0%nat half_good_params) 2%nat).
  - unfold state_with, set_self_data, set_heap. cbn [heap self_data out].
    by rewrite insert_singleton_eq.
  - reflexivity.
  - apply (bool_decide_unpack (NoDup (keys half_good_params))). reflexivity.
  - repeat constructor.
  - reflexivity.
  - reflexivity.
Defined.

(** X15.  Running the expander again on a dictionary it has already
    rewritten, for any number of graphs, changes nothing: after the first
    run every value is its expansion (a tensor of one, two or three
    dimensions has become a list, every other value is as it was), and the
    second run takes all of them as they are. *)
Theorem second_expansion_changes_nothing
    (r : loc) (d : pydict) (s : gstate) (L L' : nat) :
  heap s !! r = Some d ->
  NoDup (keys d) ->
  Forall (fun kv => tensor_or_list (snd kv) = true) d ->
  let s1 := fst (_check_additional_params (PDict r) L s) in
  dict_at r s1 = map (expand_entry L) d /\
  _check_additional_params (PDict r) L' s1 = (s1, Ok r).
Proof.
  intros Hr Hnd Hok s1. unfold s1.
  rewrite (check_additional_params_dict r L d s Hr Hnd Hok). cbn [fst].
  set (d1 := map (expand_entry L) d).
  assert (Hr1 : heap (set_heap (<[r := d1]> (heap s)) s) !! r = Some d1).
  { cbn [heap set_heap]. by rewrite lookup_insert_eq. }
  split; [unfold dict_at; by rewrite Hr1|].
  rewrite (check_additional_params_dict r L' d1 _ Hr1).
  - cbn [heap set_heap]. rewrite insert_insert_eq. unfold d1.
    rewrite List.map_map.
    rewrite (map_ext_Forall _ (expand_entry L)); [done|].
    eapply Forall_impl; [exact Hok|]. intros [k v] Hv. cbn in Hv.
    unfold expand_entry. cbn [fst snd].
    by rewrite (proj1 (expand_value_twice L L' v Hv)).
  - unfold d1, keys. rewrite List.map_map. cbn [expand_entry fst]. done.
  - unfold d1. apply Forall_forall. intros kv Hin.
    apply list_elem_of_In, in_map_iff in Hin as ([k v] & <- & Hin).
    cbn [expand_entry fst snd].
    rewrite Forall_forall in Hok.
    apply (expand_value_twice L L' v), (Hok (k, v)). by apply list_elem_of_In.
Qed.

Lemma second_expansion_changes_nothing_witness :
  let s1 := fst (_check_additional_params (PDict 0%nat) 2
                   (state_with 0%nat [("a", one_node 1)])) in
  dict_at 0%nat s1 = [("a", PList [one_node 1; one_node 1])] /\
  _check_additional_params (PDict 0%nat) 3 s1 = (s1, Ok 0%nat).
Proof.
  apply (second_expansion_changes_nothing 0%nat [("a", one_node 1)]
           (state_with 0%nat [("a", one_node 1)]) 2 3).
  - reflexivity.
  - apply (bool_decide_unpack (NoDup ["a"])). reflexivity.
  - repeat constructor.
Defined.

(** ** Additional parameters in the records *)

Lemma graph_records_one_list k lv l : forall i,
  k ∉ ["x"; "pos"; "edge_index"] ->
  (i <= length lv)%nat ->
  graph_records [(k, PList lv)] PNone i l
  = (map (keyed_record k) (zip l (drop i lv)),
     ends_after (i + length l) (length lv)).
Proof.
  intros i Hk. revert i.
  induction l as [|item l IH]; intros i Hi; cbn [graph_records length].
  - unfold ends_after. rewrite Nat.add_0_r.
    apply Nat.leb_le in Hi. by rewrite Hi.
  - unfold record_at, params_at. cbn [map_result fst snd py_getitem].
    destruct (lv !! i) as [vi|] eqn:Elook.
    + cbn [Rbind edge_attr_item]. unfold new_Data. cbn [app forallb fst].
      rewrite bool_decide_eq_false_2 by done. cbn [negb andb].
      apply lookup_lt_Some in Elook as Hlt.
      rewrite IH by lia. rewrite (drop_S _ _ _ Elook). cbn [zip zip_with map].
      unfold ends_after. by replace (S i + length l)%nat
                              with (i + S (length l))%nat by lia.
    + cbn [Rbind]. apply lookup_ge_None in Elook.
      rewrite drop_ge by lia. unfold ends_after.
      destruct (i + S (length l) <=? length lv)%nat eqn:E;
        [apply Nat.leb_le in E; lia|]. by destruct l.
Qed.

Section GraphParams.

Variable to_undirected : pyval -> result pyval.

(** A construction with a dictionary of tensors and lists, without edge
    attributes: the run of the constructor is the run of the assembling
    loop on the rewritten dictionary. *)
Lemma Graph_init_params x pos ei und custom r d s L ei1 xs ps es :
  heap s !! r = Some d -> NoDup (keys d) ->
  Forall (fun kv => tensor_or_list (snd kv) = true) d ->
  _check_len_consistency (split_3d x) (split_3d pos) = Ok L ->
  make_undirected to_undirected und (split_3d ei) = Ok ei1 ->
  prepare_lists (split_3d x) (split_3d pos) ei1 L
    = Ok (PList xs, PList ps, PList es) ->
  let run := graph_records (map (expand_entry L) d) PNone 0 (zip3 xs ps es) in
  Graph_init to_undirected x pos ei PNone false und custom (PDict r) s
  = (set_self_data (fst run)
       (set_heap (<[r := map (expand_entry L) d]> (heap s)) s), snd run).
Proof.
  intros Hr Hnd Hok HL Hund Hprep run.
  rewrite Graph_init_steps. cbv zeta. rewrite HL.
  rewrite (check_additional_params_dict r L d (set_self_data [] s) Hr Hnd Hok).
  rewrite Hund, Hprep.
  unfold _check_and_build_edge_attr, ret.
  unfold _build_graph_list, bind, iterM. cbn [py_iter].
  rewrite build_loop_is_graph_records.
  unfold dict_at. cbn [heap set_heap set_self_data self_data app].
  rewrite lookup_insert_eq. cbn [from_option id]. done.
Qed.

Lemma Graph_init_one_list lx lp le lv k custom r s :
  heap s !! r = Some [(k, PList lv)] ->
  k ∉ ["x"; "pos"; "edge_index"] ->
  length lx = length lp -> length le = length lp ->
  Graph_init to_undirected (PList lx) (PList lp) (PList le) PNone false
    false custom (PDict r) s
  = (set_self_data (map (keyed_record k) (zip (zip3 lx lp le) lv)) s,
     ends_after (length lp) (length lv)).
Proof.
  intros Hr Hk Hx He.
  rewrite (Graph_init_params (PList lx) (PList lp) (PList le) false custom r
             [(k, PList lv)] s (length lp) (PList le) lx lp le);
    try done.
  - change (map (expand_entry (length lp)) [(k, PList lv)])
      with [(k, PList lv)].
    rewrite graph_records_one_list by (done || lia).
    rewrite drop_0. cbn [fst snd].
    rewrite (insert_id _ _ _ Hr), set_heap_same. f_equal.
    f_equal. unfold zip3. rewrite !length_zip_with. lia.
  - apply NoDup_singleton.
  - by repeat constructor.
  - cbn. rewrite Hx, Nat.eqb_refl. cbn. by rewrite Nat.max_id.
Qed.

(** X16.  A list given as additional parameter is read at the index of the
    graph: record [i] holds [v[i]] under the key.  When the list is
    shorter than the lists of the graphs the construction ends with an
    [IndexError], and the records built until then stay in [self.data]. *)
Theorem list_parameter_is_read_per_graph
    (lx lp le lv : list pyval) (k : string)
    (custom : option (pyval -> pyval -> pyval -> result pyval))
    (r : loc) (s : gstate) :
  heap s !! r = Some [(k, PList lv)] ->
  k ∉ ["x"; "pos"; "edge_index"] ->
  length lx = length lp -> length le = length lp ->
  let construct :=
    Graph_init to_undirected (PList lx) (PList lp) (PList le) PNone false
      false custom (PDict r) s in
  self_data (fst construct) = map (keyed_record k) (zip (zip3 lx lp le) lv) /\
  heap (fst construct) = heap s /\
  ((length lp <= length lv)%nat ->
     snd construct = Ok tt /\
     length (self_data (fst construct)) = length lp) /\
  ((length lv < length lp)%nat ->
     snd construct = Err (IndexError "index out of range") /\
     length (self_data (fst construct)) = length lv).
Proof.
  intros Hr Hk Hx He construct. unfold construct.
  rewrite (Graph_init_one_list lx lp le lv k custom r s) by done.
  cbn [fst snd self_data set_self_data heap]. unfold ends_after, zip3.
  split; [done|]. split; [done|].
  rewrite length_map, !length_zip_with.
  split; intros Hlen.
  - apply Nat.leb_le in Hlen as Hleb. rewrite Hleb. split; [done|lia].
  - apply Nat.leb_gt in Hlen as Hleb. rewrite Hleb. split; [done|lia].
Qed.

(** X17.  A temporal graph over lists of the same length [L], with the edge
    indices given or computed from a radius: the length of [pos] is
    printed, a new dictionary [{'t': t}] is made, and record [i] holds
    [x[i]], [pos[i]], its edge index and [t[i]] under the key ['t']. *)
Theorem temporal_graph_records
    (lx lp lt le : list pyval) (edge_index : pyval) (r : option Q)
    (s : gstate) :
  length lx = length lp -> length lt = length lp ->
  (edge_index = PList le /\ length le = length lp) \/
  (edge_index = PNone /\ map_result (radius_graph_opt r) lp = Ok le) ->
  TemporalGraph_init to_undirected (PList lx) (PList lp) (PList lt)
    edge_index PNone false false r s
  = ({| heap := <[fresh (dom (heap s)) := [("t", PList lt)]]> (heap s);
        self_data := map (keyed_record "t") (zip (zip3 lx lp le) lt);
        out := out s ++ [Print (length lp)] |},
     Ok tt).
Proof.
  intros Hx Ht Hei.
  assert (Hle : length le = length lp).
  { destruct Hei as [[_ H]|[_ H]]; [done|].
    by apply map_result_length in H. }
  unfold TemporalGraph_init, _check_input_consistency.
  cbn [split_3d]. unfold bind at 1. unfold lenM at 1. cbn [py_len].
  unfold bind at 1. unfold emit at 1, modify.
  assert (Hrun : forall (k : pyval -> M gstate unit) s0,
    bind (match split_3d edge_index with
          | PNone => let* ps := iterM (PList lp) in
                     let* l := lift (map_result (radius_graph_opt r) ps)
                     in ret (PList l)
          | _ => ret (split_3d edge_index)
          end) k s0 = k (PList le) s0).
  { intros k s0. destruct Hei as [[-> _]|[-> H]]; [done|].
    unfold bind, iterM, lift, ret. cbn [py_iter split_3d]. by rewrite H. }

  rewrite Hrun. unfold bind at 1. unfold new_dict at 1.
  unfold bind at 1. unfold _check_time_consistency, bind, lenM.
  cbn [py_len heap set_heap]. rewrite Ht, Nat.eqb_refl. cbn [negb].
  unfold ret.
  rewrite (Graph_init_one_list lx lp le lt "t" None); try done.
  - unfold ends_after. rewrite Ht, Nat.leb_refl. done.
  - cbn [heap set_heap]. by rewrite lookup_insert_eq.
  - apply (bool_decide_unpack ("t" ∉ ["x"; "pos"; "edge_index"])).
    reflexivity.
Qed.

End GraphParams.

Lemma list_parameter_is_read_per_graph_witness :
  let construct :=
    Graph_init (fun v => Ok v) (PList [one_node 1; one_node 2])
      (PList [one_node 3; one_node 4]) (PList [self_edge; self_edge]) PNone
      false false None (PDict 0%nat)
      (state_with 0%nat [("t", PList [PInt 7])]) in
  self_data (fst construct)
  = [mkData (one_node 1) (one_node 3) self_edge None [("t", PInt 7)]] /\
  snd construct = Err (IndexError "index out of range").
Proof.
  destruct (list_parameter_is_read_per_graph (fun v => Ok v)
              [one_node 1; one_node 2] [one_node 3; one_node 4]
              [self_edge; self_edge] [PInt 7] "t" None 0%nat
              (state_with 0%nat [("t", PList [PInt 7])]))
    as (Hdata & _ & _ & Hshort).
  - reflexivity.
  - apply (bool_decide_unpack ("t" ∉ ["x"; "pos"; "edge_index"])).
    reflexivity.
  - reflexivity.
  - reflexivity.
  - split; [exact Hdata|]. apply Hshort. simpl. lia.
Defined.


Lemma temporal_graph_records_witness :
  TemporalGraph_init (fun v => Ok v) (PList [one_node 1; one_node 2])
    (PList [one_node 3; one_node 4]) (PList [PInt 7; PInt 8]) PNone PNone
    false false (Some 1%Q) empty_state
  = ({| heap := {[ 0%nat := [("t", PList [PInt 7; PInt 8])] ]};
        self_data :=
          [mkData (one_node 1) (one_node 3) self_edge None [("t", PInt 7)];
           mkData (one_node 2) (one_node 4) self_edge None [("t", PInt 8)]];
        out := [Print 2] |},
     Ok tt).
Proof.
  apply (temporal_graph_records (fun v => Ok v) [one_node 1; one_node 2]
           [one_node 3; one_node 4] [PInt 7; PInt 8] [self_edge; self_edge]
           PNone (Some 1%Q) empty_state).
  - reflexivity.
  - reflexivity.
  - right. split; reflexivity.
Defined.

(** ** The default edge attribute *)

Lemma Q_to_index_entry N i :
  (i < N)%nat -> Q_to_index N (index_entry i) = Some i.
Proof.
  intros Hi. unfold Q_to_index, index_entry. cbn [inject_Z Qnum Qden].
  rewrite Z.mod_1_r, Z.div_1_r. cbn [Z.eqb negb].
  replace (0 <=? Z.of_nat i)%Z with true by (symmetry; apply Z.leb_le; lia).
  replace (Z.of_nat i <? Z.of_nat N)%Z with true
    by (symmetry; apply Z.ltb_lt; lia).
  by rewrite Nat2Z.id.
Qed.

Lemma gather_rows_entries p N idx :
  Forall (fun i => (i < N)%nat) idx ->
  gather_rows p N (map index_entry idx)
  = Ok (flat_map (fun i => data (tslice p i)) idx).
Proof.
  induction 1 as [|i idx Hi _ IH]; [done|].
  cbn [map gather_rows flat_map]. by rewrite Q_to_index_entry, IH.
Qed.

Lemma edge_tensor_rows row col :
  length row = length col ->
  py_getitem (edge_tensor (row, col)) 0
  = Ok (PTensor {| labeled := false; shape := [length row];
                   data := map index_entry row |}) /\
  py_getitem (edge_tensor (row, col)) 1
  = Ok (PTensor {| labeled := false; shape := [length row];
                   data := map index_entry col |}).
Proof.
  intros Hlen. unfold edge_tensor, py_getitem, tensor_getitem, tslice.
  cbn [shape data labeled fst snd tail numel foldr Nat.ltb Nat.leb Rbind].
  rewrite Nat.mul_1_r, Nat.mul_0_l, Nat.mul_1_l, drop_0, map_app.
  split; do 3 f_equal.
  - apply take_app_length'. by rewrite length_map.
  - rewrite drop_app_length' by (by rewrite length_map).
    apply firstn_all2. rewrite length_map. lia.
Qed.

Lemma tslice_row_length p N D i :
  well_formed p -> shape p = [N; D] -> (i < N)%nat ->
  length (data (tslice p i)) = D.
Proof.
  unfold well_formed, tslice. intros Hwf Hsh Hi. rewrite Hsh in *.
  cbn [tail numel foldr data] in *.
  rewrite length_take, length_drop, Hwf. nia.
Qed.

Lemma abs_of_difference (a : list Q) : forall b,
  map Qabs (zip_with Qminus a b) = zip_with (fun x y => Qabs (x - y)) a b.
Proof.
  induction a as [|x a IH]; intros [|y b]; try done.
  cbn [zip_with map]. by rewrite IH.
Qed.

Lemma difference_by_edge (f : nat -> list Q) D (row : list nat) : forall col,
  length row = length col ->
  Forall (fun i => length (f i) = D) row ->
  Forall (fun i => length (f i) = D) col ->
  zip_with (fun x y => Qabs (x - y)) (flat_map f row) (flat_map f col)
  = flat_map (fun e => zip_with (fun x y => Qabs (x - y)) (f e.1) (f e.2))
      (zip row col).
Proof.
  induction row as [|i row IH]; intros [|j col] Hlen Hrow Hcol; try done.
  apply Forall_cons in Hrow as [Hi Hrow]. apply Forall_cons in Hcol as [Hj Hcol].
  cbn [flat_map zip zip_with fst snd].
  rewrite zip_with_app by congruence.
  f_equal. apply IH; [by injection Hlen|done..].
Qed.

(** X21.  The default edge attribute of a graph with [N] points of [D]
    coordinates and [E] edges between valid nodes is the [E]×[D] tensor
    whose row for an edge holds the absolute differences of the
    coordinates of its two ends; the node features play no part. *)
Theorem default_edge_attr_is_coordinate_distance
    (x : pyval) (p : tensor) (N D : nat) (row col : list nat) :
  well_formed p -> shape p = [N; D] ->
  length row = length col ->
  Forall (fun i => (i < N)%nat) row -> Forall (fun i => (i < N)%nat) col ->
  _build_edge_attr x (PTensor p) (edge_tensor (row, col))
  = Ok (PTensor {| labeled := labeled p; shape := [length row; D];
                   data := flat_map (edge_difference p) (zip row col) |}).
Proof.
  intros Hwf Hsh Hlen Hrow Hcol. unfold _build_edge_attr.
  destruct (edge_tensor_rows row col Hlen) as [-> ->]. cbn [Rbind].
  unfold py_index. rewrite Hsh. cbn [data shape].
  rewrite !gather_rows_entries by done. cbn [Rbind app].
  unfold py_sub. cbn [shape data labeled].
  rewrite bool_decide_eq_true_2 by done. cbn [Rbind py_abs shape data labeled].
  do 3 f_equal. rewrite abs_of_difference.
  apply (difference_by_edge (fun i => data (tslice p i)) D); [done|..];
    (eapply Forall_impl; [eassumption|]); intros i Hi;
    by apply (tslice_row_length p N D).
Qed.

Lemma default_edge_attr_is_coordinate_distance_witness :
  _build_edge_attr PNone two_points (edge_tensor ([0; 1]%nat, [1; 0]%nat))
  = Ok (PTensor {| labeled := false; shape := [2%nat; 2%nat];
                   data := [3%Q; 4%Q; 3%Q; 4%Q] |}).
Proof.
  apply (default_edge_attr_is_coordinate_distance PNone
           {| labeled := false; shape := [2%nat; 2%nat];
              data := [0%Q; 0%Q; 3%Q; 4%Q] |} 2 2 [0; 1]%nat [1; 0]%nat).
  - reflexivity.
  - reflexivity.
  - reflexivity.
  - repeat constructor.
  - repeat constructor.
Defined.

(** ** The subclasses *)

Lemma map_result_map {A B C} (f : A -> result B) (g : B -> C) (l : list A) :
  forall bs, map_result f l = Ok bs ->
  map_result (fun a => let+ b := f a in Ok (g b)) l = Ok (map g bs).
Proof.
  induction l as [|a l IH]; intros bs; cbn [map_result].
  - by intros [= <-].
  - destruct (f a) as [b|]; [|done]. cbn [Rbind].
    destruct (map_result f l) as [bs'|]; [|done]. intros [= <-].
    by rewrite (IH bs').
Qed.

Lemma knn_graph_too_few (points : list point) (k : nat) :
  (length points <= k)%nat ->
  _knn_graph points k = Err (RuntimeError "selected index k out of range").
Proof.
  intros Hk. unfold _knn_graph, topk_indices.
  replace (k + 1 <=? length points)%nat with false
    by (symmetry; apply Nat.leb_gt; lia).
  done.
Qed.

Section SubclassRuns.

Variable to_undirected : pyval -> result pyval.

(** X22.  A radius graph over a list of feature tensors and a list of position
    tensors of the same length, every position a 2-D tensor: one record
    per index, whose edge index is the radius graph of its own positions;
    no edge attribute, no additional parameter. *)
Theorem radius_graph_records
    (lx lp : list pyval) (pts : list (list point)) (r : Q)
    (custom : option (pyval -> pyval -> pyval -> result pyval)) (s : gstate) :
  length lx = length lp ->
  map_result rows_of lp = Ok pts ->
  let construct :=
    RadiusGraph_init to_undirected (PList lx) (PList lp) r PNone false false
      custom PNone s in
  snd construct = Ok tt /\
  self_data (fst construct)
  = map (plain_record None)
      (zip3 lx lp (map (fun p => edge_tensor (_radius_graph p r)) pts)).
Proof.
  intros Hlen Hrows construct.
  set (le := map (fun p => edge_tensor (_radius_graph p r)) pts).
  assert (Hedges : map_result (radius_graph_of r) lp = Ok le).
  { unfold radius_graph_of. by apply map_result_map. }
  assert (Hrun : construct
    = Graph_init to_undirected (PList lx) (PList lp) (PList le) PNone false
        false custom PNone s).
  { unfold construct, RadiusGraph_init.
    cbn [_check_input_consistency split_3d edges_for is_tensor].
    unfold bind at 1. unfold bind at 1. unfold iterM at 1. cbn [py_iter].
    unfold bind at 1. unfold lift at 1. by rewrite Hedges. }
  assert (Hle : length le = length lp).
  { unfold le. rewrite length_map.
    by apply (map_result_length rows_of). }
  rewrite Hrun.
  destruct (Graph_init_plain to_undirected (PList lx) (PList lp) (PList le)
              PNone false false custom s (length lp) (PList le) lx lp le)
    as (Hok & Hdata & _); try done.
  - cbn. rewrite Hlen, Nat.eqb_refl. cbn. by rewrite Nat.max_id.
  - unfold zip3. rewrite !length_zip_with. lia.
Qed.

(** X23.  A k-nearest-neighbours graph over a list of position tensors, one of
    which has no more than [k] points: the construction fails with the
    [RuntimeError] of the selection before the base constructor runs, so
    nothing of the state changes. *)
Theorem knn_graph_needs_more_points
    (x : pyval) (lp : list pyval) (pts : list (list point)) (k : nat)
    (edge_attr : pyval) (build_edge_attr undirected : bool)
    (custom : option (pyval -> pyval -> pyval -> result pyval))
    (additional_params : pyval) (s : gstate) :
  map_result rows_of lp = Ok pts ->
  Exists (fun p => (length p <= k)%nat) pts ->
  KNNGraph_init to_undirected x (PList lp) k edge_attr build_edge_attr
    undirected custom additional_params s
  = (s, Err (RuntimeError "selected index k out of range")).
Proof.
  intros Hrows Hfew. unfold KNNGraph_init.
  cbn [_check_input_consistency split_3d edges_for is_tensor].
  unfold bind at 1. unfold bind at 1. unfold iterM at 1. cbn [py_iter].
  unfold bind at 1. unfold lift at 1.
  assert (Hedges : map_result (knn_graph_of k) lp
    = Err (RuntimeError "selected index k out of range")).
  { clear -Hrows Hfew. revert lp Hrows.
    induction Hfew as [p pts Hp|p pts _ IH]; intros [|a lp]; try done;
      cbn [map_result]; destruct (rows_of a) as [q|] eqn:Ea; try done;
      destruct (map_result rows_of lp) as [qs|] eqn:El; try done;
      intros [= -> ->]; unfold knn_graph_of at 1; rewrite Ea; cbn [Rbind].
    - by rewrite knn_graph_too_few.
    - destruct (_knn_graph p k) as [rc|e] eqn:Ek; cbn [Rbind].
      + by rewrite (IH lp El).
      + unfold _knn_graph, topk_indices in Ek.
        destruct (k + 1 <=? length p)%nat; [done|]. by injection Ek as <-. }
  by rewrite Hedges.
Qed.

End SubclassRuns.

Lemma radius_graph_records_witness :
  self_data (fst (RadiusGraph_init (fun v => Ok v)
                    (PList [one_node 1; one_node 2])
                    (PList [one_node 3; one_node 4]) 1 PNone false false
                    None PNone empty_state))
  = [mkData (one_node 1) (one_node 3) self_edge None [];
     mkData (one_node 2) (one_node 4) self_edge None []].
Proof.
  destruct (radius_graph_records (fun v => Ok v) [one_node 1; one_node 2]
              [one_node 3; one_node 4] [[[3%Q]]; [[4%Q]]] 1 None empty_state)
    as [_ Hdata].
  - reflexivity.
  - reflexivity.
  - exact Hdata.
Defined.

Lemma knn_graph_needs_more_points_witness :
  KNNGraph_init (fun v => Ok v) (one_node 1) (PList [two_points; one_node 3])
    1 PNone false false None PNone empty_state
  = (empty_state, Err (RuntimeError "selected index k out of range")).
Proof.
  apply (knn_graph_needs_more_points (fun v => Ok v) (one_node 1)
           [two_points; one_node 3] [[[0%Q; 0%Q]; [3%Q; 4%Q]]; [[3%Q]]] 1).
  - reflexivity.
  - apply Exists_cons_tl, Exists_cons_hd. simpl. lia.
Defined.

(** ** [AbstractProblem]: sampling the domains *)

Section ProblemFacts.

Context {Domain Equation Other Points : Type}.
Variable sample : Domain -> nat -> string -> vars_arg -> result Points.
Variable check_consistency : vars_arg -> domains_arg -> result unit.

Abbreviation problem := (abstract_problem Domain Equation Other Points).

Lemma discretise_loop n mode variables names : forall pb : problem,
  Forall (can_sample sample pb n mode variables) names ->
  exists m,
    for_each names (discretise_one sample n mode variables) pb
    = (set_discretised m pb, Ok tt) /\
    (forall k, k ∈ names -> is_Some (m !! k)) /\
    (forall k, k ∉ names -> m !! k = discretised_domains pb !! k).
Proof.
  induction names as [|k names IH]; intros pb Hall; cbn [for_each].
  - exists (discretised_domains pb). split; [by destruct pb|].
    split; [|done]. by intros k ?%elem_of_nil.
  - apply Forall_cons in Hall as [(d & pts & Hd & Hs) Hall].
    unfold bind at 1. unfold discretise_one at 1, bind, gets, lift, modify.
    rewrite Hd, Hs.
    set (pb1 := set_discretised (<[k:=pts]> (discretised_domains pb)) pb).
    destruct (IH pb1) as (m & Hrun & Hin & Hout); [done|].
    exists m. split; [by rewrite Hrun|]. split.
    + intros k' [->|Hk']%elem_of_cons; [|by apply Hin].
      destruct (decide (k ∈ names)) as [Hk|Hk]; [by apply Hin|].
      rewrite (Hout k Hk). unfold pb1. cbn [discretised_domains set_discretised].
      by rewrite lookup_insert_eq.
    + intros k' [Hne Hk']%not_elem_of_cons. rewrite (Hout k' Hk').
      unfold pb1. cbn [discretised_domains set_discretised].
      by rewrite lookup_insert_ne.
Qed.

Lemma discretise_domain_steps n mode variables domains_ (pb : problem) :
  check_consistency variables domains_ = Ok tt ->
  discretise_domain sample check_consistency n mode variables domains_ pb
  = for_each (resolve_domains pb domains_)
      (discretise_one sample n mode (resolve_variables pb variables))
      {| p_conditions := p_conditions pb; domains := domains pb;
         discretised_domains := discretised_domains pb;
         _batching_dimension := _batching_dimension _ _ _ _ pb;
         spatial_variables := spatial_variables _ _ _ _ pb;
         temporal_variable := temporal_variable _ _ _ _ pb;
         parameters := parameters _ _ _ _ pb;
         printed := printed pb
                    ++ [PrintNames (resolve_domains pb domains_)]
                    ++ [PrintDomains (keys (domains pb))] |}.
Proof.
  intros Hcheck. unfold discretise_domain, bind, lift, gets, print_problem,
    modify. rewrite Hcheck. cbn [domains printed]. by rewrite <- app_assoc.
Qed.

(** X24.  When the arguments pass the type checks and every requested domain
    is known and can be sampled, [discretise_domain] returns; every
    requested domain is then discretised, no other entry of
    [discretised_domains] has changed and the domains are as before.
    Requested with ["all"], every domain of the problem is discretised. *)
Theorem discretise_domain_covers_request
    (n : nat) (mode : string) (variables : vars_arg) (domains_ : domains_arg)
    (pb : problem) :
  check_consistency variables domains_ = Ok tt ->
  Forall (can_sample sample pb n mode (resolve_variables pb variables))
    (resolve_domains pb domains_) ->
  let run := discretise_domain sample check_consistency n mode variables
               domains_ pb in
  snd run = Ok tt /\
  domains (fst run) = domains pb /\
  (forall k, k ∈ resolve_domains pb domains_ ->
             is_Some (discretised_domains (fst run) !! k)) /\
  (forall k, k ∉ resolve_domains pb domains_ ->
             discretised_domains (fst run) !! k
             = discretised_domains pb !! k) /\
  (domains_ = DStr "all" -> are_all_domains_discretised (fst run) = true).
Proof.
  intros Hcheck Hall run. unfold run.
  rewrite (discretise_domain_steps _ _ _ _ _ Hcheck).
  match goal with |- context [for_each _ _ ?p] => set (pb0 := p) end.
  destruct (discretise_loop n mode (resolve_variables pb variables)
              (resolve_domains pb domains_) pb0 Hall)
    as (m & -> & Hin & Hout).
  cbn [fst snd domains discretised_domains set_discretised].
  split; [done|]. split; [done|]. split; [exact Hin|]. split; [exact Hout|].
  intros ->. unfold are_all_domains_discretised.
  cbn [domains discretised_domains set_discretised].
  apply forallb_forall. intros k Hk. apply bool_decide_eq_true_2, Hin.
  cbn [resolve_domains]. by apply list_elem_of_In.
Qed.

(** X25.  A requested domain the problem does not know stops the sampling with
    a [KeyError] on its name; the domains requested before it are already
    discretised, and nothing else has changed in [discretised_domains]. *)
Theorem unknown_domain_stops_sampling
    (n : nat) (mode : string) (variables : vars_arg) (domains_ : domains_arg)
    (pb : problem) (before after : list string) (k : string) :
  check_consistency variables domains_ = Ok tt ->
  resolve_domains pb domains_ = before ++ k :: after ->
  Forall (can_sample sample pb n mode (resolve_variables pb variables)) before ->
  dict_get (domains pb) k = None ->
  let run := discretise_domain sample check_consistency n mode variables
               domains_ pb in
  snd run = Err (KeyError k) /\
  (forall k', k' ∈ before -> is_Some (discretised_domains (fst run) !! k')) /\
  (forall k', k' ∉ before ->
              discretised_domains (fst run) !! k'
              = discretised_domains pb !! k').
Proof.
  intros Hcheck Hnames Hall Hk run. unfold run.
  rewrite (discretise_domain_steps _ _ _ _ _ Hcheck), Hnames.
  match goal with |- context [for_each _ _ ?p] => set (pb0 := p) end.
  rewrite for_each_app.
  destruct (discretise_loop n mode (resolve_variables pb variables)
              before pb0 Hall) as (m & -> & Hin & Hout).
  assert (Hone : discretise_one sample n mode (resolve_variables pb variables)
                   k (set_discretised m pb0)
                 = (set_discretised m pb0, Err (KeyError k))).
  { unfold discretise_one, bind, gets, raise. subst pb0.
    cbn [domains set_discretised]. by rewrite Hk. }
  cbn [for_each]. unfold bind. rewrite Hone.
  cbn [fst snd discretised_domains set_discretised]. done.
Qed.

End ProblemFacts.


Lemma discretise_domain_covers_request_witness :
  let run := discretise_domain toy_sample toy_check 2 "random" (VStr "all")
               (DStr "all") toy_problem in
  snd run = Ok tt /\ are_all_domains_discretised (fst run) = true.
Proof.
  destruct (discretise_domain_covers_request toy_sample toy_check 2 "random"
              (VStr "all") (DStr "all") toy_problem)
    as (Hok & _ & _ & _ & Hall).
  - reflexivity.
  - repeat constructor. eexists _, _. split; reflexivity.
  - split; [exact Hok|]. by apply Hall.
Defined.

Lemma unknown_domain_stops_sampling_witness :
  let run := discretise_domain toy_sample toy_check 2 "random" (VStr "all")
               (DList ["D"; "data"]) toy_problem in
  snd run = Err (KeyError "data") /\
  is_Some (discretised_domains (fst run) !! "D").
Proof.
  destruct (unknown_domain_stops_sampling toy_sample toy_check 2 "random"
              (VStr "all") (DList ["D"; "data"]) toy_problem ["D"] []
              "data") as (Herr & Hin & _).
  - reflexivity.
  - reflexivity.
  - repeat constructor. eexists _, _. split; reflexivity.
  - reflexivity.
  - split; [exact Herr|]. apply Hin. left.
Defined.

Section NewProblem.

Context {Domain Equation Other Points : Type}.
Variable sample : Domain -> nat -> string -> vars_arg -> result Points.
Variable check_consistency : vars_arg -> domains_arg -> result unit.

Lemma keys_domains_of (cs : dict (condition Domain Equation Other)) k :
  k ∈ keys (domains_of cs) -> k ∈ keys cs.
Proof.
  induction cs as [|[k' [d e|c]] cs IH]; cbn [domains_of keys map fst].
  - done.
  - intros [->|H]%elem_of_cons; [left|right; by apply IH].
  - intros H. right. by apply IH.
Qed.

(** The dictionary comprehension of [__init__]: the domain under a name is
    the domain of the domain-equation condition of that name. *)
Lemma domains_of_get (cs : dict (condition Domain Equation Other)) k :
  NoDup (keys cs) ->
  dict_get (domains_of cs) k
  = match dict_get cs k with
    | Some (DomainEquationCondition _ _ _ d _) => Some d
    | _ => None
    end.
Proof.
  induction cs as [|[k' [d e|c]] cs IH]; cbn [domains_of keys map fst dict_get];
    [done|..]; intros [Hk' Hnd]%NoDup_cons;
    destruct (String.eqb k k') eqn:E; try (by apply IH); [done|].
  apply String.eqb_eq in E. subst k'.
  destruct (dict_get (domains_of cs) k) as [d|] eqn:Hd; [|done].
  exfalso. apply Hk', keys_domains_of. by eapply dict_get_Some_keys.
Qed.

(** X26.  A problem that declares no [domains] of its own takes them from its
    conditions.  When every domain of a domain-equation condition can be
    sampled, [discretise_domain] with the default ["all"] returns on the
    new problem; afterwards the name of every domain-equation condition is
    discretised and the name of no other condition is. *)
Theorem new_problem_is_discretised_by_condition
    (conditions : dict (condition Domain Equation Other))
    (spatial temporal params : option (list string))
    (n : nat) (mode : string) (variables : vars_arg) :
  let pb := AbstractProblem_init Points conditions None spatial temporal
              params in
  NoDup (keys conditions) ->
  check_consistency variables (DStr "all") = Ok tt ->
  (forall k d e,
     dict_get conditions k = Some (DomainEquationCondition _ _ _ d e) ->
     is_ok (sample d n mode (resolve_variables pb variables))) ->
  let run := discretise_domain sample check_consistency n mode variables
               (DStr "all") pb in
  snd run = Ok tt /\
  (forall k d e,
     dict_get conditions k = Some (DomainEquationCondition _ _ _ d e) ->
     is_Some (discretised_domains (fst run) !! k)) /\
  (forall k c, dict_get conditions k = Some (OtherCondition _ _ _ c) ->
               discretised_domains (fst run) !! k = None) /\
  are_all_domains_discretised (fst run) = true.
Proof.
  intros pb Hnd Hcheck Hsample run. unfold run.
  rewrite (discretise_domain_steps _ _ _ _ _ _ _ Hcheck).
  match goal with |- context [for_each _ _ ?p] => set (pb0 := p) end.
  assert (Hall : Forall (can_sample sample pb0 n mode
                           (resolve_variables pb variables))
                   (resolve_domains pb (DStr "all"))).
  { apply Forall_forall. intros k Hk. cbn [resolve_domains String.eqb] in Hk.
    cbn in Hk. destruct (dict_get_keys _ _ Hk) as [d Hd].
    pose proof Hd as Hc. cbn [pb domains AbstractProblem_init] in Hc.
    rewrite (domains_of_get _ _ Hnd) in Hc.
    destruct (dict_get conditions k) as [[d' e|c]|] eqn:Ec; try done.
    injection Hc as ->. specialize (Hsample k d e Ec).
    destruct (sample d n mode (resolve_variables pb variables)) as [pts|] eqn:Es;
      [|done].
    by exists d, pts. }
  destruct (discretise_loop sample n mode (resolve_variables pb variables)
              (resolve_domains pb (DStr "all")) pb0 Hall)
    as (m & -> & Hin & Hout).
  cbn [fst snd discretised_domains set_discretised].
  assert (Hkeys : forall k, k ∈ resolve_domains pb (DStr "all")
            <-> exists d e, dict_get conditions k
                            = Some (DomainEquationCondition _ _ _ d e)).
  { intros k. change (resolve_domains pb (DStr "all"))
      with (keys (domains_of conditions)). split.
    - intros [d Hd]%dict_get_keys. rewrite (domains_of_get _ _ Hnd) in Hd.
      destruct (dict_get conditions k) as [[d' e|c]|]; try done.
      by exists d', e.
    - intros (d & e & Hk). apply (dict_get_Some_keys _ _ d).
      by rewrite (domains_of_get _ _ Hnd), Hk. }
  split; [done|]. split; [|split].
  - intros k d e Hk. apply Hin, Hkeys. by exists d, e.
  - intros k c Hk. rewrite Hout; [done|].
    intros (d & e & Hk')%Hkeys. congruence.
  - unfold are_all_domains_discretised.
    cbn [domains discretised_domains set_discretised].
    apply forallb_forall. intros k Hk. apply bool_decide_eq_true_2, Hin.
    by apply list_elem_of_In.
Qed.

End NewProblem.

Lemma new_problem_is_discretised_by_condition_witness :
  let run := discretise_domain toy_sample toy_check 2 "random" (VStr "all")
               (DStr "all") toy_problem in
  snd run = Ok tt /\
  is_Some (discretised_domains (fst run) !! "D") /\
  discretised_domains (fst run) !! "data" = None.
Proof.
  destruct (new_problem_is_discretised_by_condition toy_sample toy_check
              [("D", DomainEquationCondition nat unit unit 1%nat tt);
               ("data", OtherCondition nat unit unit tt)]
              None None None 2 "random" (VStr "all"))
    as (Hok & Hin & Hout & _).
  - apply (bool_decide_unpack (NoDup ["D"; "data"])). reflexivity.
  - reflexivity.
  - intros k d e _. exact I.
  - split; [exact Hok|]. split.
    + apply (Hin "D" 1%nat tt). reflexivity.
    + apply (Hout "data" tt). reflexivity.
Defined.

(** ** Built edge attributes and undirected graphs *)

Lemma graph_records_attr_list la l : forall i,
  (i + length l <= length la)%nat ->
  graph_records [] (PList la) i l = (map attr_record (zip l (drop i la)), Ok tt).
Proof.
  induction l as [|item l IH]; intros i Hi; cbn [graph_records length] in *.
  - done.
  - unfold record_at, params_at. cbn [map_result Rbind edge_attr_item py_getitem].
    destruct (lookup_lt_is_Some_2 la i) as [a Ha]; [lia|].
    rewrite Ha. cbn [Rbind]. unfold new_Data. cbn [forallb].
    rewrite IH by lia. rewrite (drop_S _ _ _ Ha). done.
Qed.

Section BuiltAttributes.

Variable to_undirected : pyval -> result pyval.

Lemma Graph_init_lists lx lp le bea und custom s :
  length lx = length lp ->
  Graph_init to_undirected (PList lx) (PList lp) (PList le) PNone bea und
    custom PNone s
  = let s1 := set_heap (<[fresh (dom (heap s)) := []]> (heap s))
                (set_self_data [] s) in
    match make_undirected to_undirected und (PList le) with
    | Err e => (s1, Err e)
    | Ok ei1 =>
        match _check_and_build_edge_attr
                (match custom with
                 | Some f => f
                 | None => _build_edge_attr
                 end) PNone bea (length lp) ei1 (PList lp) (PList lx) s1 with
        | (s2, Err e) => (s2, Err e)
        | (s2, Ok ea2) =>
            _build_graph_list (PList lx) (PList lp) ei1 ea2
              (fresh (dom (heap s))) s2
        end
    end.
Proof.
  intros Hlen. rewrite Graph_init_steps. cbv zeta.
  cbn [split_3d _check_len_consistency]. rewrite Hlen, Nat.eqb_refl.
  cbn [negb]. rewrite Nat.max_id.
  cbn [_check_additional_params]. unfold new_dict.
  cbn [heap set_self_data]. 
  destruct (make_undirected to_undirected und (PList le)) as [ei1|]; done.
Qed.

(** X27.  With [build_edge_attr=True] and no [edge_attr], graph [i] gets the
    attribute the builder (the custom function when one is passed, the
    default otherwise) makes from the whole [x], [pos[i]] and
    [edge_index[i]].  A builder that raises stops the construction with
    its error and no record. *)
Theorem edge_attr_is_built_per_graph
    (lx lp le : list pyval)
    (custom : option (pyval -> pyval -> pyval -> result pyval)) (s : gstate) :
  length lx = length lp -> length le = length lp ->
  let build := match custom with Some f => f | None => _build_edge_attr end in
  let construct :=
    Graph_init to_undirected (PList lx) (PList lp) (PList le) PNone true
      false custom PNone s in
  match map_result (fun pe => build (PList lx) (fst pe) (snd pe)) (zip lp le)
  with
  | Ok la => snd construct = Ok tt /\
             self_data (fst construct)
             = map attr_record (zip (zip3 lx lp le) la)
  | Err e => snd construct = Err e /\ self_data (fst construct) = []
  end.
Proof.
  intros Hx He build construct. unfold construct.
  rewrite Graph_init_lists by done. cbv zeta. cbn [make_undirected].
  unfold _check_and_build_edge_attr, bind, iterM, lift, ret.
  cbn [py_iter heap set_heap]. fold build.
  destruct (map_result _ (zip lp le)) as [la|e] eqn:Ela; [|done].
  unfold _build_graph_list, bind, iterM. cbn [py_iter].
  rewrite build_loop_is_graph_records. unfold dict_at.
  cbn [heap set_heap set_self_data self_data].
  rewrite lookup_insert_eq. cbn [from_option id app fst snd].
  apply map_result_length in Ela.
  rewrite graph_records_attr_list.
  - by rewrite drop_0.
  - unfold zip3. rewrite Ela, !length_zip_with. lia.
Qed.

(** X28.  With [undirected=True] every edge index of the list is replaced by
    its undirected version before the records are built; when
    [to_undirected] raises on one of them the construction stops with that
    error and no record. *)
Theorem undirected_graph_records
    (lx lp le : list pyval)
    (custom : option (pyval -> pyval -> pyval -> result pyval)) (s : gstate) :
  length lx = length lp -> length le = length lp ->
  let construct :=
    Graph_init to_undirected (PList lx) (PList lp) (PList le) PNone false
      true custom PNone s in
  match map_result to_undirected le with
  | Ok le' => snd construct = Ok tt /\
              self_data (fst construct)
              = map (plain_record None) (zip3 lx lp le')
  | Err e => snd construct = Err e /\ self_data (fst construct) = []
  end.
Proof.
  intros Hx He construct. unfold construct.
  destruct (map_result to_undirected le) as [le'|e] eqn:Eund.
  - destruct (Graph_init_plain to_undirected (PList lx) (PList lp) (PList le)
                PNone false true custom s (length lp) (PList le') lx lp le')
      as (Hok & Hdata & _); try done.
    + cbn. rewrite Hx, Nat.eqb_refl. cbn. by rewrite Nat.max_id.
    + cbn. by rewrite Eund.
    + unfold zip3. rewrite !length_zip_with. lia.
  - rewrite Graph_init_lists by done. cbv zeta. cbn [make_undirected].
    by rewrite Eund.
Qed.

End BuiltAttributes.

Lemma edge_attr_is_built_per_graph_witness :
  self_data (fst (Graph_init (fun v => Ok v)
                    (PList [one_node 1; one_node 2])
                    (PList [one_node 3; one_node 4])
                    (PList [self_edge; self_edge]) PNone true false
                    (Some (fun x pos_ edge_index_ => Ok x)) PNone
                    empty_state))
  = [mkData (one_node 1) (one_node 3) self_edge
       (Some (PList [one_node 1; one_node 2])) [];
     mkData (one_node 2) (one_node 4) self_edge
       (Some (PList [one_node 1; one_node 2])) []].
Proof.
  apply (edge_attr_is_built_per_graph (fun v => Ok v)
           [one_node 1; one_node 2] [one_node 3; one_node 4]
           [self_edge; self_edge] (Some (fun x pos_ edge_index_ => Ok x))
           empty_state); reflexivity.
Defined.

Lemma undirected_graph_records_witness :
  snd (Graph_init (fun v => Err (RuntimeError "not an edge index"))
         (PList [one_node 1]) (PList [one_node 3]) (PList [self_edge])
         PNone false true None PNone empty_state)
  = Err (RuntimeError "not an edge index").
Proof.
  apply (undirected_graph_records
           (fun v => Err (RuntimeError "not an edge index"))
           [one_node 1] [one_node 3] [self_edge] None empty_state);
    reflexivity.
Defined.

(** * Properties in single precision *)

(** ** The order of the floats *)

Lemma SFcompare_antisym a b c :
  SFcompare a b = Some c -> SFcompare b a = Some (CompOpp c).
Proof.
  destruct a as [sa|sa| |sa ma ea], b as [sb|sb| |sb mb eb]; cbn;
    try discriminate;
    try (destruct sa; try destruct sb; intros [= <-]; reflexivity);
    try (destruct sb; intros [= <-]; reflexivity);
    try (intros [= <-]; reflexivity).
  destruct sa, sb; intros [= <-]; f_equal; try reflexivity;
    rewrite (Z.compare_antisym ea eb);
    destruct (ea ?= eb)%Z; cbn; try reflexivity;
    change (Pos.compare_cont Eq mb ma) with (Pos.compare mb ma);
    change (Pos.compare_cont Eq ma mb) with (Pos.compare ma mb);
    rewrite (Pos.compare_antisym ma mb); by destruct (ma ?= mb)%positive.
Qed.

Lemma SFcompare_refl a : F32.is_nan a = false -> SFcompare a a = Some Eq.
Proof.
  destruct a as [sa|sa| |sa ma ea]; cbn; try done.
  - by destruct sa.
  - intros _. rewrite Z.compare_refl.
    change (Pos.compare_cont Eq ma ma) with (Pos.compare ma ma).
    rewrite Pos.compare_refl. by destruct sa.
Qed.

Lemma SFcompare_trans a b c c1 c2 :
  SFcompare a b = Some c1 -> SFcompare b c = Some c2 ->
  c1 <> Gt -> c2 <> Gt ->
  SFcompare a c = Some (match c1 with Lt => Lt | _ => c2 end).
Proof.
  destruct a as [sa|sa| |sa ma ea], b as [sb|sb| |sb mb eb],
    c as [sc|sc| |sc mc ec]; cbn; try discriminate;
    repeat match goal with s : bool |- _ => destruct s end;
    intros [= <-] [= <-]; try done;
    change (Pos.compare_cont Eq) with Pos.compare;
    try (destruct (Z.compare_spec ea eb); try done);
    try (destruct (Z.compare_spec eb ec); try done);
    try (destruct (Z.compare_spec ea ec); try done; try lia);
    try (destruct (Pos.compare_spec ma mb); try done);
    try (destruct (Pos.compare_spec mb mc); try done);
    try (destruct (Pos.compare_spec ma mc); cbn; try done; try lia).
Qed.

Lemma SFcompare_nan a b :
  F32.is_nan a = false -> F32.is_nan b = false ->
  exists c, SFcompare a b = Some c.
Proof.
  destruct a as [sa|sa| |sa ma ea], b as [sb|sb| |sb mb eb]; cbn;
    try done; intros _ _; by eexists.
Qed.

Lemma f32_le_not_nan a b :
  F32.le a b = true -> F32.is_nan a = false /\ F32.is_nan b = false.
Proof.
  unfold F32.le, SFleb.
  by destruct a as [sa|sa| |sa ma ea], b as [sb|sb| |sb mb eb].
Qed.

Lemma f32_lt_not_nan a b :
  F32.lt a b = true -> F32.is_nan a = false /\ F32.is_nan b = false.
Proof.
  unfold F32.lt, SFltb.
  by destruct a as [sa|sa| |sa ma ea], b as [sb|sb| |sb mb eb].
Qed.

Lemma f32_le_refl a : F32.is_nan a = false -> F32.le a a = true.
Proof. intros Ha. unfold F32.le, SFleb. by rewrite SFcompare_refl. Qed.

Lemma f32_not_lt_le a b :
  F32.is_nan a = false -> F32.is_nan b = false ->
  F32.lt a b = false -> F32.le b a = true.
Proof.
  intros Ha Hb. unfold F32.lt, F32.le, SFltb, SFleb.
  destruct (SFcompare_nan a b Ha Hb) as [c Hc].
  rewrite Hc, (SFcompare_antisym a b c Hc). by destruct c.
Qed.

Lemma f32_le_not_lt a b : F32.le a b = true -> F32.lt b a = false.
Proof.
  unfold F32.lt, F32.le, SFltb, SFleb.
  destruct (SFcompare a b) as [c|] eqn:Hc; [|done].
  rewrite (SFcompare_antisym a b c Hc). by destruct c.
Qed.

Lemma f32_lt_le a b : F32.lt a b = true -> F32.le a b = true.
Proof.
  unfold F32.lt, F32.le, SFltb, SFleb.
  by destruct (SFcompare a b) as [[]|].
Qed.

Lemma f32_le_trans a b c :
  F32.le a b = true -> F32.le b c = true -> F32.le a c = true.
Proof.
  unfold F32.le, SFleb.
  destruct (SFcompare a b) as [c1|] eqn:H1; [|done].
  destruct (SFcompare b c) as [c2|] eqn:H2; [|by destruct c1].
  intros Hc1 Hc2.
  rewrite (SFcompare_trans a b c c1 c2 H1 H2);
    by destruct c1, c2.
Qed.

Lemma f32_le_lt_trans a b c :
  F32.le a b = true -> F32.lt b c = true -> F32.lt a c = true.
Proof.
  unfold F32.le, F32.lt, SFleb, SFltb.
  destruct (SFcompare a b) as [c1|] eqn:H1; [|done].
  destruct (SFcompare b c) as [c2|] eqn:H2; [|by destruct c1].
  intros Hc1 Hc2.
  rewrite (SFcompare_trans a b c c1 c2 H1 H2);
    by destruct c1, c2.
Qed.

(** ** Clamping in single precision *)

Lemma f32_clamp_nan low high a :
  F32.is_nan a = true -> F32.clamp low high a = a.
Proof.
  destruct a; try done. intros _.
  unfold F32.clamp, F32.max, F32.min, F32.lt, SFltb. cbn.
  by destruct (F32.of_float high).
Qed.

Lemma f32_clamp_pulls low high a :
  F32.le (F32.of_float low) (F32.of_float high) = true ->
  F32.pulled_into (F32.of_float low) (F32.of_float high) a
    (F32.clamp low high a).
Proof.
  intros Hle. split; [apply f32_clamp_nan|]. intros Ha.
  destruct (f32_le_not_nan _ _ Hle) as [Hlo Hhi].
  unfold F32.clamp, F32.max, F32.min.
  set (lo := F32.of_float low) in *. set (hi := F32.of_float high) in *.
  pose proof (f32_le_not_lt _ _ Hle) as Hhl.
  destruct (F32.lt a lo) eqn:Hal.
  - rewrite Hhl. repeat split; try done.
    + by apply f32_le_refl.
    + intros Hha. pose proof (f32_le_lt_trans _ _ _ Hle Hha) as Hla.
      apply f32_lt_le, f32_le_not_lt in Hla. congruence.
    + intros Hla _. apply f32_le_not_lt in Hla. congruence.
  - destruct (F32.lt hi a) eqn:Hha.
    + repeat split; try done.
      * by apply f32_le_refl.
      * intros _ Hah. apply f32_le_not_lt in Hah. congruence.
    + repeat split; try done.
      * by apply f32_not_lt_le.
      * by apply f32_not_lt_le.
Qed.

Lemma f32_clamp_idem low high a :
  F32.le (F32.of_float low) (F32.of_float high) = true ->
  F32.clamp low high (F32.clamp low high a) = F32.clamp low high a.
Proof.
  intros Hle. destruct (F32.is_nan a) eqn:Ha.
  - by rewrite !(f32_clamp_nan low high a Ha).
  - destruct (f32_clamp_pulls low high a Hle) as [_ Hin].
    destruct (Hin Ha) as (Hlo & Hhi & _).
    assert (Hn : F32.is_nan (F32.clamp low high a) = false)
      by exact (proj1 (f32_le_not_nan _ _ Hhi)).
    destruct (f32_clamp_pulls low high (F32.clamp low high a) Hle)
      as [_ Hin2].
    destruct (Hin2 Hn) as (_ & _ & _ & _ & Hsame). by apply Hsame.
Qed.


Section F32ClampLoop.

Variable range_ : dict (spec_float * spec_float).

Let body (v : string) : M (dict (list F32.f32)) unit :=
  match dict_get range_ v with
  | None => raise (KeyError v)
  | Some (low, high) => F32.clamp_param v low high
  end.

Lemma f32_clamp_round_keys ps v :
  keys (F32.clamp_round range_ ps v) = keys ps.
Proof.
  unfold F32.clamp_round.
  destruct (dict_get range_ v) as [[low high]|]; [|done].
  destruct (dict_get ps v) eqn:E; [|done]. by apply keys_dict_set.
Qed.

Lemma f32_clamp_rounds_keys todo : forall ps,
  keys (foldl (F32.clamp_round range_) ps todo) = keys ps.
Proof.
  induction todo as [|v todo IH]; intros ps; [done|]. cbn [foldl].
  by rewrite IH, f32_clamp_round_keys.
Qed.

Lemma f32_clamp_loop_runs todo : forall ps,
  (forall v, v ∈ todo -> is_Some (dict_get range_ v) /\ v ∈ keys ps) ->
  for_each todo body ps = (foldl (F32.clamp_round range_) ps todo, Ok tt).
Proof.
  induction todo as [|v todo IH]; intros ps Hall; [done|].
  destruct (Hall v) as [[[low high] Hr] Hv]; [left|].
  destruct (dict_get_keys _ _ Hv) as [x Hx].
  cbn [for_each foldl]. unfold bind, body at 1, F32.clamp_param.
  rewrite Hr, Hx. unfold F32.clamp_round at 2. rewrite Hr, Hx.
  apply IH. intros w Hw. destruct (Hall w) as [Hrw Hkw]; [by right|].
  split; [done|]. rewrite keys_dict_set; [done|by eexists].
Qed.

Lemma f32_dict_get_clamp_round ps v w :
  dict_get (F32.clamp_round range_ ps v) w
  = (if bool_decide (v = w) then F32.clamp_value range_ w else id)
      <$> dict_get ps w.
Proof.
  unfold F32.clamp_round, F32.clamp_value.
  destruct (decide (v = w)) as [->|Hne].
  - rewrite bool_decide_eq_true_2 by done.
    destruct (dict_get range_ w) as [[low high]|];
      [|by destruct (dict_get ps w)].
    destruct (dict_get ps w) as [x|] eqn:Hx; [|by rewrite Hx].
    by rewrite dict_get_set_eq.
  - rewrite bool_decide_eq_false_2 by done.
    destruct (dict_get range_ v) as [[low high]|];
      [|by destruct (dict_get ps w)].
    destruct (dict_get ps v) as [x|]; [|by destruct (dict_get ps w)].
    rewrite dict_get_set_ne by done. by destruct (dict_get ps w).
Qed.

Lemma f32_dict_get_clamp_rounds todo : forall ps w,
  NoDup todo ->
  dict_get (foldl (F32.clamp_round range_) ps todo) w
  = (if bool_decide (w ∈ todo) then F32.clamp_value range_ w else id)
      <$> dict_get ps w.
Proof.
  induction todo as [|v todo IH]; intros ps w Hnd.
  - cbn. by destruct (dict_get ps w).
  - apply NoDup_cons in Hnd as [Hv Hnd]. cbn [foldl].
    rewrite IH by done. rewrite f32_dict_get_clamp_round.
    destruct (decide (v = w)) as [->|Hne].
    + rewrite (bool_decide_eq_true_2 (w = w)) by done.
      rewrite (bool_decide_eq_false_2 (w ∈ todo)) by done.
      rewrite (bool_decide_eq_true_2 (w ∈ w :: todo)) by left.
      by destruct (dict_get ps w).
    + rewrite (bool_decide_eq_false_2 (v = w)) by done.
      rewrite (bool_decide_ext (w ∈ v :: todo) (w ∈ todo)).
      * by destruct (dict_get ps w).
      * rewrite elem_of_cons. split; [|by right].
        intros [Heq|Hin]; [congruence|done].
Qed.

Lemma f32_clamp_rounds_fixed todo : forall ps,
  (forall v x, v ∈ todo -> dict_get ps v = Some x ->
               F32.clamp_value range_ v x = x) ->
  foldl (F32.clamp_round range_) ps todo = ps.
Proof.
  induction todo as [|v todo IH]; intros ps Hfix; [done|]. cbn [foldl].
  assert (Hv : F32.clamp_round range_ ps v = ps).
  { unfold F32.clamp_round.
    destruct (dict_get range_ v) as [[low high]|] eqn:Hr; [|done].
    destruct (dict_get ps v) as [x|] eqn:Hx; [|done].
    apply dict_set_same. rewrite Hx. f_equal.
    specialize (Hfix v x). unfold F32.clamp_value in Hfix.
    rewrite Hr in Hfix. symmetry. apply Hfix; [left | done]. }
  rewrite Hv. apply IH. intros w x Hw. apply Hfix. by right.
Qed.

Lemma f32_clamp_params_run ps :
  (forall v, v ∈ keys ps -> is_Some (dict_get range_ v)) ->
  F32._clamp_inverse_problem_params range_ ps
  = (foldl (F32.clamp_round range_) ps (keys ps), Ok tt).
Proof.
  intros Hall. unfold F32._clamp_inverse_problem_params, bind, gets.
  cbn [id]. apply f32_clamp_loop_runs. intros v Hv. split; [|done].
  by apply Hall.
Qed.

End F32ClampLoop.

(** C9 (as worded it fails).  A parameter holding 5.0 with the declared
    range [0.0, 0.1]: the routine casts the bounds to single precision,
    and the entry it leaves, the single-precision number nearest to 0.1,
    is 0.100000001490116..., above the declared bound 0.1. *)
Lemma rounded_bound_exceeds_declared_range :
  ~ F32.clamped_into_declared_range.
Proof.
  intros H.
  specialize (H [("mu", (F32.float_0, F32.float_0_1))] [("mu", [F32.five])]
                "mu" F32.float_0 F32.float_0_1
                [S754_finite false 13421773 (-27)] eq_refl).
  assert (Hrange : F32.in_declared_range F32.float_0 F32.float_0_1
                     F32.float_0).
  { exists 0%Q, 0%Q, (7205759403792794 # 72057594037927936)%Q.
    repeat split; try reflexivity; discriminate. }
  specialize (H Hrange eq_refl). apply Forall_cons in H as [Hin _].
  destruct Hin as (q & ql & qh & Hq & _ & Hh & _ & Hle).
  vm_compute in Hq, Hh. injection Hq as <-. injection Hh as <-.
  vm_compute in Hle. by apply Hle.
Qed.

(** C9 (amended).  On an inverse problem whose unknown parameters all have
    a declared range whose bounds, cast to single precision, are
    [lo <= hi]: one call of the clamping routine succeeds and leaves every
    entry that is not a NaN between [lo] and [hi]: an entry below [lo]
    becomes [lo], one above [hi] becomes [hi], one between them is
    unchanged; a NaN entry stays a NaN; a second call changes nothing. *)
Theorem clamp_between_rounded_bounds
    (range_ : dict (spec_float * spec_float)) (ps : dict (list F32.f32)) :
  NoDup (keys ps) ->
  (forall v, v ∈ keys ps ->
     exists low high, dict_get range_ v = Some (low, high) /\
       F32.le (F32.of_float low) (F32.of_float high) = true) ->
  exists ps',
    F32._clamp_inverse_problem_params range_ ps = (ps', Ok tt) /\
    keys ps' = keys ps /\
    (forall v low high x,
       dict_get range_ v = Some (low, high) -> dict_get ps v = Some x ->
       exists x', dict_get ps' v = Some x' /\
         Forall2 (F32.pulled_into (F32.of_float low) (F32.of_float high))
           x x') /\
    F32._clamp_inverse_problem_params range_ ps' = (ps', Ok tt).
Proof.
  intros Hnd Hranges.
  set (ps' := foldl (F32.clamp_round range_) ps (keys ps)).
  assert (Hkeys : keys ps' = keys ps) by apply f32_clamp_rounds_keys.
  assert (Hsome : forall v, v ∈ keys ps -> is_Some (dict_get range_ v)).
  { intros v Hv. destruct (Hranges v Hv) as (low & high & -> & _).
    by eexists. }
  exists ps'. split; [by apply f32_clamp_params_run|]. split; [done|].
  assert (Hget : forall v x, dict_get ps v = Some x ->
            dict_get ps' v = Some (F32.clamp_value range_ v x)).
  { intros v x Hx. unfold ps'. rewrite f32_dict_get_clamp_rounds by done.
    rewrite Hx. rewrite bool_decide_eq_true_2; [done|].
    by eapply dict_get_Some_keys. }
  split.
  - intros v low high x Hr Hx. exists (map (F32.clamp low high) x). split.
    + rewrite (Hget v x Hx). unfold F32.clamp_value. by rewrite Hr.
    + destruct (Hranges v) as (low' & high' & Hr' & Hle);
        [by eapply dict_get_Some_keys|].
      rewrite Hr in Hr'. injection Hr' as <- <-.
      clear -Hle. induction x as [|a x IH]; cbn [map]; constructor; [|done].
      by apply f32_clamp_pulls.
  - rewrite f32_clamp_params_run by (by rewrite Hkeys).
    rewrite Hkeys. f_equal.
    apply f32_clamp_rounds_fixed. intros v y Hv Hy.
    destruct (dict_get_keys _ _ Hv) as [x Hx].
    rewrite (Hget v x Hx) in Hy. injection Hy as <-.
    destruct (Hranges v Hv) as (low & high & Hr & Hle).
    unfold F32.clamp_value. rewrite Hr. rewrite List.map_map.
    apply map_ext. intros a. by apply f32_clamp_idem.
Qed.

Lemma clamp_between_rounded_bounds_witness :
  exists ps',
    F32._clamp_inverse_problem_params [("mu", (F32.float_0, F32.float_0_1))]
      [("mu", [F32.five; F32.half; S754_nan])]
    = (ps', Ok tt) /\
    dict_get ps' "mu"
    = Some [S754_finite false 13421773 (-27);
            S754_finite false 13421773 (-27); S754_nan].
Proof.
  destruct (clamp_between_rounded_bounds
              [("mu", (F32.float_0, F32.float_0_1))]
              [("mu", [F32.five; F32.half; S754_nan])])
    as (ps' & Hrun & _).
  - apply (bool_decide_unpack (NoDup ["mu"])). reflexivity.
  - intros v Hv. apply list_elem_of_singleton in Hv. subst v.
    exists F32.float_0, F32.float_0_1. split; reflexivity.
  - exists ps'. split; [exact Hrun|].
    vm_compute in Hrun. injection Hrun as <-. reflexivity.
Defined.


(** ** The radius graph in single precision *)

Lemma f32_sub_self a : F32.is_finite a = true -> F32.sub a a = F32.zero.
Proof.
  destruct a as [s|s| |s m e]; try done; intros _.
  - by destruct s.
  - unfold F32.sub, SFsub. by rewrite Z.sub_diag.
Qed.

Lemma f32_dist_direct_self (p : F32.fpoint) :
  Forall (fun a => F32.is_finite a = true) p ->
  F32.dist_direct p p = F32.zero.
Proof.
  intros Hp. unfold F32.dist_direct.
  match goal with |- F32.sqrt ?t = _ => assert (Hsum : t = F32.zero) end.
  { induction Hp as [|a p Ha _ IH]; [done|]. cbn [zip_with foldl].
    by rewrite (f32_sub_self a Ha). }
  by rewrite Hsum.
Qed.

Lemma f32_mask_lookup (r : spec_float) (points : list F32.fpoint) i p :
  points !! i = Some p ->
  map (map (fun d => F32.le d (F32.of_float r))) (F32.cdist points points) !! i
  = Some (map (fun q => F32.le (F32.dist_at (length points) (length points)
                                  p q) (F32.of_float r)) points).
Proof.
  intros Hp. unfold F32.cdist. rewrite !lookup_map, Hp. cbn.
  by rewrite List.map_map.
Qed.

Lemma f32_radius_edges (points : list F32.fpoint) (r : spec_float) i j :
  (i, j) ∈ edges_of (F32._radius_graph points r)
  <-> exists p q, points !! i = Some p /\ points !! j = Some q /\
        F32.le (F32.dist_at (length points) (length points) p q)
          (F32.of_float r) = true.
Proof.
  unfold edges_of, F32._radius_graph, transpose_pairs. cbn [fst snd].
  rewrite zip_map_fst_snd, nonzero_elem. split.
  - intros (row & Hrow & Hj).
    assert (Hi : (i < length points)%nat).
    { apply lookup_lt_Some in Hrow. unfold F32.cdist in Hrow.
      by rewrite !length_map in Hrow. }
    destruct (lookup_lt_is_Some_2 points i Hi) as [p Hp].
    rewrite (f32_mask_lookup r points i p Hp) in Hrow. injection Hrow as <-.
    rewrite lookup_map in Hj.
    destruct (points !! j) as [q|] eqn:Hq; [|done].
    injection Hj as Hj. by exists p, q.
  - intros (p & q & Hp & Hq & Hle). eexists. split.
    + by apply f32_mask_lookup.
    + by rewrite lookup_map, Hq, <- Hle.
Qed.

(** C7 (as worded it fails).  The points 0 and [2^-100] of a line are
    distinct, but the square of their difference is below the smallest
    single-precision number and is computed as 0: at radius 0 the two
    points are joined both ways. *)
Lemma radius_zero_joins_distinct_points :
  ~ F32.radius_zero_gives_self_loops_only.
Proof.
  intros H. specialize (H F32.near_points).
  assert (Hdistinct : F32.pairwise_distinct F32.near_points).
  { intros i j p q Hi Hj Hne Hsame.
    destruct i as [|[|i]]; destruct j as [|[|j]]; try done;
      injection Hi as <-; injection Hj as <-;
      apply Forall2_cons_1 in Hsame as [(x & y & Hx & Hy & Hxy) _];
      vm_compute in Hx, Hy; injection Hx as <-; injection Hy as <-;
      vm_compute in Hxy; discriminate. }
  specialize (H Hdistinct). vm_compute in H. discriminate.
Qed.

(** The same on the twenty-six points 0, ..., 23, 4096, 4097, where the
    distances go through the matrix product: [4097^2] is rounded to
    [16785408], so [4096^2 + 4097^2 - 2 * 4096 * 4097] comes out as 0
    and the last two points are joined. *)
Example radius_zero_on_far_points :
  F32.dist_at 26 26 [F32.of_Z 4096] [F32.of_Z 4097] = F32.zero /\
  (24%nat, 25%nat) ∈ edges_of (F32._radius_graph F32.far_points F32.float_0) /\
  length (edges_of (F32._radius_graph F32.far_points F32.float_0)) = 28%nat.
Proof.
  split; [by vm_compute|].
  assert (Hrun : F32._radius_graph F32.far_points F32.float_0
                 = (seq 0 24 ++ [24; 24; 25; 25]%nat,
                    seq 0 24 ++ [24; 25; 24; 25]%nat)) by (by vm_compute).
  rewrite Hrun. split; [|done].
  apply (bool_decide_unpack _). by vm_compute.
Qed.

(** C7 (amended).  The radius edge index joins [i] to [j] exactly when
    the distance [torch.cdist] computes for the two rows is at most [r]
    cast to single precision.  With at most 25 points, all with finite
    coordinates, the computed distance of a point from itself is 0, so
    every self-loop is there for every [r] that is not below 0.  And the
    index is exactly the [N] self-loops, in order, when the computed
    distance is at most [r] on the diagonal and nowhere else. *)
Theorem radius_graph_follows_computed_distances
    (points : list F32.fpoint) (r : spec_float) :
  let N := length points in
  let dist := F32.dist_at N N in
  let r32 := F32.of_float r in
  (forall i j,
     (i, j) ∈ edges_of (F32._radius_graph points r)
     <-> exists p q, points !! i = Some p /\ points !! j = Some q /\
                     F32.le (dist p q) r32 = true) /\
  ((N <= 25)%nat ->
   Forall (Forall (fun a => F32.is_finite a = true)) points ->
   F32.le F32.zero r32 = true ->
   forall i, (i < N)%nat -> (i, i) ∈ edges_of (F32._radius_graph points r)) /\
  ((forall i j p q, points !! i = Some p -> points !! j = Some q ->
      (F32.le (dist p q) r32 = true <-> i = j)) ->
   F32._radius_graph points r = (seq 0 N, seq 0 N)).
Proof.
  intros N dist r32. split; [apply f32_radius_edges|]. split.
  - intros HN Hfin Hr i Hi. apply f32_radius_edges.
    destruct (lookup_lt_is_Some_2 points i Hi) as [p Hp].
    exists p, p. split; [done|]. split; [done|].
    unfold F32.dist_at.
    replace (25 <? length points)%nat with false
      by (symmetry; apply Nat.ltb_ge; exact HN).
    cbn [orb]. rewrite f32_dist_direct_self; [done|].
    rewrite Forall_forall in Hfin. apply Hfin.
    by eapply list_elem_of_lookup_2.
  - intros Hdiag. unfold F32._radius_graph, nonzero.
    rewrite (nonzero_diagonal _ 0%nat).
    + rewrite !length_map. unfold F32.cdist. rewrite length_map.
      unfold transpose_pairs. rewrite !List.map_map. cbn [fst snd].
      by rewrite List.map_id.
    + intros i row Hrow.
      assert (Hi : (i < length points)%nat).
      { apply lookup_lt_Some in Hrow. unfold F32.cdist in Hrow.
        by rewrite !length_map in Hrow. }
      destruct (lookup_lt_is_Some_2 points i Hi) as [p Hp].
      rewrite (f32_mask_lookup r points i p Hp) in Hrow.
      injection Hrow as <-.
      apply (true_columns_single _ 0%nat i).
      * rewrite lookup_map, Hp. cbn. f_equal. by apply (Hdiag i i p p).
      * intros k Hk Hrowk. rewrite lookup_map in Hrowk.
        destruct (points !! k) as [q|] eqn:Hq; [|done].
        injection Hrowk as Hle. apply (Hdiag i k p q Hp Hq) in Hle.
        congruence.
Qed.

Lemma radius_graph_follows_computed_distances_witness :
  (1%nat, 1%nat)
  ∈ edges_of (F32._radius_graph [[F32.of_Z 0]; [F32.of_Z 1]; [F32.of_Z 3]]
                F32.float_1) /\
  F32._radius_graph [[F32.of_Z 0]; [F32.of_Z 1]; [F32.of_Z 3]] F32.float_0
  = ([0; 1; 2]%nat, [0; 1; 2]%nat).
Proof.
  split.
  - apply (radius_graph_follows_computed_distances
             [[F32.of_Z 0]; [F32.of_Z 1]; [F32.of_Z 3]] F32.float_1).
    + simpl. lia.
    + repeat constructor.
    + reflexivity.
    + simpl. lia.
  - apply (radius_graph_follows_computed_distances
             [[F32.of_Z 0]; [F32.of_Z 1]; [F32.of_Z 3]] F32.float_0).
    intros i j p q Hi Hj.
    destruct i as [|[|[|i]]]; destruct j as [|[|[|j]]]; try done;
      injection Hi as <-; injection Hj as <-; by vm_compute.
Defined.
